(** * Edupulse: the news aggregation and summarisation pipeline

    A shallow embedding of the Python sources
      - [bookmarking.py]    (module [Bookmarking]),
      - [news_fetcher.py]   (module [NewsFetcher]),
      - [rss_fetcher.py]    (modules [RssFetcher], [Feed] and [RssSource]),
      - [summarization.py]  (module [Summarization]),
      - [tutorial_links.py] (module [TutorialLinks]),
      - [cache_manager.py]  (module [CacheManager]),
      - [notifications.py]  (module [Notifications]),
      - [main.py]           (module [Main]: the bookmark button, the two
        bookmark managers and the loading of the news),
    then the notions the specification is stated with (module [Spec]) and
    concrete inputs (module [Examples]), and last the properties of the
    specification, proved about the embedding.

    Conventions of the embedding.
      - A Python [str] is a list of characters ([list ascii]).  The
        character classes used by [re], [strip], [split] and [lower] are
        those of the ASCII range; text outside that range is not modelled.
      - A Python [int] is a [Z]; [len] is a [nat] injected where compared.
      - An article is a Python dict with string keys.  It is embedded as a
        record of optional fields: [None] is an absent key, and a present
        key holds a value of the type of the data model (strings, a flag,
        the source record).  [d.get(k, default)] is [default] on [None].
      - Whatever leaves the process ([requests.get], [feedparser.parse], the
        bookmark file, the clock) is an explicit argument or a logged
        effect; [print] is not modelled.
      - A Python [float] is a binary64 number of [PrimFloat]. *)

From Stdlib Require Import ZArith Ascii String.
From Stdlib Require Import Floats.PrimFloat Numbers.Cyclic.Int63.Uint63.
From stdpp Require Import gmap strings list sorting.

Local Open Scope Z_scope.
#[local] Set Warnings "-inexact-float,-clear-no-such-hyp".

(** ** Python values and built-ins *)

Module Py.

Abbreviation str := (list ascii).

Definition lit (s : string) : str := list_ascii_of_string s.

(** [len(x)] as a Python integer. *)
Definition len {A} (l : list A) : Z := Z.of_nat (length l).

(** [l[:n]]: a negative [n] counts from the end. *)
Definition slice_to {A} (l : list A) (n : Z) : list A :=
  if 0 <=? n then take (Z.to_nat n) l
  else take (length l - Z.to_nat (- n)) l.

(** [d.get(k, default)] on an optional field. *)
Definition get {A} (field : option A) (dflt : A) : A := default dflt field.

(** Truth value of a string: the empty string is false. *)
Definition truthy (s : str) : bool :=
  match s with [] => false | _ :: _ => true end.

(** The result of a call that may raise. *)
Inductive outcome (A : Type) : Type :=
| Returned (a : A)
| Raised.
Arguments Returned {A} a.
Arguments Raised {A}.

Definition returned {A} (o : outcome A) : bool :=
  match o with Returned _ => true | Raised => false end.

(** Code point comparison of characters, lexicographic [<] on strings. *)
Definition ord (c : ascii) : nat := nat_of_ascii c.

Fixpoint str_ltb (s t : str) : bool :=
  match s, t with
  | _, [] => false
  | [], _ :: _ => true
  | a :: s', b :: t' =>
      if (ord a <? ord b)%nat then true
      else if (ord b <? ord a)%nat then false
      else str_ltb s' t'
  end.

(** [s.lower()]: the letters [A]-[Z] become [a]-[z]. *)
Definition lower_char (c : ascii) : ascii :=
  if ((65 <=? ord c) && (ord c <=? 90))%nat
  then ascii_of_nat (ord c + 32) else c.

Definition lower (s : str) : str := map lower_char s.

(** [s.isascii()]: every character is below 128.  On such a string
    [lower], [upper], [\w] and [\s] are the ASCII classes of this module. *)
Definition isascii (s : str) : bool := forallb (λ c, (ord c <? 128)%nat) s.

(** [s.upper()]: the letters [a]-[z] become [A]-[Z]. *)
Definition upper_char (c : ascii) : ascii :=
  if ((97 <=? ord c) && (ord c <=? 122))%nat
  then ascii_of_nat (ord c - 32) else c.

Definition upper (s : str) : str := map upper_char s.

(** White space, for [strip], [split] and the class [\s]: the characters
    9 to 13, 28 to 31 and the space. *)
Definition is_space (c : ascii) : bool :=
  ((9 <=? ord c) && (ord c <=? 13) || (28 <=? ord c) && (ord c <=? 32))%nat.

Definition is_digit (c : ascii) : bool :=
  ((48 <=? ord c) && (ord c <=? 57))%nat.

(** The class [\w]: letters, digits and the underscore. *)
Definition is_word_char (c : ascii) : bool :=
  (is_digit c
   || (65 <=? ord c) && (ord c <=? 90)
   || (97 <=? ord c) && (ord c <=? 122)
   || (ord c =? 95))%nat.

(** [s.lstrip()], [s.strip()]. *)
Fixpoint lstrip (s : str) : str :=
  match s with
  | [] => []
  | c :: s' => if is_space c then lstrip s' else s
  end.

Definition strip (s : str) : str := rev (lstrip (rev (lstrip s))).

(** [re.sub(r'\s+', ' ', s)]: one space for each maximal run of white
    space; [in_run] says that the previous character was white space. *)
Fixpoint sub_spaces (in_run : bool) (s : str) : str :=
  match s with
  | [] => []
  | c :: s' =>
      if is_space c then
        if in_run then sub_spaces true s' else " "%char :: sub_spaces true s'
      else c :: sub_spaces false s'
  end.

(** [s.split()]: the maximal runs of characters that are not white
    space; [word] is the run being read, last character first. *)
Fixpoint split_go (word : str) (s : str) : list str :=
  match s with
  | [] => match word with [] => [] | _ => [rev word] end
  | c :: s' =>
      if is_space c then
        match word with
        | [] => split_go [] s'
        | _ => rev word :: split_go [] s'
        end
      else split_go (c :: word) s'
  end.

Definition split (s : str) : list str := split_go [] s.

(** [s.isdigit()]. *)
Definition isdigit (s : str) : bool := truthy s && forallb is_digit s.

(** [s.rsplit(' ', 1)[0]]: what comes before the last space, or all of
    [s] when it has no space. *)
Fixpoint before_last_space (s : str) : option str :=
  match s with
  | [] => None
  | c :: s' =>
      match before_last_space s' with
      | Some p => Some (c :: p)
      | None => if bool_decide (c = " "%char) then Some [] else None
      end
  end.

Definition rsplit_head (s : str) : str := default s (before_last_space s).

(** [l.index(x)], where [x] is in [l]. *)
Definition index {A} `{EqDecision A} (l : list A) (x : A) : nat :=
  default 0%nat (fst <$> list_find (λ y, y = x) l).

(** An integer as a float: exact from 0 up to 2^53, where the counts of a
    text are. *)
Definition float_of_int (z : Z) : float := PrimFloat.of_uint63 (Uint63.of_Z z).

(** [sub in s] for strings. *)
Fixpoint starts_with (sub s : str) : bool :=
  match sub, s with
  | [], _ => true
  | _ :: _, [] => false
  | a :: sub', b :: s' => bool_decide (a = b) && starts_with sub' s'
  end.

Fixpoint contains (s sub : str) : bool :=
  starts_with sub s ||
  match s with
  | [] => false
  | _ :: s' => contains s' sub
  end.

(** [sep.join(parts)]. *)
Fixpoint join (sep : str) (parts : list str) : str :=
  match parts with
  | [] => []
  | [p] => p
  | p :: ps => p ++ sep ++ join sep ps
  end.

(** [re.findall(r'\w+', s)]: the maximal runs of word characters; [word]
    is the run being read, last character first. *)
Fixpoint findall_go (word : str) (s : str) : list str :=
  match s with
  | [] => match word with [] => [] | _ => [rev word] end
  | c :: s' =>
      if is_word_char c then findall_go (c :: word) s'
      else
        match word with
        | [] => findall_go [] s'
        | _ => rev word :: findall_go [] s'
        end
  end.

Definition findall_words (s : str) : list str := findall_go [] s.

(** [urllib.parse.quote_plus(s)]: letters, digits and [_.-~] stay, a space
    becomes [+], and any other character becomes [%] and the two
    hexadecimal digits of its code, in upper case. *)
Definition is_unreserved (c : ascii) : bool :=
  is_word_char c || bool_decide (c ∈ ["."; "-"; "~"]%char).

Definition hex_digit (n : nat) : ascii :=
  nth n (lit "0123456789ABCDEF") "0"%char.

Definition quote_char (c : ascii) : str :=
  if is_unreserved c then [c]
  else if bool_decide (c = " "%char) then ["+"%char]
  else ["%"%char; hex_digit (ord c / 16); hex_digit (ord c mod 16)].

Definition quote_plus (s : str) : str := concat (quote_char <$> s).

(** [sorted(l, key=key)] and [l.sort(key=key)]: the stable sort, which only
    asks whether one key is less than another.  An element is inserted
    after the elements whose key is less than its own and before all
    others, so equal keys keep their order. *)
Section Sort.
Context {A K : Type} (ltb : K → K → bool) (key : A → K).

Fixpoint insert_sorted (x : A) (l : list A) : list A :=
  match l with
  | [] => [x]
  | y :: l' =>
      if ltb (key y) (key x) then y :: insert_sorted x l'
      else x :: y :: l'
  end.

Definition sort_ascending (l : list A) : list A :=
  foldr insert_sorted [] l.

(** With [reverse=True] the list is reversed, sorted, and reversed
    again, which keeps the sort stable. *)
Definition sorted (reversed : bool) (l : list A) : list A :=
  if reversed then reverse (sort_ascending (reverse l)) else sort_ascending l.
End Sort.

End Py.

Import Py.
Coercion Py.lit : string >-> list.

(** ** The article record *)

Record source_info := Source { name : option str }.

Record article := Article {
  title : option str;
  description : option str;
  content : option str;
  url : option str;
  urlToImage : option str;
  publishedAt : option str;
  published_date : option str;
  source : option source_info;
  has_full_content : option bool;
  author : option str;
  saved_at : option str
}.

(** ** bookmarking.py *)

Module Bookmarking.

(** [BookmarkManager]: the list [self.bookmarks].  The file the list is
    written to is logged as the list of saved snapshots. *)
Record manager := Manager {
  bookmarks : list article;
  saved : list (list article)
}.

Definition save_bookmarks (m : manager) : manager :=
  {| bookmarks := bookmarks m; saved := bookmarks m :: saved m |}.

(** The loop of [add_bookmark]: is there a bookmark with the url?
    [d.get('url')] has no default: an absent key gives [None], and
    [None == None] holds. *)
Fixpoint already_bookmarked (bs : list article) (a : article) : bool :=
  match bs with
  | [] => false
  | bookmark :: bs' =>
      if bool_decide (url bookmark = url a) then true
      else already_bookmarked bs' a
  end.

Definition new_bookmark (now : str) (a : article) : article :=
  {| title := Some (get (title a) ("No Title" : str));
     description := Some (get (description a) []);
     content := Some (get (content a) []);
     url := Some (get (url a) []);
     urlToImage := Some (get (urlToImage a) []);
     publishedAt := Some (get (publishedAt a) []);
     published_date := None;
     source := Some (get (source a) (Source None));
     has_full_content := None;
     author := None;
     saved_at := Some now |}.

(** [add_bookmark(article)]; [now] is [datetime.now().isoformat()]. *)
Definition add_bookmark (now : str) (a : article) (m : manager)
  : bool * manager :=
  if already_bookmarked (bookmarks m) a then (false, m)
  else
    (true,
     save_bookmarks
       {| bookmarks := new_bookmark now a :: bookmarks m;
          saved := saved m |}).

(** [remove_bookmark(url)] and [is_bookmarked(url)]: the callers pass
    [article.get('url')], so [url] is a string or [None]; an absent key of
    a bookmark compares equal to [None]. *)
Definition remove_bookmark (u : option str) (m : manager) : manager :=
  save_bookmarks
    {| bookmarks := filter (λ b, url b ≠ u) (bookmarks m);
       saved := saved m |}.

Definition get_bookmarks (m : manager) : list article := bookmarks m.

Definition is_bookmarked (u : option str) (m : manager) : bool :=
  existsb (λ b, bool_decide (url b = u)) (bookmarks m).

Definition clear_all_bookmarks (m : manager) : manager :=
  save_bookmarks {| bookmarks := []; saved := saved m |}.

Definition get_bookmark_count (m : manager) : Z := len (bookmarks m).

(** [load_bookmarks]: the file is absent, or [json.load] raises on it, or
    it holds a list. *)
Definition load_bookmarks (file : option (outcome (list article)))
  : list article :=
  match file with
  | Some (Returned stored) => stored
  | Some Raised => []
  | None => []
  end.

(** [BookmarkManager.__init__]. *)
Definition init (file : option (outcome (list article))) : manager :=
  {| bookmarks := load_bookmarks file; saved := [] |}.

End Bookmarking.

(** ** news_fetcher.py *)

Module NewsFetcher.

(** The JSON bodies of the two services, as far as the adapters read
    them.  An absent key is [None]. *)
Module Guardian.
Record fields_t := Fields {
  trailText : option str;
  bodyText : option str;
  shortUrl : option str;
  thumbnail : option str
}.
Record item := Item {
  webTitle : option str;
  fields : option fields_t;
  webUrl : option str;
  webPublicationDate : option str
}.
Record response_t := Response { results : option (list item) }.
Record data := Data { response : option response_t }.
End Guardian.

Module NewsApi.
Record item := Item {
  title : option str;
  description : option str;
  content : option str;
  url : option str;
  urlToImage : option str;
  publishedAt : option str;
  source : option source_info
}.
Record data := Data { articles : option (list item) }.
End NewsApi.

Inductive json :=
| GuardianBody (d : Guardian.data)
| NewsApiBody (d : NewsApi.data).

(** A body of the other shape has none of the keys an adapter reads. *)
Definition as_guardian (j : json) : Guardian.data :=
  match j with
  | GuardianBody d => d
  | NewsApiBody _ => Guardian.Data None
  end.

Definition as_newsapi (j : json) : NewsApi.data :=
  match j with
  | NewsApiBody d => d
  | GuardianBody _ => NewsApi.Data None
  end.

(** [requests.get(url, params=params, timeout=10)], then
    [raise_for_status()] and [json()]: the network answers a request with
    a parsed body or the call raises.  Every request made is logged. *)
Inductive param := PStr (s : str) | PInt (n : Z).

Record request := Request {
  req_url : str;
  req_params : list (string * param);
  req_timeout : Z
}.

Definition network := request → outcome json.

Definition M (A : Type) : Type := list request → outcome A * list request.

#[export] Instance M_ret : MRet M := λ A a log, (Returned a, log).

#[export] Instance M_bind : MBind M := λ A B k m log,
  match m log with
  | (Returned a, log') => k a log'
  | (Raised, log') => (Raised, log')
  end.

Definition http_get (net : network) (r : request) : M json :=
  λ log, (net r, log ++ [r]).

(** [NewsSourceFetcher.__init__]: the keys come from the environment. *)
Record fetcher := Fetcher {
  newsapi_key : option str;
  guardian_key : str
}.

Definition init (environ : gmap string str) : fetcher :=
  {| newsapi_key := environ !! "NEWS_API_KEY"%string;
     guardian_key := get (environ !! "GUARDIAN_API_KEY"%string) ("test" : str) |}.

Definition guardian_article (item : Guardian.item) : article :=
  let fields := get (Guardian.fields item) (Guardian.Fields None None None None) in
  {| title := Some (get (Guardian.webTitle item) ("No Title" : str));
     description :=
       Some (get (Guardian.trailText fields) ("No description available" : str));
     content := Some (get (Guardian.bodyText fields) []);
     url :=
       Some (get (Guardian.shortUrl fields) (get (Guardian.webUrl item) []));
     urlToImage := Some (get (Guardian.thumbnail fields) []);
     publishedAt := Some (get (Guardian.webPublicationDate item) []);
     published_date := None;
     source := Some (Source (Some ("The Guardian" : str)));
     has_full_content := Some true;
     author := None;
     saved_at := None |}.

Definition _fetch_from_guardian (self : fetcher) (net : network)
    (query : str) (max_articles : Z) : M (list article) :=
  data ← http_get net
    {| req_url := "https://content.guardianapis.com/search";
       req_params :=
         [("q"%string, PStr query);
          ("show-fields"%string, PStr "bodyText,thumbnail,shortUrl,trailText");
          ("page-size"%string, PInt (Z.min max_articles 50));
          ("order-by"%string, PStr "newest");
          ("api-key"%string, PStr (guardian_key self))];
       req_timeout := 10 |};
  mret (map guardian_article
         (get (Guardian.results
                 (get (Guardian.response (as_guardian data))
                      (Guardian.Response None)))
              [])).

Definition newsapi_article (item : NewsApi.item) : article :=
  {| title := Some (get (NewsApi.title item) ("No Title" : str));
     description :=
       Some (get (NewsApi.description item) ("No description available" : str));
     content := Some (get (NewsApi.content item) []);
     url := Some (get (NewsApi.url item) []);
     urlToImage := Some (get (NewsApi.urlToImage item) []);
     publishedAt := Some (get (NewsApi.publishedAt item) []);
     published_date := None;
     source := Some (get (NewsApi.source item) (Source None));
     has_full_content := Some false;
     author := None;
     saved_at := None |}.

(** [if not self.newsapi_key]: no key, or an empty one. *)
Definition _fetch_from_newsapi (self : fetcher) (net : network)
    (query : str) (max_articles : Z) : M (list article) :=
  match newsapi_key self with
  | None | Some [] => mret []
  | Some (c :: key) =>
      data ← http_get net
        {| req_url := "https://newsapi.org/v2/everything";
           req_params :=
             [("q"%string, PStr query);
              ("sortBy"%string, PStr "publishedAt");
              ("pageSize"%string, PInt max_articles);
              ("apiKey"%string, PStr (c :: key));
              ("language"%string, PStr "en")];
           req_timeout := 10 |};
      mret (map newsapi_article (get (NewsApi.articles (as_newsapi data)) []))
  end.

(** The loop over the sources: a source that raises is skipped, an empty
    result adds nothing, and the loop stops once [max_articles] articles
    are held. *)
Fixpoint try_sources (sources : list (M (list article)))
    (max_articles : Z) (articles : list article)
    (log : list request) : list article * list request :=
  match sources with
  | [] => (articles, log)
  | fetch_method :: sources' =>
      match fetch_method log with
      | (Returned [], log') =>
          try_sources sources' max_articles articles log'
      | (Returned fetched, log') =>
          let articles := articles ++ fetched in
          if len articles >=? max_articles then (articles, log')
          else try_sources sources' max_articles articles log'
      | (Raised, log') =>
          try_sources sources' max_articles articles log'
      end
  end.

(** The loop that removes duplicates: the state is [seen_titles] and
    [unique_articles]. *)
Definition keep_unique (state : gset str * list article) (a : article)
  : gset str * list article :=
  let '(seen_titles, unique_articles) := state in
  let title := get (title a) [] in
  if truthy title && bool_decide (title ∉ seen_titles)
  then ({[title]} ∪ seen_titles, unique_articles ++ [a])
  else (seen_titles, unique_articles).

Definition unique_articles (articles : list article) : list article :=
  (foldl keep_unique (∅, []) articles).2.

Definition fetch_news (self : fetcher) (net : network)
    (query : str) (max_articles : Z)
    (log : list request) : list article * list request :=
  let '(articles, log') :=
    try_sources
      [_fetch_from_guardian self net query max_articles;
       _fetch_from_newsapi self net query max_articles]
      max_articles [] log in
  (slice_to (unique_articles articles) max_articles, log').

(** [get_article_preview] and [ArticleReader.get_full_text]: the readers
    of [has_full_content] test the content as well. *)
Definition get_article_preview (a : article) (max_length : Z) : str :=
  if get (has_full_content a) false && truthy (get (content a) []) then
    let content := get (content a) [] in
    if len content >? max_length
    then slice_to content max_length ++ "..."
    else content
  else
    let description := get (description a) [] in
    if len description >? max_length
    then slice_to description max_length ++ "..."
    else description.

Definition has_full_article (a : article) : bool :=
  get (has_full_content a) false.

Definition get_full_text (a : article) : bool * str :=
  if get (has_full_content a) false && truthy (get (content a) [])
  then (true, get (content a) [])
  else (false,
        lit "Full article not available. Click 'Open in Browser' to read more.").

End NewsFetcher.

(** ** rss_fetcher.py *)

Module RssFetcher.

(** [self.rss_feeds], in the order of the dict. *)
Definition rss_feeds : list (str * list str) :=
  [(lit "bbc",
    [lit "http://feeds.bbci.co.uk/news/rss.xml";
     lit "http://feeds.bbci.co.uk/news/technology/rss.xml";
     lit "http://feeds.bbci.co.uk/news/science_and_environment/rss.xml";
     lit "http://feeds.bbci.co.uk/news/business/rss.xml"]);
   (lit "npr",
    [lit "https://feeds.npr.org/1001/rss.xml";
     lit "https://feeds.npr.org/1019/rss.xml";
     lit "https://feeds.npr.org/1007/rss.xml"]);
   (lit "reuters",
    [lit "https://www.reutersagency.com/feed/?taxonomy=best-topics&post_type=best"]);
   (lit "techcrunch", [lit "https://techcrunch.com/feed/"]);
   (lit "sciencedaily", [lit "https://www.sciencedaily.com/rss/all.xml"]);
   (lit "mit_news", [lit "https://news.mit.edu/rss/feed"])].

Section FetchNews.

(** [self.fetch_from_source(source_name, feeds, query, max_results)]
    reads the feeds with [feedparser] and cleans them with
    [BeautifulSoup]; what it returns, or that it raises, is given. *)
Variable fetch_from_source :
  str → list str → str → Z → outcome (list article).

(** The loop over the feed sources. *)
Fixpoint gather (sources : list (str * list str)) (query : str)
    (max_results : Z) (all_articles : list article) : list article :=
  match sources with
  | [] => all_articles
  | (source_name, feeds) :: sources' =>
      match fetch_from_source source_name feeds query max_results with
      | Returned articles =>
          let all_articles := all_articles ++ articles in
          if len all_articles >=? max_results then all_articles
          else gather sources' query max_results all_articles
      | Raised => gather sources' query max_results all_articles
      end
  end.

(** The sort key: [x.get('published_date', '')]. *)
Definition date_key (x : article) : str := get (published_date x) [].

Definition fetch_news (query : str) (max_results : Z) : list article :=
  let all_articles := gather rss_feeds query max_results [] in
  let all_articles := sorted str_ltb date_key true all_articles in
  slice_to all_articles max_results.

End FetchNews.

End RssFetcher.

(** ** rss_fetcher.py: from a feed to articles *)

(** An entry of a parsed feed, a [FeedParserDict]: the keys the fetcher
    reads. *)
Module Feed.

Record content_item := ContentItem { value : option str }.

Record media := Media { url : option str }.

Record enclosure := Enclosure { type : option str; href : option str }.

Record entry := Entry {
  title : option str;
  summary : option str;
  description : option str;
  content : option (list content_item);
  link : option str;
  published : option str;
  updated : option str;
  author : option str;
  media_content : option (list media);
  media_thumbnail : option (list media);
  enclosures : option (list enclosure)
}.

End Feed.

Module RssSource.

Section Parsers.

(** What the libraries give: the entries [feedparser.parse(feed_url)]
    finds, or that it raises; the text [BeautifulSoup(html,
    'html.parser').get_text(separator=' ')] extracts; and the ISO time the
    [try] of [parse_date] computes for a date [feedparser] can parse
    ([None] for a date it cannot parse, [Raised] for an exception). *)
Variable parse : str → outcome (list Feed.entry).
Variable get_text : str → str.
Variable parsed_isoformat : str → outcome (option str).

Definition query_matches (query text : str) : bool :=
  let query_words := split query in
  let matches := len (filter (λ word, contains text word = true) query_words) in
  (* [matches >= len(query_words) * 0.5]: the product is exact *)
  2 * matches >=? len query_words.

Definition clean_html (html_text : str) : str :=
  if negb (truthy html_text) then []
  else
    let text := get_text html_text in
    let text := sub_spaces false text in
    strip text.

Definition extract_content (entry : Feed.entry) : outcome str :=
  match get (Feed.content entry) [Feed.ContentItem None] with
  | [] => Raised
  | first :: _ =>
      let content := get (Feed.value first) [] in
      let content :=
        if negb (truthy content) then get (Feed.summary entry) [] else content in
      let content :=
        if negb (truthy content) then get (Feed.description entry) []
        else content in
      Returned (clean_html content)
  end.

(** [media[0].get('url', '')]. *)
Definition first_url (media : list Feed.media) : outcome str :=
  match media with
  | [] => Raised
  | first :: _ => Returned (get (Feed.url first) [])
  end.

Fixpoint image_enclosure (enclosures : list Feed.enclosure) : str :=
  match enclosures with
  | [] => []
  | enc :: enclosures' =>
      if contains (get (Feed.type enc) []) "image"
      then get (Feed.href enc) []
      else image_enclosure enclosures'
  end.

Definition extract_image (entry : Feed.entry) : outcome str :=
  match Feed.media_content entry with
  | Some media => first_url media
  | None =>
      match Feed.media_thumbnail entry with
      | Some media => first_url media
      | None =>
          match Feed.enclosures entry with
          | Some enclosures => Returned (image_enclosure enclosures)
          | None => Returned []
          end
      end
  end.

Definition parse_date (date_str : str) : str :=
  match parsed_isoformat date_str with
  | Returned (Some iso) => iso
  | Returned None | Raised => date_str
  end.

(** [parse_entry]: [None] when building the article raises. *)
Definition parse_entry (entry : Feed.entry) (source_name : str)
    : option article :=
  match extract_content entry with
  | Raised => None
  | Returned content =>
      let published :=
        get (Feed.published entry) (get (Feed.updated entry) []) in
      let published_date := parse_date published in
      match extract_image entry with
      | Raised => None
      | Returned image =>
          Some {| title := Some (get (Feed.title entry) ("No Title" : str));
                  description :=
                    Some (clean_html (get (Feed.summary entry) []));
                  content := Some content;
                  url := Some (get (Feed.link entry) []);
                  urlToImage := Some image;
                  publishedAt := Some published;
                  published_date := Some published_date;
                  source := Some (Source (Some (upper source_name)));
                  has_full_content := None;
                  author := Some (get (Feed.author entry) source_name);
                  saved_at := None |}
      end
  end.

(** The test an entry passes to be parsed. *)
Definition entry_matches (query_lower : str) (entry : Feed.entry) : bool :=
  let title := lower (get (Feed.title entry) []) in
  let summary := lower (get (Feed.summary entry) []) in
  contains title query_lower || contains summary query_lower
  || query_matches query_lower (title ++ " " ++ summary).

(** The loop over the entries of one feed. *)
Definition feed_articles (source_name query_lower : str)
    (entries : list Feed.entry) : list article :=
  omap (λ entry,
          if entry_matches query_lower entry
          then parse_entry entry source_name else None)
       entries.

(** The loop over the feeds of a source; a feed that cannot be parsed is
    passed over. *)
Fixpoint fetch_feeds (source_name : str) (feeds : list str)
    (query_lower : str) (max_results : Z) (articles : list article)
    : list article :=
  match feeds with
  | [] => articles
  | feed_url :: feeds' =>
      match parse feed_url with
      | Raised => fetch_feeds source_name feeds' query_lower max_results articles
      | Returned entries =>
          let articles :=
            articles
            ++ feed_articles source_name query_lower
                 (slice_to entries max_results) in
          if len articles >=? max_results then articles
          else fetch_feeds source_name feeds' query_lower max_results articles
      end
  end.

Definition fetch_from_source (source_name : str) (feeds : list str)
    (query : str) (max_results : Z) : list article :=
  let query_lower := lower query in
  fetch_feeds source_name feeds query_lower max_results [].

(** [RSSNewsFetcher.fetch_news] with this [fetch_from_source]. *)
Definition fetch_news (query : str) (max_results : Z) : list article :=
  RssFetcher.fetch_news
    (λ source_name feeds query max_results,
       Returned (fetch_from_source source_name feeds query max_results))
    query max_results.

End Parsers.

End RssSource.

(** ** tutorial_links.py *)

Module TutorialLinks.

Definition educational_keywords : list str :=
  lit <$>
  ["learn"; "tutorial"; "course"; "education"; "study"; "training";
   "guide"; "teaching"; "lesson"; "university"; "college"; "school";
   "research"; "science"; "technology"; "programming"; "coding";
   "development"; "engineering"; "mathematics"; "physics"; "chemistry";
   "biology"; "history"; "language"; "skill"; "knowledge"]%string.

(** The body of the loop over the keywords. *)
Definition add_keyword_score (title full_text : str)
    (educational_score : Z) (keyword : str) : Z :=
  if contains full_text keyword then
    if contains title keyword then educational_score + 2
    else educational_score + 1
  else educational_score.

Definition educational_score_of (a : article) : Z :=
  let title := lower (get (title a) []) in
  let description := lower (get (description a) []) in
  let content := lower (get (content a) []) in
  let full_text := title ++ " " ++ description ++ " " ++ content in
  foldl (add_keyword_score title full_text) 0 educational_keywords.

Definition should_show_learn_button (a : article) : bool :=
  if educational_score_of a >=? 2 then true else false.

Inductive topic := programming | science | technology | general.

Definition any_in (text : str) (words : list string) : bool :=
  existsb (λ word, contains text (lit word)) words.

Definition detect_topic (title description : str) : topic :=
  let text := lower (title ++ " " ++ description) in
  if any_in text ["python"; "javascript"; "java"; "code"; "programming"]%string
  then programming
  else if any_in text ["physics"; "chemistry"; "biology"; "science"]%string
  then science
  else if any_in text ["ai"; "machine learning"; "technology"; "computer"]%string
  then technology
  else general.

(** [extract_key_terms]: [key_words] is the list of that name.  The words
    are those of a title of ASCII characters: Python's [\w] and [lower]
    know the letters beyond that range, and this embedding does not. *)
Definition stop_words : list str :=
  lit <$> ["the"; "a"; "an"; "and"; "or"; "but"; "in"; "on"; "at"; "to";
           "for"]%string.

Definition key_words (title : str) : list str :=
  let words := findall_words (lower title) in
  filter (λ w, (w ∉ stop_words) ∧ len w > 3) words.

Definition extract_key_terms (title : str) : str :=
  join " " (slice_to (key_words title) 3).

(** [get_tutorial_link]: the topic is detected and not used. *)
Definition get_tutorial_link (a : article) : str :=
  let title := get (title a) [] in
  let description := get (description a) [] in
  let topic := detect_topic title description in
  let search_query := extract_key_terms title in
  let youtube_search :=
    "https://www.youtube.com/results?search_query="
    ++ quote_plus (search_query ++ " tutorial") in
  youtube_search.

Definition get_coursera_link (topic : str) : str :=
  "https://www.coursera.org/search?query=" ++ quote_plus topic.

Definition get_khan_academy_link (topic : str) : str :=
  "https://www.khanacademy.org/search?page_search_query=" ++ quote_plus topic.

Definition get_youtube_playlist (topic : str) : str :=
  "https://www.youtube.com/results?search_query="
  ++ quote_plus (topic ++ " full course") ++ "&sp=EgIQAw%253D%253D".

End TutorialLinks.

(** ** summarization.py *)

Module Summarization.

Definition stop_words : list str :=
  lit <$>
  ["the"; "a"; "an"; "and"; "or"; "but"; "in"; "on"; "at"; "to"; "for";
   "of"; "with"; "by"; "from"; "as"; "is"; "was"; "are"; "been"; "be";
   "have"; "has"; "had"; "do"; "does"; "did"; "will"; "would"; "should";
   "could"; "may"; "might"; "must"; "can"; "this"; "that"; "these"; "those";
   "i"; "you"; "he"; "she"; "it"; "we"; "they"; "what"; "which"; "who";
   "when"; "where"; "why"; "how"; "all"; "each"; "every"; "both"; "few";
   "more"; "most"; "other"; "some"; "such"; "no"; "nor"; "not"; "only";
   "own"; "same"; "so"; "than"; "too"; "very"; "just"; "said"; "says"]%string.

Definition important_keywords : list str :=
  lit <$>
  ["new"; "research"; "study"; "discover"; "found"; "reveal"; "show";
   "develop"; "create"; "build"; "launch"; "announce"; "release";
   "important"; "significant"; "major"; "breakthrough"; "innovation";
   "first"; "latest"; "update"; "improve"; "advance"; "technology"]%string.

(** [re.split(r'[.!?]+', text)]: the text between the maximal runs of
    sentence ends; [piece] is the piece being read, last character
    first, and [in_run] says that the previous character ended one. *)
Definition is_sentence_end (c : ascii) : bool :=
  bool_decide (c ∈ ["."; "!"; "?"]%char).

Fixpoint re_split (piece : str) (in_run : bool) (text : str) : list str :=
  match text with
  | [] => [rev piece]
  | c :: text' =>
      if is_sentence_end c then
        if in_run then re_split [] true text'
        else rev piece :: re_split [] true text'
      else re_split (c :: piece) false text'
  end.

Definition split_into_sentences (text : str) : list str :=
  let sentences := re_split [] false text in
  filter (λ sent, 20 < len sent ∧ len sent < 300) (strip <$> sentences).

(** [re.sub(r'[^\w\s]', ' ', text)], then [lower().split()] and the
    filter on short words and numbers. *)
Definition tokenize (text : str) : list str :=
  let text :=
    map (λ c, if is_word_char c || is_space c then c else " "%char) text in
  let words := split (lower text) in
  filter (λ w, 2 < len w ∧ isdigit w = false) words.

(** [Counter(all_words)]. *)
Definition counter (words : list str) : gmap str Z :=
  foldl (λ freq w, <[w := get (freq !! w) 0 + 1]> freq) ∅ words.

(** The body of the loop that doubles the important keywords. *)
Definition boost (word_freq : gmap str Z) (word : str) : gmap str Z :=
  match word_freq !! word with
  | Some freq => <[word := freq * 2]> word_freq
  | None => word_freq
  end.

Definition word_frequencies (sentences : list str) : gmap str Z :=
  let all_words := sentences ≫= tokenize in
  let word_freq := counter all_words in
  let word_freq :=
    filter (λ '(word, freq),
              lower word ∉ stop_words ∨ lower word ∈ important_keywords)
           word_freq in
  foldl boost word_freq important_keywords.

(** The body of the loop that scores the sentences: nothing for a
    sentence without words. *)
Definition score_sentence (word_freq : gmap str Z) (title_words : list str)
    (i : nat) (sentence : str) : option (str * float) :=
  let words := tokenize sentence in
  if len words =? 0 then None
  else
    let total := foldr Z.add 0 ((λ word, get (word_freq !! word) 0) <$> words) in
    let base_score := (float_of_int total / float_of_int (len words))%float in
    let position_bonus := if (i <? 3)%nat then 1.0%float else 0.5%float in
    let title_overlap :=
      len (filter (λ w, w ∈ title_words) (remove_dups words)) in
    let title_bonus := (float_of_int title_overlap * 0.5)%float in
    let length_penalty :=
      if len words <? 5 then 0.5%float
      else if len words >? 40 then 0.7%float
      else 1.0%float in
    let keywords :=
      len (filter (λ word, lower word ∈ important_keywords) words) in
    let keyword_bonus := (float_of_int keywords * 0.3)%float in
    let final_score :=
      ((base_score + position_bonus + title_bonus + keyword_bonus)
       * length_penalty)%float in
    Some (sentence, final_score).

Definition score_sentences_advanced (sentences : list str) (title : str)
  : list (str * float) :=
  let word_freq := word_frequencies sentences in
  let title_words := tokenize title in
  omap id (imap (score_sentence word_freq title_words) sentences).

Definition summarize (a : article) (max_sentences max_length : Z) : str :=
  let title := get (title a) [] in
  let description := get (description a) [] in
  let content := get (content a) [] in
  let full_text := title ++ ". " ++ description ++ ". " ++ content in
  if len full_text <? 100 then
    if len full_text >? max_length
    then slice_to full_text max_length ++ "..."
    else full_text
  else
    let sentences := split_into_sentences full_text in
    if len sentences =? 0 then
      if len description >? max_length
      then slice_to description max_length ++ "..."
      else description
    else if len sentences <=? max_sentences then
      let summary := join " " sentences in
      if len summary >? max_length
      then slice_to summary max_length ++ "..."
      else summary
    else
      let scored_sentences := score_sentences_advanced sentences title in
      let top_sentences :=
        slice_to (sorted PrimFloat.ltb snd true scored_sentences)
                 max_sentences in
      let top_sentences :=
        sorted Nat.ltb (λ x, index sentences x.1) false top_sentences in
      let summary := join " " (fst <$> top_sentences) in
      if len summary >? max_length
      then rsplit_head (slice_to summary max_length) ++ "..."
      else summary.

(** [get_key_phrases]: the pairs of neighbouring words whose first word is
    no stop word, counted by a [Counter], and the [num_phrases] most
    common of them. *)
Fixpoint bigrams (words : list str) : list str :=
  match words with
  | w :: (w' :: _) as rest =>
      (if bool_decide (w ∈ stop_words) then [] else [w ++ " " ++ w'])
      ++ bigrams rest
  | _ => []
  end.

(** [Counter(items)]: the counts, in the order in which the items were
    first met. *)
Fixpoint count_one (counts : list (str * Z)) (item : str) : list (str * Z) :=
  match counts with
  | [] => [(item, 1)]
  | (x, n) :: counts' =>
      if bool_decide (x = item) then (x, n + 1) :: counts'
      else (x, n) :: count_one counts' item
  end.

Definition counted (items : list str) : list (str * Z) :=
  foldl count_one [] items.

(** [most_common(n)] is [heapq.nlargest(n, items, key=count)]: nothing for
    [n <= 0], and otherwise the first [n] of the items sorted on their
    count, largest first, equal counts in the order of the counter. *)
Definition most_common (n : Z) (counts : list (str * Z)) : list (str * Z) :=
  if n <=? 0 then [] else take (Z.to_nat n) (sorted Z.ltb snd true counts).

Definition get_key_phrases (a : article) (num_phrases : Z) : list str :=
  let content :=
    get (title a) [] ++ " " ++ get (description a) [] ++ " "
    ++ get (content a) [] in
  let words := tokenize content in
  let phrases := bigrams words in
  let phrase_freq := counted phrases in
  fst <$> most_common num_phrases phrase_freq.

End Summarization.

(** ** cache_manager.py *)

Module CacheManager.

(** The file [cache.json] when it can be read as JSON: a time is an
    instant in microseconds, the resolution of [datetime]; [timestamp] is
    [None] when the key is missing or is no ISO time, and the other keys
    are [None] when missing. *)
Record cache_data := CacheData {
  timestamp : option Z;
  metadata : option (list (str * str));
  articles : option (list article)
}.

(** The file: [None] when there is none, [Raised] when reading it
    raises. *)
Definition cache_file := option (outcome cache_data).

Record manager := Manager { cache_duration : Z }.

Definition hour : Z := 3600 * 1000000.

(** [CacheManager(cache_duration_hours=6)]. *)
Definition init (cache_duration_hours : Z) : manager :=
  {| cache_duration := cache_duration_hours * hour |}.

(** [save_cache]: [writable] says whether the file can be opened for
    writing; the result, and the file afterwards. *)
Definition save_cache (self : manager) (now : Z) (writable : bool)
    (articles : list article) (metadata : option (list (str * str)))
    (file : cache_file) : bool * cache_file :=
  if writable then
    let cache_data :=
      {| timestamp := Some now;
         metadata := Some (get metadata []);
         articles := Some articles |} in
    (true, Some (Returned cache_data))
  else (false, file).

Definition load_cache (self : manager) (now : Z) (file : cache_file)
    : option (list article) :=
  match file with
  | None => None
  | Some Raised => None
  | Some (Returned cache_data) =>
      match timestamp cache_data with
      | None => None
      | Some cache_time =>
          let age := now - cache_time in
          if age >? cache_duration self then None
          else Some (get (articles cache_data) [])
      end
  end.

(** [clear_cache]: [removable] says whether the file can be removed; the
    result is [True], [False], or the [None] of a function that ends
    without [return]. *)
Definition clear_cache (self : manager) (removable : bool) (file : cache_file)
    : option bool * cache_file :=
  match file with
  | None => (None, file)
  | Some _ => if removable then (Some true, None) else (Some false, file)
  end.

Definition is_cache_valid (self : manager) (now : Z) (file : cache_file) : bool :=
  match file with
  | None => false
  | Some Raised => false
  | Some (Returned cache_data) =>
      match timestamp cache_data with
      | None => false
      | Some cache_time =>
          let age := now - cache_time in
          age <=? cache_duration self
      end
  end.

End CacheManager.

(** ** notifications.py *)

Module Notifications.

Inductive reminder := morning | evening.

#[global] Instance reminder_eq_dec : EqDecision reminder.
Proof. solve_decision. Defined.

(** A reading of the clock, and [now.strftime("%H:%M")]. *)
Record clock := Clock { hours : nat; minutes : nat }.

Definition two_digits (n : nat) : str :=
  [ascii_of_nat (48 + n / 10); ascii_of_nat (48 + n mod 10)].

Definition strftime (now : clock) : str :=
  two_digits (hours now) ++ ":" ++ two_digits (minutes now).

Definition morning_time : str := "07:00".
Definition evening_time : str := "21:00".

(** [a >= b] on strings. *)
Definition str_geb (a b : str) : bool := negb (str_ltb a b).

(** The local variables of [_notification_scheduler]. *)
Record flags := Flags { morning_sent_today : bool; evening_sent_today : bool }.

#[global] Instance flags_eq_dec : EqDecision flags.
Proof. solve_decision. Defined.

(** One turn of the loop of [_notification_scheduler], with
    notifications enabled: the reminders it sends, in order, and the flags
    afterwards. *)
Definition scheduler_turn (f : flags) (now : clock) : list reminder * flags :=
  let current_time := strftime now in
  let '(sent1, morning_sent_today) :=
    if str_geb current_time morning_time && negb (morning_sent_today f)
    then ([morning], true) else ([], morning_sent_today f) in
  let '(sent2, evening_sent_today) :=
    if str_geb current_time evening_time && negb (evening_sent_today f)
    then ([evening], true) else ([], evening_sent_today f) in
  let '(morning_sent_today, evening_sent_today) :=
    if bool_decide (current_time = lit "00:00") then (false, false)
    else (morning_sent_today, evening_sent_today) in
  (sent1 ++ sent2,
   {| morning_sent_today := morning_sent_today;
      evening_sent_today := evening_sent_today |}).

(** The loop, over the readings of the clock of its turns. *)
Fixpoint scheduler_turns (f : flags) (readings : list clock)
    : list reminder * flags :=
  match readings with
  | [] => ([], f)
  | now :: readings' =>
      let '(sent, f') := scheduler_turn f now in
      let '(sent', f'') := scheduler_turns f' readings' in
      (sent ++ sent', f'')
  end.

Definition _notification_scheduler (readings : list clock) : list reminder :=
  (scheduler_turns {| morning_sent_today := false; evening_sent_today := false |}
     readings).1.

End Notifications.

(** ** main.py *)

Module Main.

(** The text a bookmark button shows. *)
Inductive button_text := star | check_mark.

(** [NewsScreen.toggle_bookmark(article, button)]: the new text of the
    button and the manager afterwards. *)
Definition toggle_bookmark (now : str) (a : article) (m : Bookmarking.manager)
  : button_text * Bookmarking.manager :=
  if Bookmarking.is_bookmarked (url a) m
  then (star, Bookmarking.remove_bookmark (url a) m)
  else (check_mark, (Bookmarking.add_bookmark now a m).2).

(** The news screen and the bookmarks screen each build a
    [BookmarkManager] of their own, on the one file [bookmarks.json]; a
    manager reads the file when it is built and writes it at each save. *)
Record screens := Screens {
  bookmarks_file : option (outcome (list article));
  news_manager : Bookmarking.manager;
  bookmarks_manager : Bookmarking.manager
}.

Definition start (file : option (outcome (list article))) : screens :=
  {| bookmarks_file := file;
     news_manager := Bookmarking.init file;
     bookmarks_manager := Bookmarking.init file |}.

(** The file after an operation that took a manager from [before] to
    [after]: what the operation saved, if it saved. *)
Definition written (before after : Bookmarking.manager)
    (file : option (outcome (list article)))
  : option (outcome (list article)) :=
  if (length (Bookmarking.saved after) =? length (Bookmarking.saved before))%nat
  then file
  else Returned <$> head (Bookmarking.saved after).

(** A press on the bookmark button of the news screen. *)
Definition press_bookmark (now : str) (a : article) (s : screens) : screens :=
  let m := (toggle_bookmark now a (news_manager s)).2 in
  {| bookmarks_file := written (news_manager s) m (bookmarks_file s);
     news_manager := m;
     bookmarks_manager := bookmarks_manager s |}.

(** [BookmarksScreen.delete_bookmark(bookmark)], and the list the screen
    shows afterwards. *)
Definition delete_bookmark (bookmark : article) (s : screens) : screens :=
  let m := Bookmarking.remove_bookmark (url bookmark) (bookmarks_manager s) in
  {| bookmarks_file := written (bookmarks_manager s) m (bookmarks_file s);
     news_manager := news_manager s;
     bookmarks_manager := m |}.

Definition shown_bookmarks (s : screens) : list article :=
  Bookmarking.get_bookmarks (bookmarks_manager s).

(** [get_user_field]: the file [user_preferences.json] is [None] when it
    is not there, [Raised] when it cannot be read, and else holds the
    value of its key [field], if it has the key. *)
Definition get_user_field (preferences : option (outcome (option str))) : str :=
  match preferences with
  | Some (Returned prefs) => get prefs ("technology" : str)
  | Some Raised | None => "technology"
  end.

Definition queries : list (str * str) :=
  [(lit "Artificial Intelligence",
    lit "artificial intelligence OR AI OR machine learning");
   (lit "Finance & Economics",
    lit "finance OR economics OR business OR stock market");
   (lit "Science & Research",
    lit "science OR research OR scientific discovery");
   (lit "Technology & Engineering",
    lit "technology OR engineering OR innovation");
   (lit "Health & Medicine",
    lit "health OR medicine OR medical research OR healthcare");
   (lit "Space & Astronomy",
    lit "space OR astronomy OR NASA OR space exploration");
   (lit "technology", lit "technology OR innovation")].

Definition get_search_query (field : str) : str :=
  get ((λ found, found.2.2) <$> list_find (λ kv, kv.1 = field) queries) field.

(** What the content area of the news screen shows: the cards of a list
    of articles, or a message. *)
Inductive content_layout :=
| Cards (articles : list article)
| Message (text : str).

Definition display_articles (articles : list article) : content_layout :=
  match articles with
  | [] => Message "No articles available"
  | _ :: _ => Cards articles
  end.

Section LoadNews.

(** [self.news_fetcher.fetch_news(query, max_results=20)]. *)
Variable fetch_news : str → Z → outcome (list article).

(** [load_news(force_refresh)]: what is shown in the end, and the cache
    file afterwards. *)
Definition load_news (self : CacheManager.manager) (force_refresh : bool)
    (preferences : option (outcome (option str))) (now : Z) (writable : bool)
    (file : CacheManager.cache_file) : content_layout * CacheManager.cache_file :=
  let field_category := get_user_field preferences in
  let from_network :=
    let query := get_search_query field_category in
    match fetch_news query 20 with
    | Returned [] =>
        (Message "No articles found. Try selecting a different field.", file)
    | Returned articles =>
        (display_articles articles,
         (CacheManager.save_cache self now writable articles
            (Some [(lit "field", field_category)]) file).2)
    | Raised =>
        (Message "Failed to load news. Check your internet connection.", file)
    end in
  if negb force_refresh then
    match CacheManager.load_cache self now file with
    | Some ((_ :: _) as cached_articles) =>
        (display_articles cached_articles, file)
    | Some [] | None => from_network
    end
  else from_network.

End LoadNews.

End Main.

(** * The specification's notions *)

Module Spec.

(** The title an article is deduplicated on: the empty string when the
    article has none. *)
Definition title_of (a : article) : str := get (title a) [].

(** First-seen deduplication, said on positions: an article is kept when
    its title is not empty and no article before it ([earlier], then the
    articles already passed) has the same title. *)
Fixpoint first_seen_from (earlier articles : list article) : list article :=
  match articles with
  | [] => []
  | a :: articles' =>
      (if decide (title_of a ≠ [] ∧ title_of a ∉ title_of <$> earlier)
       then [a] else [])
      ++ first_seen_from (earlier ++ [a]) articles'
  end.

Definition first_seen (articles : list article) : list article :=
  first_seen_from [] articles.

(** The first article of a list with a given title. *)
Definition first_with_title (t : str) (articles : list article)
  : option article :=
  snd <$> list_find (λ a, title_of a = t) articles.

(** The orders of a list sorted on a key: no element has a key less than
    the key of an element before it ([ascending]), or after it
    ([descending]). *)
Definition ascending {A K} (ltb : K → K → bool) (key : A → K) (a b : A) : Prop :=
  ltb (key b) (key a) = false.

Definition descending {A K} (ltb : K → K → bool) (key : A → K) (a b : A) : Prop :=
  ltb (key a) (key b) = false.

(** A well-formed [published_date] is what [parse_date] stores for a date
    it could parse: [datetime.isoformat()] of a time in whole seconds,
    [YYYY-MM-DDTHH:MM:SS]. *)
Record datetime := DateTime {
  year : nat; month : nat; day : nat;
  hour : nat; minute : nat; second : nat
}.

Definition valid_datetime (d : datetime) : Prop :=
  (1 ≤ year d < 10 ^ 4 ∧ 1 ≤ month d ≤ 12 ∧ 1 ≤ day d ≤ 31 ∧
   hour d < 24 ∧ minute d < 60 ∧ second d < 60)%nat.

Definition digit (n : nat) : ascii := ascii_of_nat (48 + n).

(** [n] in decimal, on [w] digits. *)
Fixpoint decimal (w n : nat) : str :=
  match w with
  | O => []
  | S w' => decimal w' (n / 10) ++ [digit (n mod 10)]
  end.

Definition isoformat (d : datetime) : str :=
  decimal 4 (year d) ++ "-" ++ decimal 2 (month d) ++ "-" ++ decimal 2 (day d)
  ++ "T" ++ decimal 2 (hour d) ++ ":" ++ decimal 2 (minute d)
  ++ ":" ++ decimal 2 (second d).

(** The order of time: the fields are compared from the year down. *)
Fixpoint fields_ltb (l k : list nat) : bool :=
  match l, k with
  | x :: l', y :: k' => (x <? y)%nat || ((x =? y)%nat && fields_ltb l' k')
  | _, _ => false
  end.

Definition datetime_fields (d : datetime) : list nat :=
  [year d; month d; day d; hour d; minute d; second d].

Definition before (d e : datetime) : Prop :=
  fields_ltb (datetime_fields d) (datetime_fields e) = true.

Definition well_formed_date (s : str) : Prop :=
  ∃ d, valid_datetime d ∧ s = isoformat d.

(** [s] and [t] are well-formed dates, and [s] is the later one. *)
Definition newer (s t : str) : Prop :=
  ∃ d e, valid_datetime d ∧ valid_datetime e ∧
         s = isoformat d ∧ t = isoformat e ∧ before e d.

(** What the aggregator does with the accumulated articles: [kept] is
    their first-seen deduplication, and the output [out] is the part of
    [kept] that fits the limit. *)
Definition deduplicated_then_truncated
    (articles : list article) (max_articles : Z) (out : list article) : Prop :=
  ∃ kept : list article,
    kept = first_seen articles ∧
    kept `sublist_of` articles ∧
    (∀ t, t ≠ [] → t ∈ title_of <$> articles →
       ∃ a, first_with_title t articles = Some a ∧
            filter (λ b, title_of b = t) kept = [a]) ∧
    (∀ a, a ∈ kept →
       title_of a ≠ [] ∧ first_with_title (title_of a) articles = Some a) ∧
    out `prefix_of` kept ∧
    (0 ≤ max_articles →
       out = take (Z.to_nat max_articles) kept ∧ len out ≤ max_articles) ∧
    (len kept ≤ max_articles → out = kept).

(** [sub] occurs in [s] as a substring. *)
Definition occurs_in (sub s : str) : Prop := ∃ pre post, s = pre ++ sub ++ post.

(** The educational score, keyword by keyword: a keyword that occurs in
    the text counts 2 when it occurs in the title and 1 otherwise; a
    keyword that does not occur counts nothing. *)
Inductive keyword_points (title full_text keyword : str) : Z → Prop :=
| points_title :
    occurs_in keyword full_text → occurs_in keyword title →
    keyword_points title full_text keyword 2
| points_elsewhere :
    occurs_in keyword full_text → ¬ occurs_in keyword title →
    keyword_points title full_text keyword 1
| points_absent :
    ¬ occurs_in keyword full_text →
    keyword_points title full_text keyword 0.

Inductive points_sum (title full_text : str) : list str → Z → Prop :=
| points_nil : points_sum title full_text [] 0
| points_cons keyword keywords p n :
    keyword_points title full_text keyword p →
    points_sum title full_text keywords n →
    points_sum title full_text (keyword :: keywords) (p + n).

(** The lowercased title, and the lowercased title, description and
    content put together, a space between them. *)
Definition lowered_title (a : article) : str := lower (get (title a) []).

Definition lowered_text (a : article) : str :=
  lower (get (title a) []) ++ " " ++ lower (get (description a) [])
  ++ " " ++ lower (get (content a) []).

Definition educational_score (a : article) (n : Z) : Prop :=
  points_sum (lowered_title a) (lowered_text a)
             TutorialLinks.educational_keywords n.

(** The text the summarizer works on. *)
Definition blob (a : article) : str :=
  get (title a) [] ++ ". " ++ get (description a) [] ++ ". "
  ++ get (content a) [].

(** A text cut to [max_length] characters, with the ellipsis marker when
    it was cut. *)
Definition ellipsis : str := "...".

Definition truncated (text : str) (max_length : Z) : str :=
  if len text >? max_length then slice_to text max_length ++ ellipsis
  else text.

(** The same, cut back to the last space before the limit. *)
Definition truncated_at_space (text : str) (max_length : Z) : str :=
  if len text >? max_length
  then rsplit_head (slice_to text max_length) ++ ellipsis
  else text.

(** The requests of the two adapters, and the results a Guardian body
    carries. *)
Definition guardian_request (self : NewsFetcher.fetcher) (query : str)
    (max_articles : Z) : NewsFetcher.request :=
  {| NewsFetcher.req_url := "https://content.guardianapis.com/search";
     NewsFetcher.req_params :=
       [("q"%string, NewsFetcher.PStr query);
        ("show-fields"%string,
         NewsFetcher.PStr "bodyText,thumbnail,shortUrl,trailText");
        ("page-size"%string, NewsFetcher.PInt (Z.min max_articles 50));
        ("order-by"%string, NewsFetcher.PStr "newest");
        ("api-key"%string, NewsFetcher.PStr (NewsFetcher.guardian_key self))];
     NewsFetcher.req_timeout := 10 |}.

Definition newsapi_request (key query : str) (max_articles : Z)
  : NewsFetcher.request :=
  {| NewsFetcher.req_url := "https://newsapi.org/v2/everything";
     NewsFetcher.req_params :=
       [("q"%string, NewsFetcher.PStr query);
        ("sortBy"%string, NewsFetcher.PStr "publishedAt");
        ("pageSize"%string, NewsFetcher.PInt max_articles);
        ("apiKey"%string, NewsFetcher.PStr key);
        ("language"%string, NewsFetcher.PStr "en")];
     NewsFetcher.req_timeout := 10 |}.

Definition guardian_results (body : NewsFetcher.json)
  : list NewsFetcher.Guardian.item :=
  get (NewsFetcher.Guardian.results
         (get (NewsFetcher.Guardian.response (NewsFetcher.as_guardian body))
              (NewsFetcher.Guardian.Response None)))
      [].

Definition newsapi_results (body : NewsFetcher.json)
  : list NewsFetcher.NewsApi.item :=
  get (NewsFetcher.NewsApi.articles (NewsFetcher.as_newsapi body)) [].

(** How often an item stands in a list, and two words standing next to
    each other in a list of words. *)
Definition occurrences (x : str) (items : list str) : Z :=
  len (filter (λ y, y = x) items).

Definition adjacent (w w' : str) (words : list str) : Prop :=
  ∃ before after, words = before ++ w :: w' :: after.

(** The count a counter holds for an item. *)
Fixpoint count_of (x : str) (counts : list (str * Z)) : Z :=
  match counts with
  | [] => 0
  | (y, n) :: counts' => if decide (y = x) then n else count_of x counts'
  end.

(** A text whose white space is single spaces between other characters. *)
Definition single_spaced (s : str) : Prop :=
  Forall (λ c, is_space c = true → c = " "%char) s
  ∧ ¬ occurs_in "  " s
  ∧ ∀ c, head s = Some c ∨ last s = Some c → is_space c = false.

(** What the first turn of the notification loop does at a time of the
    day, and what a turn does to flags that are set, as a test. *)
Definition turn_by_the_clock (h m : nat) : bool :=
  bool_decide
    ((Notifications.scheduler_turn (Notifications.Flags false false)
        (Notifications.Clock h m)).1
     = if (h <? 7)%nat then []
       else if (h <? 21)%nat then [Notifications.morning]
       else [Notifications.morning; Notifications.evening])
  && bool_decide
       ((Notifications.scheduler_turn (Notifications.Flags true true)
           (Notifications.Clock h m)).2
        = if ((h =? 0) && (m =? 0))%nat
          then Notifications.Flags false false
          else Notifications.Flags true true).

(** The text [get_key_phrases] reads. *)
Definition phrase_text (a : article) : str :=
  get (title a) [] ++ " " ++ get (description a) [] ++ " "
  ++ get (content a) [].

End Spec.

(** * Concrete inputs *)

Module Examples.
Import NewsFetcher.

Definition guardian_url : str := "https://content.guardianapis.com/search".

Definition guardian_item (t : string) (body : option str) : Guardian.item :=
  {| Guardian.webTitle := Some (lit t);
     Guardian.fields :=
       Some {| Guardian.trailText := None;
               Guardian.bodyText := body;
               Guardian.shortUrl := None;
               Guardian.thumbnail := None |};
     Guardian.webUrl := Some (lit "https://www.theguardian.com/x");
     Guardian.webPublicationDate := Some (lit "2024-05-01T10:00:00Z") |}.

Definition newsapi_item (t : string) : NewsApi.item :=
  {| NewsApi.title := Some (lit t);
     NewsApi.description := Some (lit "A short teaser");
     NewsApi.content := Some (lit "A snippet");
     NewsApi.url := Some (lit "https://example.org/story");
     NewsApi.urlToImage := None;
     NewsApi.publishedAt := Some (lit "2024-05-01T09:00:00Z");
     NewsApi.source := Some (Source (Some (lit "Example"))) |}.

(** A network on which the Guardian answers with one article and NewsAPI
    with two. *)
Definition one_then_two : network := λ r,
  if bool_decide (req_url r = guardian_url)
  then Returned (GuardianBody
         (Guardian.Data (Some (Guardian.Response (Some
            [guardian_item "Space Mission Launches" (Some (lit "Lift-off."))])))))
  else Returned (NewsApiBody
         (NewsApi.Data (Some
            [newsapi_item "Mars Rover Lands"; newsapi_item "Comet Passes Earth"]))).

Definition with_newsapi_key : fetcher :=
  {| newsapi_key := Some (lit "secret"); guardian_key := lit "test" |}.

(** A network on which the Guardian answers with one result that has no
    body text. *)
Definition no_body_text : network := λ r,
  Returned (GuardianBody
    (Guardian.Data (Some (Guardian.Response (Some
       [guardian_item "Live blog" None]))))).

(** Three feed articles with well-formed dates, not in order. *)
Definition dated (t : string) (d : Spec.datetime) : article :=
  {| title := Some (lit t);
     description := Some (lit "Summary");
     content := Some (lit "Body");
     url := Some (lit "https://example.org/feed-item");
     urlToImage := Some [];
     publishedAt := Some (lit "Wed, 01 May 2024 10:00:00 GMT");
     published_date := Some (Spec.isoformat d);
     source := Some (Source (Some (lit "BBC")));
     has_full_content := None;
     author := Some (lit "bbc");
     saved_at := None |}.

Definition may_first : Spec.datetime := Spec.DateTime 2024 5 1 10 0 0.
Definition april_last : Spec.datetime := Spec.DateTime 2024 4 30 23 59 59.
Definition may_second : Spec.datetime := Spec.DateTime 2024 5 2 8 30 0.

Definition feed_articles : list article :=
  [dated "Morning" may_first; dated "Last night" april_last;
   dated "Next day" may_second].

(** The article of the specification's scenario, with a body of six
    sentences. *)
Definition medicine : article :=
  {| title := Some (lit "New AI Breakthrough in Medicine");
     description := Some (lit "Researchers announce a significant discovery.");
     content := Some (lit
       "The new research shows major improvements in patient care. Doctors were surprised by the results of study. This is the first trial of its kind in the world. Funding came from several public sources. More tests are planned for next year in Europe. The team will publish the data soon enough.");
     url := Some (lit "https://example.org/medicine");
     urlToImage := None;
     publishedAt := Some (lit "2024-05-01T09:00:00Z");
     published_date := None;
     source := Some (Source (Some (lit "Example")));
     has_full_content := Some false;
     author := None;
     saved_at := None |}.

(** An article whose text is long enough and has fragments only. *)
Definition tips : article :=
  {| title := Some (lit "Top tips");
     description := Some (lit
       "Eat well. Sleep more. Walk daily. Drink water. Read books. Stay calm. Be kind. Have fun. Keep going.");
     content := Some [];
     url := Some (lit "https://example.org/tips");
     urlToImage := None;
     publishedAt := None;
     published_date := None;
     source := None;
     has_full_content := Some false;
     author := None;
     saved_at := None |}.

(** An article with no field at all, and a short one. *)
Definition no_fields : article :=
  Article None None None None None None None None None None None.

Definition short : article :=
  {| title := Some (lit "Rain expected");
     description := Some (lit "Take an umbrella");
     content := None;
     url := None; urlToImage := None; publishedAt := None;
     published_date := None; source := None; has_full_content := None;
     author := None; saved_at := None |}.

(** A tutorial, and an article without educational keywords. *)
Definition python_tutorial : article :=
  {| title := Some (lit "Python Tutorial for Beginners");
     description := Some (lit "A free course in ten parts");
     content := None;
     url := None; urlToImage := None; publishedAt := None;
     published_date := None; source := None; has_full_content := None;
     author := None; saved_at := None |}.

Definition football : article :=
  {| title := Some (lit "Late goal wins the cup");
     description := Some (lit "The home side scored in extra time");
     content := None;
     url := None; urlToImage := None; publishedAt := None;
     published_date := None; source := None; has_full_content := None;
     author := None; saved_at := None |}.

(** A network that is down. *)
Definition network_down : network := λ _, Raised.

(** Feeds: every feed has the same two entries, but the first feed of the
    BBC cannot be read; the entries have no markup and no date
    [feedparser] can parse. *)
Definition feed_entry (t s : string) : Feed.entry :=
  {| Feed.title := Some (lit t);
     Feed.summary := Some (lit s);
     Feed.description := None;
     Feed.content := None;
     Feed.link := Some (lit "https://example.org/entry");
     Feed.published := Some (lit "yesterday");
     Feed.updated := None;
     Feed.author := None;
     Feed.media_content := None;
     Feed.media_thumbnail := None;
     Feed.enclosures := None |}.

Definition first_feed_down : str → outcome (list Feed.entry) := λ feed_url,
  if bool_decide (feed_url = lit "http://feeds.bbci.co.uk/news/rss.xml")
  then Raised
  else Returned [feed_entry "Robots learn to walk" "A  study of machines";
                 feed_entry "Cup final" "The match report"].

Definition all_feeds_down : str → outcome (list Feed.entry) := λ _, Raised.

(** An entry that has a title and nothing else, and feeds of which the
    one called "short" has [n - 1] copies of an entry and any other has
    [n]. *)
Definition entry_titled (t : str) : Feed.entry :=
  {| Feed.title := Some t;
     Feed.summary := None;
     Feed.description := None;
     Feed.content := None;
     Feed.link := None;
     Feed.published := None;
     Feed.updated := None;
     Feed.author := None;
     Feed.media_content := None;
     Feed.media_thumbnail := None;
     Feed.enclosures := None |}.

Definition short_then_full (n : nat) (entry : Feed.entry)
    : str → outcome (list Feed.entry) := λ feed_url,
  Returned (replicate (if bool_decide (feed_url = lit "short")
                       then (n - 1)%nat else n) entry).

Definition no_markup : str → str := λ html, html.

Definition no_date : str → outcome (option str) := λ _, Returned None.

End Examples.

(** * Properties *)

(** ** Slices and lengths *)

Section PyFacts.
Context {A : Type}.
Implicit Types l : list A.

Lemma slice_to_nonneg l (n : Z) :
  0 ≤ n → slice_to l n = take (Z.to_nat n) l.
Proof. intros Hn. unfold slice_to. by rewrite (proj2 (Z.leb_le 0 n) Hn). Qed.

Lemma slice_to_prefix l (n : Z) : slice_to l n `prefix_of` l.
Proof. unfold slice_to. destruct (0 <=? n); apply prefix_take. Qed.

Lemma slice_to_all l (n : Z) : len l ≤ n → slice_to l n = l.
Proof.
  unfold len. intros Hn. rewrite slice_to_nonneg by lia.
  apply take_ge. lia.
Qed.

Lemma len_slice_to l (n : Z) : 0 ≤ n → len (slice_to l n) ≤ n.
Proof.
  intros Hn. rewrite slice_to_nonneg by done.
  unfold len. rewrite length_take. lia.
Qed.

Lemma len_app l k : len (l ++ k) = len l + len k.
Proof. unfold len. rewrite length_app. lia. Qed.
End PyFacts.

Lemma len_rsplit_head (s : str) : len (rsplit_head s) ≤ len s.
Proof.
  unfold rsplit_head, len.
  assert (∀ p, before_last_space s = Some p → (length p ≤ length s)%nat) as H.
  { induction s as [|c s IH]; intros p; simpl; [done|].
    destruct (before_last_space s) as [q|].
    - intros [= <-]. simpl. specialize (IH q eq_refl). lia.
    - case_bool_decide; [|done]. intros [= <-]. simpl. lia. }
  destruct (before_last_space s) as [p|]; simpl; [|lia].
  specialize (H p eq_refl). lia.
Qed.

(** ** bookmarking.py *)

Section BookmarkingFacts.
Import Bookmarking.

Lemma already_bookmarked_spec (bs : list article) (a : article) :
  already_bookmarked bs a = true ↔ ∃ b, b ∈ bs ∧ url b = url a.
Proof.
  induction bs as [|b bs IH]; simpl.
  - split; [done|]. intros (b & Hb & _). by apply elem_of_nil in Hb.
  - case_bool_decide as Hu.
    + split; [|done]. intros _. exists b. split; [left|done].
    + rewrite IH. split.
      * intros (b' & Hb' & Hu'). exists b'. split; [by right|done].
      * intros (b' & Hb' & Hu'). apply elem_of_cons in Hb' as [->|Hb'];
          [done|by exists b'].
Qed.

(** C9. [add_bookmark] on an article whose url is the url of a stored
    bookmark returns false and leaves the stored list (and the file) as
    they were; on any other article it returns true, and the list
    [get_bookmarks] returns afterwards is the new bookmark, which carries
    the article's url, followed by the earlier bookmarks. *)
Theorem add_bookmark_duplicate_or_first (now : str) (a : article) (m : manager) :
  ((∃ b, b ∈ get_bookmarks m ∧ url b = url a) →
     add_bookmark now a m = (false, m)) ∧
  (¬ (∃ b, b ∈ get_bookmarks m ∧ url b = url a) →
     (add_bookmark now a m).1 = true ∧
     get_bookmarks (add_bookmark now a m).2
       = new_bookmark now a :: get_bookmarks m ∧
     head (get_bookmarks (add_bookmark now a m).2) = Some (new_bookmark now a) ∧
     url (new_bookmark now a) = Some (get (url a) [])).
Proof.
  unfold add_bookmark, get_bookmarks. split.
  - intros H%already_bookmarked_spec. by rewrite H.
  - intros H. destruct (already_bookmarked (bookmarks m) a) eqn:E.
    + exfalso. by apply H, already_bookmarked_spec.
    + done.
Qed.

End BookmarkingFacts.

(** ** news_fetcher.py: deduplication *)

Section DeduplicationFacts.
Import NewsFetcher Spec.

Lemma truthy_nonempty (s : str) : truthy s = true ↔ s ≠ [].
Proof. by destruct s. Qed.

Lemma keep_unique_first_seen (articles : list article) :
  ∀ (seen_titles : gset str) (kept earlier : list article),
    (∀ t, t ∈ seen_titles ↔ t ≠ [] ∧ t ∈ title_of <$> earlier) →
    (foldl keep_unique (seen_titles, kept) articles).2
      = kept ++ first_seen_from earlier articles.
Proof.
  induction articles as [|a articles IH]; intros seen kept earlier Hseen; simpl.
  { by rewrite app_nil_r. }
  fold (title_of a).
  assert (∀ t, t ∈ title_of <$> earlier ++ [a]
               ↔ t ∈ title_of <$> earlier ∨ t = title_of a) as Hearlier.
  { intros t. rewrite fmap_app, elem_of_app. simpl.
    by rewrite list_elem_of_singleton. }
  destruct (decide (title_of a ≠ [] ∧ title_of a ∉ title_of <$> earlier))
    as [[Hne Hnin]|Hno].
  - assert (truthy (title_of a) && bool_decide (title_of a ∉ seen) = true) as ->.
    { apply andb_true_intro. split; [by apply truthy_nonempty|].
      apply bool_decide_eq_true. intros Hs. by apply Hseen in Hs as [_ ?]. }
    rewrite (IH _ _ (earlier ++ [a])); [by rewrite <- app_assoc|].
    intros t. rewrite elem_of_union, elem_of_singleton, Hseen, Hearlier.
    naive_solver.
  - assert (truthy (title_of a) && bool_decide (title_of a ∉ seen) = false) as ->.
    { apply andb_false_iff.
      destruct (decide (title_of a = [])) as [->|Hne]; [by left|right].
      apply bool_decide_eq_false. intros Hs. apply Hno. split; [done|].
      intros Hin. apply Hs, Hseen. done. }
    simpl. apply IH. intros t. rewrite Hseen, Hearlier.
    split; [naive_solver|]. intros [Hne [Hin| ->]]; [done|].
    split; [done|]. destruct (decide (title_of a ∈ title_of <$> earlier)); [done|].
    exfalso. by apply Hno.
Qed.

(** The loop of [fetch_news] computes the first-seen deduplication. *)
Lemma unique_articles_first_seen (articles : list article) :
  unique_articles articles = first_seen articles.
Proof.
  unfold unique_articles, first_seen.
  rewrite (keep_unique_first_seen articles ∅ [] []); [done|].
  intros t. simpl. rewrite elem_of_nil. set_solver.
Qed.

Lemma first_seen_from_sublist (articles earlier : list article) :
  first_seen_from earlier articles `sublist_of` articles.
Proof.
  revert earlier. induction articles as [|a articles IH]; intros earlier; simpl.
  { constructor. }
  case_decide; simpl.
  - apply sublist_skip, IH.
  - apply sublist_cons, IH.
Qed.

Lemma first_seen_from_elem (articles earlier : list article) (a : article) :
  a ∈ first_seen_from earlier articles →
  title_of a ≠ [] ∧ title_of a ∉ title_of <$> earlier.
Proof.
  revert earlier. induction articles as [|b articles IH]; intros earlier; simpl.
  { by intros ?%elem_of_nil. }
  rewrite elem_of_app. intros [Hin|Hin].
  - case_decide as Hd; [|by apply elem_of_nil in Hin].
    apply list_elem_of_singleton in Hin as ->. done.
  - apply IH in Hin as [? Hnin]. split; [done|].
    intros Hin. apply Hnin. rewrite fmap_app, elem_of_app. by left.
Qed.

Lemma first_seen_from_NoDup (articles earlier : list article) :
  NoDup (title_of <$> first_seen_from earlier articles).
Proof.
  revert earlier. induction articles as [|a articles IH]; intros earlier; simpl.
  { constructor. }
  case_decide as Hd; simpl; [|apply IH].
  constructor; [|apply IH].
  intros (b & Hb & Hin)%list_elem_of_fmap.
  apply first_seen_from_elem in Hin as [_ Hnin].
  apply Hnin. rewrite fmap_app, elem_of_app. right. simpl.
  rewrite <- Hb. left.
Qed.

(** Every title that is not empty and was not seen earlier is kept, and it
    is kept with the first article that has it. *)
Lemma first_seen_from_complete (articles earlier : list article) (t : str) :
  t ≠ [] → t ∉ title_of <$> earlier → t ∈ title_of <$> articles →
  ∃ a, first_with_title t articles = Some a ∧
       a ∈ first_seen_from earlier articles.
Proof.
  unfold first_with_title. intros Hne. revert earlier.
  induction articles as [|b articles IH]; intros earlier Hnin Hin; simpl in *.
  { by apply elem_of_nil in Hin. }
  case_decide as Hb.
  - exists b. split; [done|]. rewrite decide_True by (by rewrite Hb).
    by left.
  - apply elem_of_cons in Hin as [->|Hin]; [done|].
    destruct (IH (earlier ++ [b])) as (a & Hfind & Ha); [|done|].
    { rewrite fmap_app, elem_of_app. simpl. rewrite list_elem_of_singleton.
      naive_solver. }
    exists a. split.
    + destruct (list_find _ articles) as [[i a']|]; simpl in *; [|done].
      by simplify_eq.
    + rewrite elem_of_app. by right.
Qed.

End DeduplicationFacts.

Section FetchNewsFacts.
Import NewsFetcher Spec.

Lemma slice_to_take {A} (l : list A) (n : Z) : ∃ k, slice_to l n = take k l.
Proof. unfold slice_to. destruct (0 <=? n); eauto. Qed.

Lemma unique_articles_titles (articles : list article) :
  (∀ a, a ∈ unique_articles articles → title_of a ≠ []) ∧
  NoDup (title_of <$> unique_articles articles).
Proof.
  rewrite unique_articles_first_seen. unfold first_seen. split.
  - intros a Ha. by apply first_seen_from_elem in Ha as [? _].
  - apply first_seen_from_NoDup.
Qed.

Lemma fetch_news_result (self : fetcher) (net : network) (query : str)
    (max_articles : Z) (log : list request) :
  (fetch_news self net query max_articles log).1
  = slice_to
      (unique_articles
         (try_sources
            [_fetch_from_guardian self net query max_articles;
             _fetch_from_newsapi self net query max_articles]
            max_articles [] log).1)
      max_articles.
Proof. unfold fetch_news. by destruct (try_sources _ _ _ _). Qed.

(** What holds of the deduplicated list holds of each of its prefixes. *)
Lemma titles_of_slice (articles : list article) (max_articles : Z) :
  let out := slice_to (unique_articles articles) max_articles in
  (∀ a, a ∈ out → ∃ t, title a = Some t ∧ t ≠ []) ∧
  (∀ a, title a = None ∨ title a = Some [] → a ∉ out) ∧
  NoDup (title_of <$> out).
Proof.
  intros out. destruct (unique_articles_titles articles) as [Hne Hnd].
  destruct (slice_to_take (unique_articles articles) max_articles) as [k Hk].
  assert (∀ a, a ∈ out → title_of a ≠ []) as Hout.
  { intros a Ha. apply Hne. unfold out in Ha. rewrite Hk in Ha.
    by apply elem_of_take in Ha as (i & ?%list_elem_of_lookup_2 & _). }
  split_and!.
  - intros a Ha%Hout. unfold title_of in Ha.
    destruct (title a) as [t|]; [|done]. by exists t.
  - intros a Ha Hin%Hout. unfold title_of in Hin.
    by destruct Ha as [Ha|Ha]; rewrite Ha in Hin.
  - unfold out. rewrite Hk, fmap_take.
    eapply sublist_NoDup; [|apply sublist_take]. done.
Qed.

(** C10. Whatever list of articles is accumulated, an article whose title
    is missing or the empty string is not in the output of [fetch_news]:
    every article of the output has a title that is not empty, and the
    titles of the output are pairwise distinct.  This holds of the
    deduplication and truncation of any list, and so of [fetch_news] on any
    network. *)
Theorem fetch_news_titles_nonempty_distinct :
  (∀ (articles : list article) (max_articles : Z),
     let out := slice_to (unique_articles articles) max_articles in
     (∀ a, a ∈ out → ∃ t, title a = Some t ∧ t ≠ []) ∧
     (∀ a, title a = None ∨ title a = Some [] → a ∉ out) ∧
     NoDup (title <$> out)) ∧
  (∀ (self : fetcher) (net : network) (query : str) (max_articles : Z)
     (log : list request),
     let out := (fetch_news self net query max_articles log).1 in
     (∀ a, a ∈ out → ∃ t, title a = Some t ∧ t ≠ []) ∧
     (∀ a, title a = None ∨ title a = Some [] → a ∉ out) ∧
     NoDup (title <$> out)).
Proof.
  assert (∀ articles max_articles,
            let out := slice_to (unique_articles articles) max_articles in
            (∀ a, a ∈ out → ∃ t, title a = Some t ∧ t ≠ []) ∧
            (∀ a, title a = None ∨ title a = Some [] → a ∉ out) ∧
            NoDup (title <$> out)) as Hlist.
  { intros articles max_articles out.
    destruct (titles_of_slice articles max_articles) as (H1 & H2 & H3).
    split_and!; [done..|].
    eapply (NoDup_fmap_1 (λ o : option str, default [] o)).
    by rewrite <- list_fmap_compose. }
  split; [done|].
  intros self net query max_articles log. rewrite fetch_news_result.
  apply Hlist.
Qed.

Lemma NoDup_fmap_elem_eq {A B} (f : A → B) (l : list A) (x y : A) :
  NoDup (f <$> l) → x ∈ l → y ∈ l → f x = f y → x = y.
Proof.
  induction l as [|z l IH]; simpl; [by intros _ ?%elem_of_nil|].
  intros [Hz Hnd]%NoDup_cons [->|Hx]%elem_of_cons [->|Hy]%elem_of_cons Hf;
    [done| | |by apply IH].
  - exfalso. apply Hz. rewrite Hf. by apply list_elem_of_fmap_2.
  - exfalso. apply Hz. rewrite <- Hf. by apply list_elem_of_fmap_2.
Qed.

Lemma filter_unique_key {A B} `{EqDecision B} (f : A → B) (l : list A) (x : A) :
  NoDup (f <$> l) → x ∈ l → filter (λ y, f y = f x) l = [x].
Proof.
  induction l as [|z l IH]; simpl; [by intros _ ?%elem_of_nil|].
  intros [Hz Hnd]%NoDup_cons [->|Hx]%elem_of_cons.
  - rewrite filter_cons_True by done. f_equal.
    destruct (filter _ l) as [|y k] eqn:E; [done|]. exfalso.
    assert (y ∈ filter (λ y, f y = f z) l) as Hy by (rewrite E; left).
    apply list_elem_of_filter in Hy as [Hf Hy].
    apply Hz. rewrite <- Hf. by apply list_elem_of_fmap_2.
  - rewrite filter_cons_False; [by apply IH|].
    intros Hf. apply Hz. rewrite Hf. by apply list_elem_of_fmap_2.
Qed.

Lemma first_with_title_title (t : str) (articles : list article) (a : article) :
  first_with_title t articles = Some a → title_of a = t ∧ a ∈ articles.
Proof.
  unfold first_with_title.
  destruct (list_find _ articles) as [[i a']|] eqn:E; simpl; [|done].
  intros [= ->]. apply list_find_Some in E as (Hi & Ht & _).
  split; [done|]. by eapply list_elem_of_lookup_2.
Qed.

Lemma unique_articles_deduplicated (articles : list article) (max_articles : Z) :
  deduplicated_then_truncated articles max_articles
    (slice_to (unique_articles articles) max_articles).
Proof.
  exists (unique_articles articles).
  destruct (unique_articles_titles articles) as [Hne Hnd].
  assert (∀ t, t ≠ [] → t ∈ title_of <$> articles →
            ∃ a, first_with_title t articles = Some a ∧
                 a ∈ unique_articles articles) as Hcomplete.
  { intros t Ht Hin. rewrite unique_articles_first_seen.
    apply first_seen_from_complete; [done| |done]. simpl. apply not_elem_of_nil. }
  split_and!.
  - apply unique_articles_first_seen.
  - rewrite unique_articles_first_seen. apply first_seen_from_sublist.
  - intros t Ht Hin. destruct (Hcomplete t Ht Hin) as (a & Hfind & Ha).
    exists a. split; [done|].
    apply first_with_title_title in Hfind as [<- _].
    by apply filter_unique_key.
  - intros a Ha. split; [by apply Hne|].
    destruct (Hcomplete (title_of a)) as (a' & Hfind & Ha'); [by apply Hne| |].
    { apply list_elem_of_fmap_2.
      assert (unique_articles articles `sublist_of` articles) as Hsub.
      { rewrite unique_articles_first_seen. apply first_seen_from_sublist. }
      by eapply elem_of_sublist. }
    rewrite Hfind. f_equal.
    apply (NoDup_fmap_elem_eq title_of (unique_articles articles)); [done..|].
    by apply first_with_title_title in Hfind as [? _].
  - apply slice_to_prefix.
  - intros Hmax. split; [by apply slice_to_nonneg|by apply len_slice_to].
  - apply slice_to_all.
Qed.

(** C1 (amended). The accumulated articles are deduplicated on their title:
    the deduplicated list holds exactly one article for each distinct
    title that is not empty, the first seen, in first-seen order.  The
    output of [fetch_news] is the start of that list: all of it when it has
    at most [max_articles] articles, and otherwise its first
    [max_articles] articles (for a limit that is not negative), so that
    the titles past the limit are not in the output. *)
Theorem fetch_news_first_seen_then_truncated :
  (∀ (articles : list article) (max_articles : Z),
     deduplicated_then_truncated articles max_articles
       (slice_to (unique_articles articles) max_articles)) ∧
  (∀ (self : fetcher) (net : network) (query : str) (max_articles : Z)
     (log : list request),
     deduplicated_then_truncated
       (try_sources
          [_fetch_from_guardian self net query max_articles;
           _fetch_from_newsapi self net query max_articles]
          max_articles [] log).1
       max_articles
       (fetch_news self net query max_articles log).1).
Proof.
  split.
  - apply unique_articles_deduplicated.
  - intros. rewrite fetch_news_result. apply unique_articles_deduplicated.
Qed.

(** C1, as stated, fails: with a limit of two, one article from the
    Guardian and two from NewsAPI, three distinct titles are fetched and
    the third has no article in the output. *)
Lemma fetch_news_drops_title_past_limit :
  let fetched :=
    (try_sources
       [_fetch_from_guardian Examples.with_newsapi_key Examples.one_then_two "space" 2;
        _fetch_from_newsapi Examples.with_newsapi_key Examples.one_then_two "space" 2]
       2 [] []).1 in
  let out :=
    (fetch_news Examples.with_newsapi_key Examples.one_then_two "space" 2 []).1 in
  title_of <$> fetched
    = [lit "Space Mission Launches"; lit "Mars Rover Lands"; lit "Comet Passes Earth"] ∧
  title_of <$> out = [lit "Space Mission Launches"; lit "Mars Rover Lands"] ∧
  ¬ (∀ t, t ≠ [] → t ∈ title_of <$> fetched → ∃ a, a ∈ out ∧ title_of a = t).
Proof.
  intros fetched out.
  assert (title_of <$> fetched
          = [lit "Space Mission Launches"; lit "Mars Rover Lands";
             lit "Comet Passes Earth"]) as Hfetched by (by vm_compute).
  assert (title_of <$> out
          = [lit "Space Mission Launches"; lit "Mars Rover Lands"]) as Hout
    by (by vm_compute).
  split_and!; [done..|].
  intros H. destruct (H (lit "Comet Passes Earth")) as (a & Ha & Ht).
  - done.
  - rewrite Hfetched. right. right. left.
  - apply (list_elem_of_fmap_2 title_of) in Ha. rewrite Ht, Hout in Ha.
    apply elem_of_cons in Ha as [Ha|Ha]; [by vm_compute in Ha|].
    apply elem_of_cons in Ha as [Ha|Ha]; [by vm_compute in Ha|].
    by apply elem_of_nil in Ha.
Qed.

End FetchNewsFacts.

(** ** news_fetcher.py: the adapters *)

Section AdapterFacts.
Import NewsFetcher.

(** C5. With no [NEWS_API_KEY] in the environment, the NewsAPI adapter
    returns the empty list for every query and limit: it does not raise,
    and the log of requests is the one it started with, so the network was
    not called. *)
Theorem newsapi_without_key_returns_empty
    (environ : gmap string str) (net : network) (query : str)
    (max_articles : Z) (log : list request) :
  environ !! "NEWS_API_KEY"%string = None →
  _fetch_from_newsapi (init environ) net query max_articles log
  = (Returned [], log).
Proof.
  intros Hkey. unfold _fetch_from_newsapi, init. simpl. by rewrite Hkey.
Qed.

Lemma newsapi_without_key_witness :
  (∅ : gmap string str) !! "NEWS_API_KEY"%string = None ∧
  _fetch_from_newsapi (init ∅) Examples.one_then_two "science" 20 []
  = (Returned [], []).
Proof.
  split; [reflexivity|].
  apply newsapi_without_key_returns_empty. reflexivity.
Defined.

(** An empty key is no key either. *)
Lemma newsapi_with_empty_key_returns_empty
    (self : fetcher) (net : network) (query : str)
    (max_articles : Z) (log : list request) :
  newsapi_key self = Some [] →
  _fetch_from_newsapi self net query max_articles log = (Returned [], log).
Proof. intros Hkey. unfold _fetch_from_newsapi. by rewrite Hkey. Qed.

(** With a key the adapter makes exactly one request. *)
Lemma newsapi_with_key_calls_once
    (self : fetcher) (net : network) (query : str)
    (max_articles : Z) (log : list request) (c : ascii) (key : str) :
  newsapi_key self = Some (c :: key) →
  ∃ r, (_fetch_from_newsapi self net query max_articles log).2 = log ++ [r].
Proof.
  intros Hkey. unfold _fetch_from_newsapi. rewrite Hkey.
  eexists. unfold mbind, M_bind, http_get. simpl.
  by destruct (net _).
Qed.

Lemma guardian_fetch_returned
    (self : fetcher) (net : network) (query : str) (max_articles : Z)
    (log log' : list request) (articles : list article) :
  _fetch_from_guardian self net query max_articles log
    = (Returned articles, log') →
  ∃ items : list Guardian.item, articles = guardian_article <$> items.
Proof.
  unfold _fetch_from_guardian, mbind, M_bind, http_get. simpl.
  destruct (net _) as [data|]; [|done].
  intros [= <- _]. eauto.
Qed.

Lemma newsapi_fetch_returned
    (self : fetcher) (net : network) (query : str) (max_articles : Z)
    (log log' : list request) (articles : list article) :
  _fetch_from_newsapi self net query max_articles log
    = (Returned articles, log') →
  ∃ items : list NewsApi.item, articles = newsapi_article <$> items.
Proof.
  unfold _fetch_from_newsapi, mbind, M_bind, http_get.
  destruct (newsapi_key self) as [[|c key]|]; simpl.
  - intros [= <- _]. by exists [].
  - destruct (net _) as [data|]; [|done]. intros [= <- _]. eauto.
  - intros [= <- _]. by exists [].
Qed.

(** C3. The invariant that [has_full_content] implies a content that is
    not empty does not hold of the adapters.  The Guardian adapter sets
    the flag on every article it returns, and the content of the article
    is the body text of the result, or the empty string when the result
    has none: the content is not empty exactly when the result carries a
    body text that is not empty.  Of the three readers of the flag,
    [has_full_article] returns the flag as it is, and so answers true for
    an article without content; [get_full_text] and [get_article_preview]
    test the content as well, and fall back to the message and to the
    description.  The NewsAPI adapter never sets the flag. *)
Theorem full_content_flag_of_adapters :
  (∀ (self : fetcher) (net : network) (query : str) (max_articles : Z)
     (log log' : list request) (articles : list article),
     _fetch_from_guardian self net query max_articles log
       = (Returned articles, log') →
     ∀ a, a ∈ articles →
       has_full_content a = Some true ∧
       has_full_article a = true ∧
       ∃ item,
         a = guardian_article item ∧
         content a
           = Some (get (Guardian.bodyText
                          (get (Guardian.fields item)
                               (Guardian.Fields None None None None))) []) ∧
         ((get_full_text a).1 = true ↔ content a ≠ Some []) ∧
         (content a = Some [] →
            get_full_text a
            = (false,
               lit "Full article not available. Click 'Open in Browser' to read more.")
            ∧ ∀ max_length,
                get_article_preview a max_length
                = Spec.truncated (get (description a) []) max_length)) ∧
  (∀ (self : fetcher) (net : network) (query : str) (max_articles : Z)
     (log log' : list request) (articles : list article),
     _fetch_from_newsapi self net query max_articles log
       = (Returned articles, log') →
     ∀ a, a ∈ articles →
       has_full_content a = Some false ∧ has_full_article a = false
       ∧ (get_full_text a).1 = false).
Proof.
  split.
  - intros self net query max_articles log log' articles Hfetch a Ha.
    apply guardian_fetch_returned in Hfetch as [items ->].
    apply list_elem_of_fmap in Ha as (item & -> & _).
    split; [done|]. split; [done|]. exists item. split_and!; [done..| |].
    + unfold get_full_text. simpl.
      destruct (get (Guardian.bodyText _) []); simpl; naive_solver.
    + unfold get_full_text, get_article_preview. simpl.
      destruct (get (Guardian.bodyText _) []); [|done]. intros _. by split.
  - intros self net query max_articles log log' articles Hfetch a Ha.
    apply newsapi_fetch_returned in Hfetch as [items ->].
    by apply list_elem_of_fmap in Ha as (item & -> & _).
Qed.

(** C3 fails on a Guardian result without body text: the adapter returns
    an article flagged [has_full_content] whose content is empty;
    [has_full_article] answers true for it, and [get_full_text] has no
    full text to give. *)
Lemma guardian_flag_with_empty_content :
  ∃ a log',
    _fetch_from_guardian Examples.with_newsapi_key Examples.no_body_text
      "politics" 20 [] = (Returned [a], log') ∧
    has_full_content a = Some true ∧
    content a = Some [] ∧
    has_full_article a = true ∧
    (get_full_text a).1 = false.
Proof. do 2 eexists. split_and!; reflexivity. Qed.

End AdapterFacts.

(** ** The stable sort *)

Section SortFacts.
Context {A K : Type} (ltb : K → K → bool) (key : A → K).

(** The order the sort asks for: [ltb] never holds both ways, and "not
    greater" is transitive, as for [<] on strings and numbers. *)
Hypothesis ltb_asym : ∀ x y, ltb x y = true → ltb y x = false.
Hypothesis ltb_trans_neg :
  ∀ x y z, ltb y x = false → ltb z y = false → ltb z x = false.

#[local] Abbreviation ascending := (Spec.ascending ltb key).
#[local] Abbreviation descending := (Spec.descending ltb key).

Lemma insert_sorted_Permutation (x : A) (l : list A) :
  insert_sorted ltb key x l ≡ₚ x :: l.
Proof.
  induction l as [|y l IH]; simpl; [done|].
  destruct (ltb (key y) (key x)); [|done].
  rewrite IH. apply Permutation_swap.
Qed.

Lemma sort_ascending_Permutation (l : list A) :
  sort_ascending ltb key l ≡ₚ l.
Proof.
  induction l as [|x l IH]; simpl; [done|].
  by rewrite insert_sorted_Permutation, IH.
Qed.

Lemma sorted_Permutation (reversed : bool) (l : list A) :
  sorted ltb key reversed l ≡ₚ l.
Proof.
  unfold sorted. destruct reversed; [|apply sort_ascending_Permutation].
  by rewrite reverse_Permutation, sort_ascending_Permutation, reverse_Permutation.
Qed.

Lemma insert_sorted_ascending (x : A) (l : list A) :
  StronglySorted ascending l →
  StronglySorted ascending (insert_sorted ltb key x l).
Proof.
  induction 1 as [|y l Hl IH Hy]; simpl.
  { repeat constructor. }
  destruct (ltb (key y) (key x)) eqn:Hyx.
  - constructor; [done|].
    rewrite insert_sorted_Permutation. constructor; [|done].
    unfold ascending. by apply ltb_asym.
  - constructor; [by constructor|].
    constructor; [done|].
    eapply Forall_impl; [exact Hy|]. intros z Hz. unfold ascending in *.
    by eapply ltb_trans_neg.
Qed.

Lemma sort_ascending_ascending (l : list A) :
  StronglySorted ascending (sort_ascending ltb key l).
Proof.
  induction l as [|x l IH]; simpl; [constructor|].
  by apply insert_sorted_ascending.
Qed.

Lemma StronglySorted_reverse (R : relation A) (l : list A) :
  StronglySorted R l → StronglySorted (flip R) (reverse l).
Proof.
  induction 1 as [|x l Hl IH Hx]; [constructor|].
  rewrite reverse_cons.
  apply StronglySorted_app_2; [|done|repeat constructor].
  intros y z Hy ->%list_elem_of_singleton. rewrite elem_of_reverse in Hy.
  rewrite Forall_forall in Hx. unfold flip. by apply Hx.
Qed.

(** [sorted(l, key=key, reverse=True)] is in descending order of the key. *)
Lemma sorted_reverse_descending (l : list A) :
  StronglySorted descending (sorted ltb key true l).
Proof.
  unfold sorted.
  apply (StronglySorted_reverse ascending), sort_ascending_ascending.
Qed.

Lemma StronglySorted_take (R : relation A) (n : nat) (l : list A) :
  StronglySorted R l → StronglySorted R (take n l).
Proof.
  intros Hl. rewrite <- (take_drop n l) in Hl.
  by apply StronglySorted_app_1_l in Hl.
Qed.

Lemma StronglySorted_slice_to (R : relation A) (n : Z) (l : list A) :
  StronglySorted R l → StronglySorted R (slice_to l n).
Proof.
  unfold slice_to. destruct (0 <=? n); apply StronglySorted_take.
Qed.

End SortFacts.

(** ** The order of strings *)

Section StringOrder.

Lemma ord_inj (a b : ascii) : ord a = ord b → a = b.
Proof.
  unfold ord. intros H.
  by rewrite <- (ascii_nat_embedding a), <- (ascii_nat_embedding b), H.
Qed.

Lemma str_ltb_asym (s t : str) : str_ltb s t = true → str_ltb t s = false.
Proof.
  revert t. induction s as [|a s IH]; intros [|b t]; simpl; try done.
  destruct (Nat.ltb_spec (ord a) (ord b)), (Nat.ltb_spec (ord b) (ord a));
    try done; try lia.
  apply IH.
Qed.

Lemma str_ltb_trans_neg (s t u : str) :
  str_ltb t s = false → str_ltb u t = false → str_ltb u s = false.
Proof.
  revert t u. induction s as [|a s IH]; intros [|b t] [|c u]; simpl; try done.
  destruct (Nat.ltb_spec (ord b) (ord a)), (Nat.ltb_spec (ord a) (ord b)),
    (Nat.ltb_spec (ord c) (ord b)), (Nat.ltb_spec (ord b) (ord c)),
    (Nat.ltb_spec (ord c) (ord a)), (Nat.ltb_spec (ord a) (ord c));
    try done; try lia.
  apply IH.
Qed.

Lemma str_ltb_total (s t : str) :
  str_ltb s t = false → str_ltb t s = false → s = t.
Proof.
  revert t. induction s as [|a s IH]; intros [|b t]; simpl; try done.
  destruct (Nat.ltb_spec (ord a) (ord b)), (Nat.ltb_spec (ord b) (ord a));
    try done; try lia.
  intros Hs Ht. f_equal; [apply ord_inj; lia|by apply IH].
Qed.

End StringOrder.

(** ** Dates in ISO form sort as time does *)

Section IsoDates.
Import Spec.

Lemma str_ltb_irrefl (s : str) : str_ltb s s = false.
Proof.
  destruct (str_ltb s s) eqn:E; [|done].
  by rewrite (str_ltb_asym s s E) in E.
Qed.

Lemma str_ltb_app (p q s t : str) :
  length p = length q →
  str_ltb (p ++ s) (q ++ t)
  = str_ltb p q || (bool_decide (p = q) && str_ltb s t).
Proof.
  revert q. induction p as [|a p IH]; intros [|b q] Hlen; simplify_eq/=.
  { by destruct t. }
  destruct (Nat.ltb_spec (ord a) (ord b)); [done|].
  destruct (Nat.ltb_spec (ord b) (ord a)).
  - rewrite bool_decide_eq_false_2; [done|]. intros [= -> _]. lia.
  - assert (a = b) as -> by (apply ord_inj; lia).
    rewrite IH by done. f_equal. f_equal.
    apply bool_decide_ext. naive_solver.
Qed.

Lemma str_ltb_app_same (p s t : str) :
  str_ltb (p ++ s) (p ++ t) = str_ltb s t.
Proof.
  rewrite str_ltb_app by done.
  by rewrite str_ltb_irrefl, bool_decide_eq_true_2.
Qed.

Lemma ord_digit (n : nat) : (n < 10)%nat → ord (digit n) = (48 + n)%nat.
Proof. intros Hn. unfold ord, digit. apply nat_ascii_embedding. lia. Qed.

Lemma length_decimal (w n : nat) : length (decimal w n) = w.
Proof.
  revert n. induction w as [|w IH]; intros n; simpl; [done|].
  rewrite length_app, IH. simpl. lia.
Qed.

Lemma str_ltb_digit (a b : nat) :
  (a < 10)%nat → (b < 10)%nat → str_ltb [digit a] [digit b] = (a <? b)%nat.
Proof.
  intros Ha Hb. cbn [str_ltb]. rewrite !ord_digit by done.
  destruct (Nat.ltb_spec (48 + a) (48 + b)).
  - symmetry. apply Nat.ltb_lt. lia.
  - transitivity false; [by destruct (_ <? _)%nat|].
    symmetry. apply Nat.ltb_ge. lia.
Qed.

Lemma str_ltb_decimal (w n m : nat) :
  (n < 10 ^ w)%nat → (m < 10 ^ w)%nat →
  str_ltb (decimal w n) (decimal w m) = (n <? m)%nat ∧
  (decimal w n = decimal w m → n = m).
Proof.
  revert n m. induction w as [|w IH]; intros n m Hn Hm.
  { simpl in *. split; [|lia]. symmetry. apply Nat.ltb_ge. lia. }
  rewrite Nat.pow_succ_r' in Hn, Hm.
  assert (n / 10 < 10 ^ w)%nat as Hn' by (apply Nat.Div0.div_lt_upper_bound; lia).
  assert (m / 10 < 10 ^ w)%nat as Hm' by (apply Nat.Div0.div_lt_upper_bound; lia).
  destruct (IH _ _ Hn' Hm') as [Hlt Hinj].
  pose proof (Nat.div_mod_eq n 10) as En.
  pose proof (Nat.div_mod_eq m 10) as Em.
  pose proof (Nat.mod_upper_bound n 10 ltac:(lia)) as Bn.
  pose proof (Nat.mod_upper_bound m 10 ltac:(lia)) as Bm.
  cbn [decimal]. split.
  - rewrite str_ltb_app by (by rewrite !length_decimal).
    rewrite Hlt, str_ltb_digit by done.
    destruct (Nat.ltb_spec (n / 10) (m / 10)); cbn [orb].
    { symmetry. apply Nat.ltb_lt. lia. }
    case_bool_decide as Heq; cbn [andb].
    + apply Hinj in Heq.
      destruct (Nat.ltb_spec (n mod 10) (m mod 10)); symmetry.
      * apply Nat.ltb_lt. lia.
      * apply Nat.ltb_ge. lia.
    + symmetry. apply Nat.ltb_ge.
      destruct (decide (n / 10 = m / 10)%nat) as [E|E]; [|lia].
      exfalso. apply Heq. by rewrite E.
  - intros [Hd Hu]%app_inj_2; [|done]. apply Hinj in Hd.
    pose proof (f_equal (λ l : str, from_option ord 0%nat (head l)) Hu) as Ho.
    cbn [head from_option] in Ho.
    rewrite !ord_digit in Ho by done. lia.
Qed.

Lemma str_ltb_field (w n m : nat) (s t : str) :
  (n < 10 ^ w)%nat → (m < 10 ^ w)%nat →
  str_ltb (decimal w n ++ s) (decimal w m ++ t)
  = (n <? m)%nat || ((n =? m)%nat && str_ltb s t).
Proof.
  intros Hn Hm. destruct (str_ltb_decimal w n m Hn Hm) as [Hlt Hinj].
  rewrite str_ltb_app by (by rewrite !length_decimal). rewrite Hlt.
  f_equal. f_equal.
  destruct (Nat.eqb_spec n m) as [->|Hne].
  - by apply bool_decide_eq_true_2.
  - apply bool_decide_eq_false_2. intros E. by apply Hne, Hinj.
Qed.

(** On valid dates, [<] on the ISO strings is the order of time. *)
Lemma str_ltb_isoformat (d e : datetime) :
  valid_datetime d → valid_datetime e →
  str_ltb (isoformat d) (isoformat e) = true ↔ before d e.
Proof.
  intros (Hy & Hmo & Hd & Hh & Hmi & Hs) (Hy' & Hmo' & Hd' & Hh' & Hmi' & Hs').
  assert (10 ^ 2 = 100)%nat as H100 by reflexivity.
  unfold before, isoformat, datetime_fields. simpl fields_ltb.
  rewrite str_ltb_field by lia.
  rewrite (str_ltb_app_same "-").
  rewrite str_ltb_field by (rewrite H100; lia).
  rewrite (str_ltb_app_same "-").
  rewrite str_ltb_field by (rewrite H100; lia).
  rewrite (str_ltb_app_same "T").
  rewrite str_ltb_field by (rewrite H100; lia).
  rewrite (str_ltb_app_same ":").
  rewrite str_ltb_field by (rewrite H100; lia).
  rewrite (str_ltb_app_same ":").
  rewrite <- (app_nil_r (decimal 2 (second d))).
  rewrite <- (app_nil_r (decimal 2 (second e))).
  rewrite str_ltb_field by (rewrite H100; lia).
  cbn [str_ltb]. by rewrite !andb_false_r, !orb_false_r.
Qed.

(** For instance, the last second of April comes before a morning in
    May. *)
Lemma str_ltb_isoformat_example :
  valid_datetime Examples.april_last ∧ valid_datetime Examples.may_first ∧
  isoformat Examples.april_last = lit "2024-04-30T23:59:59" ∧
  isoformat Examples.may_first = lit "2024-05-01T10:00:00" ∧
  (str_ltb (isoformat Examples.april_last) (isoformat Examples.may_first) = true
   ↔ before Examples.april_last Examples.may_first).
Proof.
  assert (valid_datetime Examples.april_last) as Hd
    by (unfold valid_datetime; simpl; lia).
  assert (valid_datetime Examples.may_first) as He
    by (unfold valid_datetime; simpl; lia).
  split_and!; [done|done|reflexivity|reflexivity|].
  apply (str_ltb_isoformat _ _ Hd He).
Defined.

End IsoDates.

(** ** rss_fetcher.py *)

Section RssFacts.
Import RssFetcher Spec.

Lemma StronglySorted_strengthen {A K} (key : A → K) (R R' : relation A)
    (l : list A) :
  StronglySorted R l → NoDup (key <$> l) →
  (∀ a b, a ∈ l → b ∈ l → key a ≠ key b → R a b → R' a b) →
  StronglySorted R' l.
Proof.
  induction 1 as [|x l Hl IH Hx]; intros Hnd HR; [constructor|].
  apply NoDup_cons in Hnd as [Hx' Hnd]. constructor.
  - apply IH; [done|]. intros a b Ha Hb. apply HR; by right.
  - rewrite Forall_forall in Hx |- *. intros y Hy.
    apply HR; [by left|by right| |by apply Hx].
    intros E. apply Hx'. rewrite E. by apply list_elem_of_fmap_2.
Qed.

Lemma newer_of_str_ltb (s t : str) :
  well_formed_date s → well_formed_date t → str_ltb t s = true → newer s t.
Proof.
  intros (d & Hd & ->) (e & He & ->) Hlt.
  exists d, e. split_and!; [done..|]. by apply str_ltb_isoformat.
Qed.

(** C6. For RSS articles whose [published_date] values are well formed and
    pairwise distinct, the list [fetch_news] returns is in descending order
    of [published_date], the newest first.  The whole list is sorted
    first, and the output is the start of the sorted list that
    [max_results] leaves. *)
Theorem rss_fetch_news_newest_first
    (all_articles : list article) (max_results : Z) :
  NoDup (published_date <$> all_articles) →
  Forall (λ a, ∃ s, published_date a = Some s ∧ well_formed_date s)
         all_articles →
  let ranked := sorted str_ltb date_key true all_articles in
  let out := slice_to ranked max_results in
  ranked ≡ₚ all_articles ∧
  StronglySorted (λ a b, str_ltb (date_key b) (date_key a) = true) ranked ∧
  out `prefix_of` ranked ∧
  StronglySorted (λ a b, str_ltb (date_key b) (date_key a) = true) out ∧
  StronglySorted (λ a b, newer (date_key a) (date_key b)) out ∧
  (∀ fetch_from_source query,
     gather fetch_from_source rss_feeds query max_results [] = all_articles →
     fetch_news fetch_from_source query max_results = out).
Proof.
  intros Hnd Hwf ranked out.
  assert (ranked ≡ₚ all_articles) as Hperm by apply sorted_Permutation.
  assert (∀ a, a ∈ ranked →
            ∃ s, published_date a = Some s ∧ well_formed_date s) as Hwf'.
  { intros a Ha. rewrite Hperm in Ha. rewrite Forall_forall in Hwf. auto. }
  assert (NoDup (date_key <$> ranked)) as Hnd'.
  { rewrite Hperm. eapply (NoDup_fmap_2_strong _ all_articles); [|].
    - intros a b Ha Hb Hk. rewrite Forall_forall in Hwf.
      destruct (Hwf a Ha) as (s & Hs & _), (Hwf b Hb) as (t & Ht & _).
      unfold date_key in Hk. rewrite Hs, Ht in Hk. simpl in Hk. subst t.
      eapply (NoDup_fmap_elem_eq published_date all_articles); [done..|].
      congruence.
    - by apply NoDup_fmap_1 in Hnd. }
  assert (StronglySorted (descending str_ltb date_key) ranked) as Hdesc.
  { apply sorted_reverse_descending;
      [apply str_ltb_asym|apply str_ltb_trans_neg]. }
  assert (StronglySorted (λ a b, str_ltb (date_key b) (date_key a) = true)
                         ranked) as Hstrict.
  { apply (StronglySorted_strengthen date_key _ _ _ Hdesc Hnd').
    intros a b _ _ Hne Hab. unfold descending in Hab.
    destruct (str_ltb (date_key b) (date_key a)) eqn:E; [done|].
    exfalso. apply Hne. by apply str_ltb_total. }
  assert (StronglySorted (λ a b, newer (date_key a) (date_key b)) ranked)
    as Hnewer.
  { apply (StronglySorted_strengthen date_key _ _ _ Hstrict Hnd').
    intros a b Ha Hb _ Hlt.
    destruct (Hwf' a Ha) as (s & Hs & Hws), (Hwf' b Hb) as (t & Ht & Hwt).
    unfold date_key in *. rewrite Hs, Ht in *. simpl in *.
    by apply newer_of_str_ltb. }
  split_and!; [done|done|apply slice_to_prefix| | |].
  - by apply StronglySorted_slice_to.
  - by apply StronglySorted_slice_to.
  - intros fetch_from_source query Hall. unfold fetch_news. by rewrite Hall.
Qed.

Lemma feed_articles_well_formed :
  Forall (λ a, ∃ s, published_date a = Some s ∧ well_formed_date s)
         Examples.feed_articles.
Proof.
  repeat constructor.
  - exists (isoformat Examples.may_first). split; [done|].
    exists Examples.may_first. split; [|done]. unfold valid_datetime. simpl. lia.
  - exists (isoformat Examples.april_last). split; [done|].
    exists Examples.april_last. split; [|done]. unfold valid_datetime. simpl. lia.
  - exists (isoformat Examples.may_second). split; [done|].
    exists Examples.may_second. split; [|done]. unfold valid_datetime. simpl. lia.
Defined.

Lemma rss_fetch_news_newest_first_witness :
  NoDup (published_date <$> Examples.feed_articles) ∧
  published_date <$> Examples.feed_articles
    = [Some (lit "2024-05-01T10:00:00"); Some (lit "2024-04-30T23:59:59");
       Some (lit "2024-05-02T08:30:00")] ∧
  published_date
    <$> slice_to (sorted str_ltb date_key true Examples.feed_articles) 2
    = [Some (lit "2024-05-02T08:30:00"); Some (lit "2024-05-01T10:00:00")] ∧
  StronglySorted (λ a b, newer (date_key a) (date_key b))
    (slice_to (sorted str_ltb date_key true Examples.feed_articles) 2).
Proof.
  assert (NoDup (published_date <$> Examples.feed_articles)) as Hnd.
  { apply (bool_decide_unpack _). vm_compute. exact I. }
  split_and!; [done|reflexivity|reflexivity|].
  apply (rss_fetch_news_newest_first Examples.feed_articles 2 Hnd
           feed_articles_well_formed).
Defined.

End RssFacts.

(** ** Substrings *)

Section SubstringFacts.
Import Spec.

Lemma starts_with_spec (sub s : str) :
  starts_with sub s = true ↔ ∃ post, s = sub ++ post.
Proof.
  revert s. induction sub as [|a sub IH]; intros s; simpl.
  { split; [by exists s|done]. }
  destruct s as [|b s]; [split; [done|by intros [? ?]]|].
  rewrite andb_true_iff, bool_decide_eq_true, IH. split.
  - intros [-> [post ->]]. by exists post.
  - intros [post [= -> ->]]. split; [done|by exists post].
Qed.

Lemma contains_spec (s sub : str) :
  contains s sub = true ↔ occurs_in sub s.
Proof.
  unfold occurs_in. induction s as [|c s IH]; simpl.
  - rewrite orb_false_r, starts_with_spec. split.
    + intros [post Hs]. by exists [], post.
    + intros (pre & post & Hs). symmetry in Hs.
      apply app_eq_nil in Hs as [-> Hs]. by exists post.
  - rewrite orb_true_iff, starts_with_spec, IH. split.
    + intros [[post Hs]|(pre & post & ->)].
      * by exists [], post.
      * by exists (c :: pre), post.
    + intros ([|c' pre] & post & Hs); simpl in Hs.
      * left. by exists post.
      * right. injection Hs as -> ->. by exists pre, post.
Qed.

Lemma contains_false (s sub : str) :
  contains s sub = false ↔ ¬ occurs_in sub s.
Proof. rewrite <- contains_spec. by destruct (contains s sub). Qed.

Lemma occurs_in_lower (sub s : str) :
  occurs_in sub s → occurs_in (lower sub) (lower s).
Proof.
  intros (pre & post & ->). exists (lower pre), (lower post).
  unfold lower. by rewrite !map_app.
Qed.

Lemma occurs_in_app_l (sub s t : str) : occurs_in sub s → occurs_in sub (s ++ t).
Proof.
  intros (pre & post & ->). exists pre, (post ++ t). by rewrite <- !app_assoc.
Qed.

End SubstringFacts.

(** ** tutorial_links.py *)

Section TutorialLinksFacts.
Import TutorialLinks Spec.

Lemma add_keyword_score_points (title full_text keyword : str) (n : Z) :
  ∃ p, keyword_points title full_text keyword p ∧ 0 ≤ p ∧
       add_keyword_score title full_text n keyword = n + p.
Proof.
  unfold add_keyword_score.
  destruct (contains full_text keyword) eqn:Hfull.
  - apply contains_spec in Hfull.
    destruct (contains title keyword) eqn:Htitle.
    + apply contains_spec in Htitle. exists 2. by split; [constructor|].
    + apply contains_false in Htitle. exists 1. by split; [constructor|].
  - apply contains_false in Hfull. exists 0.
    split; [by constructor|]. lia.
Qed.

Lemma foldl_add_keyword_score (title full_text : str) (keywords : list str) :
  ∀ n, ∃ m, points_sum title full_text keywords m ∧ 0 ≤ m ∧
            foldl (add_keyword_score title full_text) n keywords = n + m.
Proof.
  induction keywords as [|k keywords IH]; intros n; simpl.
  { exists 0. split; [constructor|lia]. }
  destruct (add_keyword_score_points title full_text k n) as (p & Hp & Hp0 & ->).
  destruct (IH (n + p)) as (m & Hm & Hm0 & ->).
  exists (p + m). split; [by constructor|lia].
Qed.

(** The score is a function of the article. *)
Lemma keyword_points_unique (title full_text keyword : str) (p q : Z) :
  keyword_points title full_text keyword p →
  keyword_points title full_text keyword q → p = q.
Proof. by destruct 1; destruct 1. Qed.

Lemma points_sum_unique (title full_text : str) (keywords : list str) (n m : Z) :
  points_sum title full_text keywords n →
  points_sum title full_text keywords m → n = m.
Proof.
  intros Hn. revert m. induction Hn as [|k ks p n Hp Hn IH]; intros m Hm.
  - by inversion Hm.
  - inversion Hm as [|? ? q m' Hq Hm']; subst.
    rewrite (keyword_points_unique _ _ _ _ _ Hp Hq). f_equal. by apply IH.
Qed.

Lemma points_sum_nonneg (title full_text : str) (keywords : list str) (n : Z) :
  points_sum title full_text keywords n → 0 ≤ n.
Proof. induction 1 as [|k ks p n [] Hn IH]; lia. Qed.

Lemma points_sum_elem (title full_text : str) (keywords : list str)
    (n : Z) (k : str) :
  points_sum title full_text keywords n → k ∈ keywords →
  occurs_in k full_text → occurs_in k title → 2 ≤ n.
Proof.
  induction 1 as [|k' ks p n Hp Hn IH]; intros Hk Hfull Htitle.
  { by apply elem_of_nil in Hk. }
  apply points_sum_nonneg in Hn as Hn0.
  apply elem_of_cons in Hk as [<-|Hk].
  - destruct Hp; [lia|done|done].
  - destruct Hp; specialize (IH Hk Hfull Htitle); lia.
Qed.

Lemma points_sum_none (title full_text : str) (keywords : list str) (n : Z) :
  points_sum title full_text keywords n →
  (∀ k, k ∈ keywords → ¬ occurs_in k full_text) → n = 0.
Proof.
  induction 1 as [|k ks p n Hp Hn IH]; intros Hnone; [done|].
  rewrite IH by (intros k' Hk'; apply Hnone; by right).
  destruct Hp as [Hfull _|Hfull _|_]; [| |done];
    exfalso; eapply Hnone; [by left|done|by left|done].
Qed.

Lemma educational_score_of_spec (a : article) :
  educational_score a (educational_score_of a).
Proof.
  unfold educational_score, educational_score_of.
  destruct (foldl_add_keyword_score (lowered_title a) (lowered_text a)
              educational_keywords 0) as (m & Hm & _ & E).
  unfold lowered_title, lowered_text in *. rewrite E. by rewrite Z.add_0_l.
Qed.

(** C7. [should_show_learn_button] returns true exactly when the
    educational score is at least 2, where the score adds, over the
    educational keywords that occur in the lowercased title, description
    and content put together, 2 for a keyword that occurs in the lowercased
    title and 1 for any other.  So it returns true when the title contains
    "Tutorial", and false when no educational keyword occurs at all. *)
Theorem should_show_learn_button_iff_score (a : article) :
  (∃ n, educational_score a n ∧
        (∀ m, educational_score a m → m = n) ∧
        (should_show_learn_button a = true ↔ 2 ≤ n)) ∧
  (occurs_in "Tutorial" (get (title a) []) →
     should_show_learn_button a = true) ∧
  ((∀ k, k ∈ educational_keywords → ¬ occurs_in k (lowered_text a)) →
     should_show_learn_button a = false).
Proof.
  pose proof (educational_score_of_spec a) as Hscore.
  assert (∀ m, educational_score a m → m = educational_score_of a) as Huniq.
  { intros m Hm. by apply (points_sum_unique _ _ _ _ _ Hm). }
  unfold should_show_learn_button. split_and!.
  - exists (educational_score_of a). split_and!; [done..|].
    destruct (Z.geb_spec (educational_score_of a) 2); split; (done || lia).
  - intros Htitle%occurs_in_lower.
    assert (2 ≤ educational_score_of a) as Hn.
    { apply (points_sum_elem _ _ _ _ (lower "Tutorial") Hscore);
        [|by apply occurs_in_app_l|done].
      apply (bool_decide_unpack _). by vm_compute. }
    by destruct (Z.geb_spec (educational_score_of a) 2); [|lia].
  - intros Hnone. rewrite (points_sum_none _ _ _ _ Hscore Hnone). done.
Qed.

(** The keywords are a Python set, and the order in which the loop meets
    them does not change the score. *)
Lemma educational_score_order (title full_text : str) (ks ks' : list str) :
  ks ≡ₚ ks' →
  ∀ n, foldl (add_keyword_score title full_text) n ks
       = foldl (add_keyword_score title full_text) n ks'.
Proof.
  induction 1 as [|k ks ks' _ IH|k k' ks|ks ks' ks'' _ IH _ IH']; intros n; simpl.
  - done.
  - apply IH.
  - f_equal. unfold add_keyword_score.
    destruct (contains full_text k), (contains title k),
      (contains full_text k'), (contains title k'); lia.
  - by rewrite IH, IH'.
Qed.

(** The two examples of the specification. *)
Example tutorial_with_course_is_educational :
  educational_score_of Examples.python_tutorial = 3 ∧
  should_show_learn_button Examples.python_tutorial = true.
Proof. by vm_compute. Qed.

Example football_is_not_educational :
  educational_score_of Examples.football = 0 ∧
  should_show_learn_button Examples.football = false.
Proof. by vm_compute. Qed.

End TutorialLinksFacts.

(** ** summarization.py *)

Section SummarizationFacts.
Import Summarization Spec.

(** The four ways out of [summarize]. *)
Lemma summarize_paths (a : article) (max_sentences max_length : Z) :
  summarize a max_sentences max_length =
  if len (blob a) <? 100 then truncated (blob a) max_length
  else
    let sentences := split_into_sentences (blob a) in
    if len sentences =? 0 then truncated (get (description a) []) max_length
    else if len sentences <=? max_sentences
    then truncated (join " " sentences) max_length
    else
      let scored := score_sentences_advanced sentences (get (title a) []) in
      let top := slice_to (sorted PrimFloat.ltb snd true scored) max_sentences in
      let top := sorted Nat.ltb (λ x, index sentences x.1) false top in
      truncated_at_space (join " " (fst <$> top)) max_length.
Proof. reflexivity. Qed.

Lemma len_truncated (text : str) (max_length : Z) :
  0 ≤ max_length → len (truncated text max_length) ≤ max_length + len ellipsis.
Proof.
  intros HL. unfold truncated. destruct (Z.gtb_spec (len text) max_length).
  - rewrite len_app. pose proof (len_slice_to text max_length HL). lia.
  - unfold len at 2. lia.
Qed.

Lemma len_truncated_at_space (text : str) (max_length : Z) :
  0 ≤ max_length →
  len (truncated_at_space text max_length) ≤ max_length + len ellipsis.
Proof.
  intros HL. unfold truncated_at_space.
  destruct (Z.gtb_spec (len text) max_length).
  - rewrite len_app. pose proof (len_slice_to text max_length HL).
    pose proof (len_rsplit_head (slice_to text max_length)). lia.
  - unfold len at 2. lia.
Qed.

(** C2 (amended). For every article, every [max_sentences] and every
    [max_length] that is not negative, the string [summarize] returns has
    at most [max_length] characters plus the three of the ellipsis marker,
    on each of the four paths through the function. *)
Theorem summarize_length_bound (a : article) (max_sentences max_length : Z) :
  0 ≤ max_length →
  len (summarize a max_sentences max_length) ≤ max_length + 3.
Proof.
  intros HL. rewrite summarize_paths. change 3 with (len ellipsis).
  destruct (len (blob a) <? 100); [by apply len_truncated|].
  cbv zeta.
  destruct (len (split_into_sentences (blob a)) =? 0);
    [by apply len_truncated|].
  destruct (len (split_into_sentences (blob a)) <=? max_sentences);
    [by apply len_truncated|].
  by apply len_truncated_at_space.
Qed.

Lemma summarize_length_bound_witness :
  0 ≤ 60 ∧
  summarize Examples.medicine 2 60
  = lit "New AI Breakthrough in Medicine The new research shows..." ∧
  len (summarize Examples.medicine 2 60) ≤ 60 + 3.
Proof.
  split_and!; [lia|by vm_compute|].
  apply (summarize_length_bound Examples.medicine 2 60). lia.
Defined.

(** C2, as stated, fails for a negative [max_length]: the slice then drops
    characters from the end, and the marker is added to what is left. *)
Lemma summarize_negative_max_length :
  summarize Examples.no_fields 3 (-1) = lit ". ...." ∧
  ¬ (len (summarize Examples.no_fields 3 (-1)) ≤ -1 + 3).
Proof. split; [by vm_compute|]. vm_compute. by intros H. Qed.

(** C8. For an article whose text has fewer than 100 characters,
    [summarize] returns the text itself when it fits in [max_length], and
    otherwise the text cut to [max_length] followed by the ellipsis
    marker.  Sentences are neither split nor scored: the result does not
    depend on [max_sentences]. *)
Theorem summarize_short_text (a : article) (max_sentences max_length : Z) :
  len (blob a) < 100 →
  (len (blob a) ≤ max_length →
     summarize a max_sentences max_length = blob a) ∧
  (max_length < len (blob a) →
     summarize a max_sentences max_length
       = slice_to (blob a) max_length ++ ellipsis ∧
     (0 ≤ max_length →
        slice_to (blob a) max_length = take (Z.to_nat max_length) (blob a))) ∧
  (∀ n, summarize a n max_length = summarize a max_sentences max_length).
Proof.
  intros Hshort.
  assert (∀ n, summarize a n max_length = truncated (blob a) max_length) as E.
  { intros n. rewrite summarize_paths.
    by destruct (Z.ltb_spec (len (blob a)) 100); [|lia]. }
  rewrite !E. unfold truncated. split_and!.
  - intros Hfit. by destruct (Z.gtb_spec (len (blob a)) max_length); [lia|].
  - intros Hcut. split; [|apply slice_to_nonneg].
    by destruct (Z.gtb_spec (len (blob a)) max_length); [|lia].
  - intros n. by rewrite E.
Qed.

Lemma summarize_short_text_witness :
  len (blob Examples.short) < 100 ∧
  summarize Examples.short 3 250 = lit "Rain expected. Take an umbrella. " ∧
  summarize Examples.short 3 10 = lit "Rain expec...".
Proof.
  assert (len (blob Examples.short) < 100) as Hshort by (by vm_compute).
  destruct (summarize_short_text Examples.short 3 250 Hshort) as (Hfit & _ & _).
  destruct (summarize_short_text Examples.short 3 10 Hshort) as (_ & Hcut & _).
  split_and!; [done| |].
  - rewrite Hfit; [reflexivity|by vm_compute].
  - destruct Hcut as [-> _]; [by vm_compute|reflexivity].
Defined.

(** C4 (amended). For an article whose text has at least 100 characters:
    when at least one sentence survives the length filter and there are at
    most [max_sentences] of them, [summarize] returns all of them joined
    by single spaces, cut to [max_length] with the ellipsis marker when
    the joined text is longer; when no sentence survives, it returns the
    description, cut in the same way, whatever [max_sentences] is: the
    test for no sentence comes before [max_sentences] is read. *)
Theorem summarize_few_sentences (a : article) (max_sentences max_length : Z) :
  100 ≤ len (blob a) →
  (split_into_sentences (blob a) ≠ [] →
   len (split_into_sentences (blob a)) ≤ max_sentences →
     summarize a max_sentences max_length
       = truncated (join " " (split_into_sentences (blob a))) max_length) ∧
  (split_into_sentences (blob a) = [] →
     summarize a max_sentences max_length
       = truncated (get (description a) []) max_length).
Proof.
  intros Hlong. rewrite summarize_paths.
  destruct (Z.ltb_spec (len (blob a)) 100); [lia|]. cbv zeta.
  destruct (split_into_sentences (blob a)) as [|sentence sentences] eqn:E.
  - by split.
  - split; [intros _ Hfew|done].
    by destruct (Z.leb_spec (len (sentence :: sentences)) max_sentences); [|lia].
Qed.

Lemma summarize_few_sentences_witness :
  100 ≤ len (blob Examples.medicine) ∧
  split_into_sentences (blob Examples.medicine) ≠ [] ∧
  len (split_into_sentences (blob Examples.medicine)) ≤ 10 ∧
  summarize Examples.medicine 10 180
  = truncated (join " " (split_into_sentences (blob Examples.medicine))) 180 ∧
  summarize Examples.medicine 10 180
  = lit "New AI Breakthrough in Medicine Researchers announce a significant discovery The new research shows major improvements in patient care Doctors were surprised by the results of stud..." ∧
  100 ≤ len (blob Examples.tips) ∧
  split_into_sentences (blob Examples.tips) = [] ∧
  summarize Examples.tips (-1) 250
  = truncated (get (description Examples.tips) []) 250.
Proof.
  assert (100 ≤ len (blob Examples.medicine)) as Hlong by (by vm_compute).
  assert (split_into_sentences (blob Examples.medicine) ≠ []) as Hsome
    by (by vm_compute).
  assert (len (split_into_sentences (blob Examples.medicine)) ≤ 10) as Hfew
    by (by vm_compute).
  assert (100 ≤ len (blob Examples.tips)) as Hlong' by (by vm_compute).
  assert (split_into_sentences (blob Examples.tips) = []) as Hnone
    by (by vm_compute).
  split_and!; [done|done|done| |by vm_compute|done|done|].
  - by apply (summarize_few_sentences Examples.medicine 10 180 Hlong).
  - by apply (summarize_few_sentences Examples.tips (-1) 250 Hlong').
Defined.

(** C4, as stated, fails when no sentence survives: the text is long
    enough, every piece of it is a fragment of at most 20 characters, and
    [summarize] returns the description where the join of no sentence is
    the empty string. *)
Lemma summarize_without_sentences :
  100 ≤ len (blob Examples.tips) ∧
  split_into_sentences (blob Examples.tips) = [] ∧
  summarize Examples.tips 3 250
    = lit "Eat well. Sleep more. Walk daily. Drink water. Read books. Stay calm. Be kind. Have fun. Keep going." ∧
  truncated (join " " (split_into_sentences (blob Examples.tips))) 250 = [] ∧
  summarize Examples.tips 3 250
    ≠ truncated (join " " (split_into_sentences (blob Examples.tips))) 250.
Proof. split_and!; by vm_compute. Qed.

(** The sentences that are scored are sentences of the text, so that
    [sentences.index] finds each of the selected ones. *)
Lemma index_lookup {A} `{EqDecision A} (l : list A) (x : A) :
  x ∈ l → l !! index l x = Some x.
Proof.
  intros Hx. unfold index.
  destruct (list_find_elem_of (λ y, y = x) l x Hx eq_refl) as [[i y] Hfind].
  rewrite Hfind. simpl. by apply list_find_Some in Hfind as (? & -> & _).
Qed.

Lemma scored_sentences_elem (sentences : list str) (title : str)
    (x : str * float) :
  x ∈ score_sentences_advanced sentences title → x.1 ∈ sentences.
Proof.
  unfold score_sentences_advanced. destruct x as [s score].
  intros (o & Ho & Hx)%list_elem_of_omap. unfold id in Hx. subst o.
  apply elem_of_lookup_imap_1 in Ho as (i & sentence & Hscore & Hi).
  unfold score_sentence in Hscore.
  destruct (len (tokenize sentence) =? 0); [done|].
  pose proof (f_equal (λ o : option (str * float), from_option fst s o) Hscore)
    as E.
  cbn [from_option fst] in E. rewrite E. by eapply list_elem_of_lookup_2.
Qed.

Lemma top_sentences_elem (sentences : list str) (title : str)
    (max_sentences : Z) (x : str * float) :
  x ∈ slice_to (sorted PrimFloat.ltb snd true
                  (score_sentences_advanced sentences title)) max_sentences →
  sentences !! index sentences x.1 = Some x.1.
Proof.
  intros Hx. apply index_lookup, (scored_sentences_elem _ title).
  rewrite <- (sorted_Permutation PrimFloat.ltb snd true).
  eapply elem_of_prefix; [exact Hx|apply slice_to_prefix].
Qed.

(** The scenario of the specification: two sentences, joined by a space,
    within 180 characters. *)
Example summarize_scenario :
  summarize Examples.medicine 2 180
  = join " " [lit "New AI Breakthrough in Medicine";
              lit "The new research shows major improvements in patient care"] ∧
  len (summarize Examples.medicine 2 180) ≤ 180.
Proof. split; [by vm_compute|]. by vm_compute. Qed.

(** The sort keeps the order of equal keys, also in reverse. *)
Example sorted_is_stable :
  sorted Nat.ltb snd false [("a", 2); ("b", 1); ("c", 2); ("d", 1)]%nat
  = [("b", 1); ("d", 1); ("a", 2); ("c", 2)]%nat ∧
  sorted Nat.ltb snd true [("a", 2); ("b", 1); ("c", 2); ("d", 1)]%nat
  = [("a", 2); ("c", 2); ("b", 1); ("d", 1)]%nat.
Proof. by vm_compute. Qed.

End SummarizationFacts.

(** ** bookmarking.py: the other operations *)

Section BookmarkOperations.
Import Bookmarking.

Lemma is_bookmarked_spec (u : option str) (m : manager) :
  is_bookmarked u m = true ↔ ∃ b, b ∈ bookmarks m ∧ url b = u.
Proof.
  unfold is_bookmarked. rewrite existsb_exists. split.
  - intros (b & Hb%list_elem_of_In & Hu%bool_decide_eq_true). eauto.
  - intros (b & Hb%list_elem_of_In & Hu). exists b.
    split; [done|]. by apply bool_decide_eq_true.
Qed.

Lemma is_bookmarked_false (u : option str) (m : manager) :
  is_bookmarked u m = false ↔ ∀ b, b ∈ bookmarks m → url b ≠ u.
Proof.
  destruct (is_bookmarked u m) eqn:E.
  - apply is_bookmarked_spec in E as (b & Hb & Hu). split; [done|].
    intros H. by destruct (H b Hb).
  - split; [|done]. intros _ b Hb Hu.
    assert (is_bookmarked u m = true) as E' by (apply is_bookmarked_spec; eauto).
    congruence.
Qed.

(** The test of [add_bookmark] is the one [is_bookmarked] makes on the
    url of the article. *)
Lemma already_bookmarked_is_bookmarked (a : article) (m : manager) :
  already_bookmarked (bookmarks m) a = is_bookmarked (url a) m.
Proof.
  destruct (is_bookmarked (url a) m) eqn:E.
  - apply already_bookmarked_spec. by apply is_bookmarked_spec.
  - destruct (already_bookmarked (bookmarks m) a) eqn:E'; [|done].
    apply already_bookmarked_spec, is_bookmarked_spec in E'. congruence.
Qed.

Lemma add_bookmark_fresh (now : str) (a : article) (m : manager) :
  is_bookmarked (url a) m = false →
  add_bookmark now a m
  = (true, save_bookmarks {| bookmarks := new_bookmark now a :: bookmarks m;
                             saved := saved m |}).
Proof.
  intros E. unfold add_bookmark. by rewrite already_bookmarked_is_bookmarked, E.
Qed.

Lemma add_bookmark_known (now : str) (a : article) (m : manager) :
  is_bookmarked (url a) m = true → add_bookmark now a m = (false, m).
Proof.
  intros E. unfold add_bookmark. by rewrite already_bookmarked_is_bookmarked, E.
Qed.

Lemma is_bookmarked_after_add (now : str) (a : article) (m : manager) :
  is_Some (url a) → is_bookmarked (url a) (add_bookmark now a m).2 = true.
Proof.
  intros [u Hu]. destruct (is_bookmarked (url a) m) eqn:E.
  - by rewrite add_bookmark_known.
  - rewrite add_bookmark_fresh by done.
    apply is_bookmarked_spec. exists (new_bookmark now a).
    split; [left|]. simpl. by rewrite Hu.
Qed.

Lemma is_bookmarked_after_remove (u : option str) (m : manager) :
  is_bookmarked u (remove_bookmark u m) = false.
Proof.
  apply is_bookmarked_false. intros b Hb. simpl in Hb.
  by apply list_elem_of_filter in Hb as [? _].
Qed.

Lemma filter_other_urls (u : option str) (bs : list article) :
  (∀ b, b ∈ bs → url b ≠ u) → filter (λ b, url b ≠ u) bs = bs.
Proof.
  induction bs as [|b bs IH]; intros Hno; [done|].
  rewrite filter_cons_True by (apply Hno; left).
  f_equal. apply IH. intros b' Hb'. apply Hno. by right.
Qed.

(** [remove_bookmark(url)] leaves no bookmark with that url, keeps every
    other bookmark, in the order they had, and changes the answer of
    [is_bookmarked] for no other url. *)
Theorem remove_bookmark_removes_only_url (u : option str) (m : manager) :
  is_bookmarked u (remove_bookmark u m) = false ∧
  get_bookmarks (remove_bookmark u m)
    = filter (λ b, url b ≠ u) (get_bookmarks m) ∧
  get_bookmarks (remove_bookmark u m) `sublist_of` get_bookmarks m ∧
  (∀ v, v ≠ u →
     is_bookmarked v (remove_bookmark u m) = is_bookmarked v m) ∧
  (is_bookmarked u m = false →
     get_bookmarks (remove_bookmark u m) = get_bookmarks m).
Proof.
  split_and!.
  - apply is_bookmarked_after_remove.
  - done.
  - apply sublist_filter.
  - intros v Hv.
    destruct (is_bookmarked v m) eqn:E.
    + apply is_bookmarked_spec in E as (b & Hb & Hu).
      apply is_bookmarked_spec. exists b. split; [|done]. simpl.
      apply list_elem_of_filter. split; [congruence|done].
    + apply is_bookmarked_false. intros b Hb. simpl in Hb.
      apply list_elem_of_filter in Hb as [_ Hb].
      by apply (proj1 (is_bookmarked_false v m) E).
  - intros Hno. simpl. unfold get_bookmarks.
    apply filter_other_urls. by apply is_bookmarked_false.
Qed.

(** As long as the articles added carry a url, no two stored bookmarks
    share a url: [add_bookmark], [remove_bookmark] and
    [clear_all_bookmarks] keep the urls pairwise distinct. *)
Theorem bookmark_urls_stay_distinct (now : str) (a : article)
    (u : option str) (m : manager) :
  NoDup (url <$> get_bookmarks m) →
  (is_Some (url a) →
     NoDup (url <$> get_bookmarks (add_bookmark now a m).2)) ∧
  NoDup (url <$> get_bookmarks (remove_bookmark u m)) ∧
  NoDup (url <$> get_bookmarks (clear_all_bookmarks m)).
Proof.
  intros Hnd. split_and!.
  - intros [v Hv]. unfold add_bookmark.
    rewrite already_bookmarked_is_bookmarked.
    destruct (is_bookmarked (url a) m) eqn:E; [done|].
    simpl. rewrite Hv. simpl. constructor; [|done].
    intros (b & Hb & Hin)%list_elem_of_fmap.
    rewrite is_bookmarked_false in E. apply (E b Hin). congruence.
  - simpl. eapply sublist_NoDup; [|apply fmap_sublist, sublist_filter].
    done.
  - simpl. constructor.
Qed.

Lemma bookmark_urls_stay_distinct_witness :
  let stored :=
    (add_bookmark "2024-05-01T12:00:01" Examples.tips
       (add_bookmark "2024-05-01T12:00:00" Examples.medicine (init None)).2).2 in
  url <$> get_bookmarks stored
    = [Some (lit "https://example.org/tips");
       Some (lit "https://example.org/medicine")] ∧
  NoDup (url <$> get_bookmarks stored) ∧
  (* an article that is stored already, and one that is not *)
  NoDup (url <$> get_bookmarks
           (add_bookmark "2024-05-01T12:00:02" Examples.medicine stored).2) ∧
  NoDup (url <$> get_bookmarks
           (add_bookmark "2024-05-01T12:00:02"
              (Examples.dated "Feed item" Examples.may_first) stored).2) ∧
  length (get_bookmarks
            (add_bookmark "2024-05-01T12:00:02" Examples.medicine stored).2)
    = 2%nat ∧
  length (get_bookmarks
            (add_bookmark "2024-05-01T12:00:02"
               (Examples.dated "Feed item" Examples.may_first) stored).2)
    = 3%nat ∧
  NoDup (url <$> get_bookmarks
           (remove_bookmark (Some (lit "https://example.org/tips")) stored)).
Proof.
  intros stored.
  assert (NoDup (url <$> get_bookmarks stored)) as Hnd.
  { apply (bool_decide_unpack _). by vm_compute. }
  destruct (bookmark_urls_stay_distinct "2024-05-01T12:00:02" Examples.medicine
              (Some (lit "https://example.org/tips")) stored Hnd)
    as (Hstored & Hremoved & _).
  destruct (bookmark_urls_stay_distinct "2024-05-01T12:00:02"
              (Examples.dated "Feed item" Examples.may_first) None stored Hnd)
    as (Hfresh & _ & _).
  split_and!; [reflexivity|done| | |reflexivity|reflexivity|done].
  - apply Hstored. by eexists.
  - apply Hfresh. by eexists.
Defined.

(** An article without a url is never found among bookmarks that all
    carry one: [add_bookmark] stores it on every call, under the empty
    url, and [is_bookmarked] still answers false for it. *)
Theorem add_bookmark_without_url_repeats
    (now now' : str) (a : article) (m : manager) :
  url a = None →
  Forall (λ b, is_Some (url b)) (get_bookmarks m) →
  (add_bookmark now a m).1 = true ∧
  get_bookmark_count (add_bookmark now a m).2 = get_bookmark_count m + 1 ∧
  is_bookmarked (url a) (add_bookmark now a m).2 = false ∧
  (add_bookmark now' a (add_bookmark now a m).2).1 = true ∧
  url <$> take 2 (get_bookmarks (add_bookmark now' a (add_bookmark now a m).2).2)
    = [Some []; Some []].
Proof.
  intros Hu Hall. rewrite Forall_forall in Hall.
  assert (∀ m', Forall (λ b, is_Some (url b)) (bookmarks m') →
            is_bookmarked (url a) m' = false) as Hfresh.
  { intros m' Hm'. rewrite Forall_forall in Hm'.
    apply is_bookmarked_false. intros b Hb E.
    destruct (Hm' b Hb) as [v Hv]. congruence. }
  assert (∀ t m', is_bookmarked (url a) m' = false →
            add_bookmark t a m'
            = (true, save_bookmarks
                       {| bookmarks := new_bookmark t a :: bookmarks m';
                          saved := saved m' |})) as Hadd.
  { intros t m' E. unfold add_bookmark.
    by rewrite already_bookmarked_is_bookmarked, E. }
  assert (is_bookmarked (url a) m = false) as E0.
  { apply Hfresh, Forall_forall, Hall. }
  rewrite (Hadd now m E0). simpl.
  assert (is_bookmarked (url a)
            (save_bookmarks
               {| bookmarks := new_bookmark now a :: bookmarks m;
                  saved := saved m |}) = false) as E1.
  { apply Hfresh. simpl. constructor; [by eexists|].
    apply Forall_forall, Hall. }
  rewrite (Hadd now' _ E1). simpl.
  split_and!; [done| |done|done|by rewrite Hu].
  unfold get_bookmark_count, len. simpl. lia.
Qed.

Lemma add_bookmark_without_url_repeats_witness :
  url Examples.short = None ∧
  Forall (λ b, is_Some (url b)) (get_bookmarks (init None)) ∧
  (add_bookmark "2024-05-01T12:00:01" Examples.short
     (add_bookmark "2024-05-01T12:00:00" Examples.short (init None)).2).1 = true.
Proof.
  assert (Forall (λ b, is_Some (url b)) (get_bookmarks (init None))) as Hall
    by constructor.
  split_and!; [done|done|].
  apply (add_bookmark_without_url_repeats
           "2024-05-01T12:00:00" "2024-05-01T12:00:01"
           Examples.short (init None) eq_refl Hall).
Defined.

End BookmarkOperations.

(** ** main.py: the bookmark button and the two managers *)

Section BookmarkScreens.
Import Bookmarking Main.

(** A press on the bookmark button of an article that carries a url
    changes whether it is bookmarked, and the button shows the check mark
    exactly when it then is.  Two presses on an article that was not
    bookmarked leave the list of bookmarks as it was. *)
Theorem toggle_bookmark_flips (now now' : str) (a : article) (m : manager) :
  is_Some (url a) →
  is_bookmarked (url a) (toggle_bookmark now a m).2
    = negb (is_bookmarked (url a) m) ∧
  ((toggle_bookmark now a m).1 = check_mark
     ↔ is_bookmarked (url a) (toggle_bookmark now a m).2 = true) ∧
  (is_bookmarked (url a) m = false →
     get_bookmarks (toggle_bookmark now' a (toggle_bookmark now a m).2).2
       = get_bookmarks m).
Proof.
  intros Hu. unfold toggle_bookmark.
  pose proof (is_bookmarked_after_remove (url a) m) as Hrem.
  pose proof (is_bookmarked_after_add now a m Hu) as Hadd.
  destruct (is_bookmarked (url a) m) eqn:E; simpl.
  - rewrite Hrem. split_and!; [done| |done]. by split.
  - rewrite Hadd. split_and!; [done|done|]. intros _.
    rewrite add_bookmark_fresh by done. simpl.
    rewrite filter_cons_False.
    + apply filter_other_urls. by apply is_bookmarked_false.
    + simpl. destruct Hu as [u Hu]. rewrite Hu. simpl. by intros H.
Qed.

Lemma toggle_bookmark_flips_witness :
  is_Some (url Examples.medicine) ∧
  is_bookmarked (url Examples.medicine)
    (toggle_bookmark "2024-05-01T12:00:00" Examples.medicine (init None)).2
  = true.
Proof.
  assert (is_Some (url Examples.medicine)) as Hu by (by eexists).
  split; [done|].
  by destruct (toggle_bookmark_flips "2024-05-01T12:00:00" "2024-05-01T12:00:01"
                 Examples.medicine (init None) Hu) as [-> _].
Defined.

(** The bookmarks screen lists what its own manager read when the
    application started.  A bookmark added on the news screen is written
    to the file and is not shown on the bookmarks screen; a deletion on
    the bookmarks screen then writes the list of that screen, and the
    bookmark added on the news screen is gone from the file while the
    news screen still counts it as bookmarked. *)
Theorem screens_share_file_not_list
    (file : option (outcome (list article))) (now : str)
    (a bookmark : article) :
  is_Some (url a) →
  is_bookmarked (url a) (news_manager (start file)) = false →
  let added := press_bookmark now a (start file) in
  let deleted := delete_bookmark bookmark added in
  bookmarks_file added
    = Some (Returned (new_bookmark now a :: load_bookmarks file)) ∧
  shown_bookmarks added = load_bookmarks file ∧
  bookmarks_file deleted
    = Some (Returned (filter (λ b, url b ≠ url bookmark) (load_bookmarks file))) ∧
  shown_bookmarks deleted
    = filter (λ b, url b ≠ url bookmark) (load_bookmarks file) ∧
  (∀ b, b ∈ shown_bookmarks deleted → url b ≠ url a) ∧
  is_bookmarked (url a) (news_manager deleted) = true.
Proof.
  intros Hu Hfresh added deleted.
  change (news_manager (start file)) with (init file) in Hfresh.
  assert (toggle_bookmark now a (init file)
          = (check_mark,
             save_bookmarks {| bookmarks := new_bookmark now a :: load_bookmarks file;
                               saved := [] |})) as Htoggle.
  { unfold toggle_bookmark. rewrite Hfresh. by rewrite add_bookmark_fresh. }
  assert (news_manager added
          = save_bookmarks {| bookmarks := new_bookmark now a :: load_bookmarks file;
                              saved := [] |}) as Hnews.
  { unfold added, press_bookmark.
    change (news_manager (start file)) with (init file). by rewrite Htoggle. }
  split_and!.
  - unfold added, press_bookmark.
    change (news_manager (start file)) with (init file). by rewrite Htoggle.
  - done.
  - done.
  - done.
  - intros b Hb. simpl in Hb. apply list_elem_of_filter in Hb as [_ Hb].
    by apply (proj1 (is_bookmarked_false (url a) _) Hfresh).
  - change (news_manager deleted) with (news_manager added). rewrite Hnews.
    apply is_bookmarked_spec. exists (new_bookmark now a).
    split; [left|]. simpl. destruct Hu as [u Hu]. by rewrite Hu.
Qed.

Lemma screens_share_file_not_list_witness :
  is_Some (url Examples.medicine) ∧
  is_bookmarked (url Examples.medicine) (news_manager (start None)) = false ∧
  bookmarks_file
    (delete_bookmark Examples.tips
       (press_bookmark "2024-05-01T12:00:00" Examples.medicine (start None)))
  = Some (Returned []).
Proof.
  assert (is_Some (url Examples.medicine)) as Hu by (by eexists).
  split_and!; [done|done|].
  by destruct (screens_share_file_not_list None "2024-05-01T12:00:00"
                 Examples.medicine Examples.tips Hu eq_refl)
    as (_ & _ & -> & _).
Defined.

End BookmarkScreens.

(** ** news_fetcher.py: the order of the sources *)

Section SourceOrder.
Import NewsFetcher Spec.

Lemma fetch_from_guardian_run (self : fetcher) (net : network) (query : str)
    (max_articles : Z) (log : list request) :
  _fetch_from_guardian self net query max_articles log
  = match net (guardian_request self query max_articles) with
    | Returned body =>
        (Returned (guardian_article <$> guardian_results body),
         log ++ [guardian_request self query max_articles])
    | Raised => (Raised, log ++ [guardian_request self query max_articles])
    end.
Proof.
  unfold _fetch_from_guardian, mbind, M_bind, http_get.
  fold (guardian_request self query max_articles).
  by destruct (net _).
Qed.

Lemma fetch_from_newsapi_run (self : fetcher) (net : network) (query : str)
    (max_articles : Z) (log : list request) :
  _fetch_from_newsapi self net query max_articles log
  = match newsapi_key self with
    | None | Some [] => (Returned [], log)
    | Some key =>
        match net (newsapi_request key query max_articles) with
        | Returned body =>
            (Returned (newsapi_article <$> newsapi_results body),
             log ++ [newsapi_request key query max_articles])
        | Raised => (Raised, log ++ [newsapi_request key query max_articles])
        end
    end.
Proof.
  unfold _fetch_from_newsapi, mbind, M_bind, http_get.
  destruct (newsapi_key self) as [[|c key]|]; [done| |done].
  fold (newsapi_request (c :: key) query max_articles).
  by destruct (net _).
Qed.

(** What [fetch_news] accumulates, and the requests it makes: the
    Guardian is asked first, NewsAPI second and only with a key. *)
Lemma fetch_news_accumulates (self : fetcher) (net : network) (query : str)
    (max_articles : Z) (log : list request) :
  ∃ (g : list Guardian.item) (n : list NewsApi.item) (rest : list request),
    try_sources
      [_fetch_from_guardian self net query max_articles;
       _fetch_from_newsapi self net query max_articles]
      max_articles [] log
    = ((guardian_article <$> g) ++ (newsapi_article <$> n),
       log ++ guardian_request self query max_articles :: rest) ∧
    ((net (guardian_request self query max_articles) = Raised ∧ g = []) ∨
     ∃ body, net (guardian_request self query max_articles) = Returned body ∧
             g = guardian_results body) ∧
    ((rest = [] ∧ n = []) ∨
     ∃ key, newsapi_key self = Some key ∧ key ≠ [] ∧
            rest = [newsapi_request key query max_articles] ∧
            (n = [] ∨ ∃ body, net (newsapi_request key query max_articles)
                              = Returned body ∧ n = newsapi_results body)).
Proof.
  unfold try_sources.
  rewrite fetch_from_guardian_run.
  assert (∀ (articles : list article) log1,
    ∃ (n : list NewsApi.item) (rest : list request),
      match _fetch_from_newsapi self net query max_articles log1 with
      | (Returned [], log') => (articles, log')
      | (Returned (a :: fetched), log') =>
          if len (articles ++ a :: fetched) >=? max_articles
          then (articles ++ a :: fetched, log')
          else (articles ++ a :: fetched, log')
      | (Raised, log') => (articles, log')
      end = (articles ++ (newsapi_article <$> n), log1 ++ rest) ∧
      ((rest = [] ∧ n = []) ∨
       ∃ key, newsapi_key self = Some key ∧ key ≠ [] ∧
              rest = [newsapi_request key query max_articles] ∧
              (n = [] ∨ ∃ body, net (newsapi_request key query max_articles)
                                = Returned body ∧ n = newsapi_results body)))
    as Hsecond.
  { intros articles log1. rewrite fetch_from_newsapi_run.
    destruct (newsapi_key self) as [[|c key]|] eqn:Hkey.
    - exists [], []. rewrite !app_nil_r. split; [done|by left].
    - destruct (net (newsapi_request (c :: key) query max_articles))
        as [body|] eqn:Hnet.
      + exists (newsapi_results body), [newsapi_request (c :: key) query max_articles].
        split.
        * destruct (newsapi_article <$> newsapi_results body) as [|a fetched];
            [by rewrite app_nil_r|].
          by destruct (len _ >=? max_articles).
        * right. exists (c :: key). split_and!; [done..|]. right. eauto.
      + exists [], [newsapi_request (c :: key) query max_articles].
        rewrite app_nil_r. split; [done|].
        right. exists (c :: key). split_and!; [done..|]. by left.
    - exists [], []. rewrite !app_nil_r. split; [done|by left]. }
  destruct (net (guardian_request self query max_articles)) as [body|] eqn:Hg.
  - destruct (guardian_article <$> guardian_results body) as [|a fetched] eqn:Hres.
    + destruct (Hsecond [] (log ++ [guardian_request self query max_articles]))
        as (n & rest & Hrun & Hrest).
      exists (guardian_results body), n, rest.
      rewrite <- app_assoc in Hrun. rewrite Hres. simpl in *.
      split_and!; [|right; eauto|done].
      revert Hrun.
      destruct (_fetch_from_newsapi _ _ _ _ _) as [[[|??]|] ?]; simpl;
        try done; by destruct (len _ >=? _).
    + cbn [app].
      destruct (len (a :: fetched) >=? max_articles) eqn:Hfull.
      * exists (guardian_results body), [], []. rewrite Hres, app_nil_r.
        split_and!; [done|right; eauto|by left].
      * destruct (Hsecond (a :: fetched)
                    (log ++ [guardian_request self query max_articles]))
          as (n & rest & Hrun & Hrest).
        exists (guardian_results body), n, rest.
        rewrite <- app_assoc in Hrun. simpl in *. rewrite Hres.
        split_and!; [|right; eauto|done].
        revert Hrun.
      destruct (_fetch_from_newsapi _ _ _ _ _) as [[[|??]|] ?]; simpl;
        try done; by destruct (len _ >=? _).
  - destruct (Hsecond [] (log ++ [guardian_request self query max_articles]))
      as (n & rest & Hrun & Hrest).
    exists [], n, rest. rewrite <- app_assoc in Hrun. simpl in *.
    split_and!; [|by left|done].
    revert Hrun.
      destruct (_fetch_from_newsapi _ _ _ _ _) as [[[|??]|] ?]; simpl;
        try done; by destruct (len _ >=? _).
Qed.

Lemma prefix_sublist_of {A} (l k : list A) : l `prefix_of` k → l `sublist_of` k.
Proof. intros [m ->]. by apply sublist_inserts_r. Qed.

Lemma guardian_article_flag (items : list Guardian.item) :
  Forall (λ a, has_full_content a = Some true) (guardian_article <$> items).
Proof. apply Forall_fmap, Forall_true. done. Qed.

Lemma newsapi_article_flag (items : list NewsApi.item) :
  Forall (λ a, has_full_content a = Some false) (newsapi_article <$> items).
Proof. apply Forall_fmap, Forall_true. done. Qed.

(** When the Guardian answers with at least [max_articles] results,
    [fetch_news] makes that one request and no other: NewsAPI is not
    called, and every article of the output is a Guardian article, with
    its full content flagged. *)
Theorem guardian_alone_when_enough (self : fetcher) (net : network)
    (query : str) (max_articles : Z) (log : list request) (body : json) :
  net (guardian_request self query max_articles) = Returned body →
  guardian_results body ≠ [] →
  max_articles ≤ len (guardian_results body) →
  fetch_news self net query max_articles log
  = (slice_to (unique_articles (guardian_article <$> guardian_results body))
              max_articles,
     log ++ [guardian_request self query max_articles]) ∧
  Forall (λ a, has_full_content a = Some true)
         (fetch_news self net query max_articles log).1.
Proof.
  intros Hnet Hsome Hmany.
  assert (fetch_news self net query max_articles log
          = (slice_to (unique_articles (guardian_article <$> guardian_results body))
                      max_articles,
             log ++ [guardian_request self query max_articles])) as Hrun.
  { unfold fetch_news, try_sources. rewrite fetch_from_guardian_run, Hnet.
    destruct (guardian_results body) as [|item items] eqn:Hres; [done|].
    cbn [fmap list_fmap app].
    assert ((len (guardian_article item :: (guardian_article <$> items))
               >=? max_articles) = true) as ->; [|done].
    apply Z.geb_le. unfold len in *. simpl in *. rewrite length_fmap. lia. }
  split; [done|]. rewrite Hrun. simpl.
  apply Forall_forall. intros a Ha.
  pose proof (guardian_article_flag (guardian_results body)) as Hflag.
  rewrite Forall_forall in Hflag. apply Hflag.
  eapply elem_of_sublist; [exact Ha|].
  etrans; [apply prefix_sublist_of, slice_to_prefix|].
  rewrite unique_articles_first_seen. apply first_seen_from_sublist.
Qed.

Lemma guardian_alone_when_enough_witness :
  Examples.one_then_two (guardian_request Examples.with_newsapi_key "space" 1)
  = Returned (GuardianBody
      (Guardian.Data (Some (Guardian.Response (Some
         [Examples.guardian_item "Space Mission Launches" (Some (lit "Lift-off."))]))))) ∧
  (fetch_news Examples.with_newsapi_key Examples.one_then_two "space" 1 []).2
  = [guardian_request Examples.with_newsapi_key "space" 1].
Proof.
  split; [reflexivity|].
  by destruct (guardian_alone_when_enough Examples.with_newsapi_key
                 Examples.one_then_two "space" 1 [] _ eq_refl
                 ltac:(done) ltac:(by vm_compute)) as [-> _].
Defined.

(** The sources with full text come first: the output of [fetch_news] is
    a run of Guardian articles followed by a run of NewsAPI articles, and
    a title the Guardian returned is represented by a Guardian article,
    never by the NewsAPI article with the same title. *)
Theorem full_text_sources_first (self : fetcher) (net : network)
    (query : str) (max_articles : Z) (log : list request) :
  let out := (fetch_news self net query max_articles log).1 in
  (∃ full headlines,
     out = full ++ headlines ∧
     Forall (λ a, has_full_content a = Some true) full ∧
     Forall (λ a, has_full_content a = Some false) headlines) ∧
  (∀ body, net (guardian_request self query max_articles) = Returned body →
     ∀ a item, a ∈ out → item ∈ guardian_results body →
       title_of (guardian_article item) = title_of a →
       has_full_content a = Some true).
Proof.
  intros out.
  destruct (fetch_news_accumulates self net query max_articles log)
    as (g & n & rest & Hrun & Hg & _).
  assert (out = slice_to (unique_articles
                            ((guardian_article <$> g) ++ (newsapi_article <$> n)))
                         max_articles) as Hout.
  { unfold out, fetch_news. by rewrite Hrun. }
  destruct (unique_articles_deduplicated
              ((guardian_article <$> g) ++ (newsapi_article <$> n)) max_articles)
    as (kept & _ & Hsub & _ & Hfirst & Hprefix & _).
  rewrite <- Hout in Hprefix. split.
  - assert (out `sublist_of` (guardian_article <$> g) ++ (newsapi_article <$> n))
      as Hall by (etrans; [by apply prefix_sublist_of|done]).
    apply sublist_app_r in Hall as (full & headlines & -> & Hfull & Hhead).
    exists full, headlines. split_and!; [done| |].
    + apply Forall_forall. intros a Ha.
      pose proof (guardian_article_flag g) as Hflag.
      rewrite Forall_forall in Hflag. apply Hflag. by eapply elem_of_sublist.
    + apply Forall_forall. intros a Ha.
      pose proof (newsapi_article_flag n) as Hflag.
      rewrite Forall_forall in Hflag. apply Hflag. by eapply elem_of_sublist.
  - intros body Hnet a item Ha Hitem Htitle.
    assert (a ∈ kept) as Hkept by (by eapply elem_of_prefix).
    destruct (Hfirst a Hkept) as [Hne Hfind].
    destruct Hg as [[Hnet' _]|(body' & Hnet' & ->)]; [congruence|].
    rewrite Hnet in Hnet'. injection Hnet' as <-.
    unfold first_with_title in Hfind.
    destruct (list_find_elem_of (λ x, title_of x = title_of a)
                (guardian_article <$> guardian_results body)
                (guardian_article item)) as [[i x] Hx];
      [by apply list_elem_of_fmap_2|done|].
    rewrite (list_find_app_l _ _ _ _ _ Hx) in Hfind. simpl in Hfind.
    injection Hfind as <-. apply list_find_Some in Hx as (Hx & _).
    apply list_elem_of_lookup_2 in Hx.
    by apply list_elem_of_fmap in Hx as (? & -> & _).
Qed.

(** [fetch_news] asks the Guardian first and makes at most one more
    request, to NewsAPI and only with a key; when every request fails, it
    returns the empty list. *)
Theorem fetch_news_requests (self : fetcher) (net : network)
    (query : str) (max_articles : Z) (log : list request) :
  (∃ rest,
     (fetch_news self net query max_articles log).2
       = log ++ guardian_request self query max_articles :: rest ∧
     (rest = [] ∨
      ∃ key, newsapi_key self = Some key ∧ key ≠ [] ∧
             rest = [newsapi_request key query max_articles])) ∧
  ((∀ r, net r = Raised) →
     (fetch_news self net query max_articles log).1 = []).
Proof.
  destruct (fetch_news_accumulates self net query max_articles log)
    as (g & n & rest & Hrun & Hg & Hn).
  unfold fetch_news. rewrite Hrun. simpl. split.
  - exists rest. split; [done|].
    destruct Hn as [[-> _]|(key & ? & ? & -> & _)]; [by left|right; eauto].
  - intros Hdown.
    assert (g = []) as ->.
    { destruct Hg as [[_ ->]|(body & Hnet & _)]; [done|].
      by rewrite Hdown in Hnet. }
    assert (n = []) as ->.
    { destruct Hn as [[_ ->]|(key & _ & _ & _ & [->|(body & Hnet & _)])];
        [done..|]. by rewrite Hdown in Hnet. }
    change (slice_to [] max_articles = ([] : list article)).
    unfold slice_to. destruct (0 <=? max_articles); apply take_nil.
Qed.

End SourceOrder.

(** ** summarization.py: sentences and words *)

Section SentencesAndWords.
Import Summarization Spec.

Lemma reverse_rev {A} (l : list A) : reverse l = rev l.
Proof. unfold reverse. symmetry. apply rev_alt. Qed.

Lemma occurs_in_refl (s : str) : occurs_in s s.
Proof. exists [], []. by rewrite app_nil_r. Qed.

Lemma occurs_in_trans (s t u : str) :
  occurs_in s t → occurs_in t u → occurs_in s u.
Proof.
  intros (p & q & ->) (p' & q' & ->).
  exists (p' ++ p), (q ++ q'). by rewrite <- !app_assoc.
Qed.

Lemma occurs_in_suffix (s t : str) : s `suffix_of` t → occurs_in s t.
Proof. intros [p ->]. exists p, []. by rewrite app_nil_r. Qed.

Lemma occurs_in_prefix (s t : str) : s `prefix_of` t → occurs_in s t.
Proof. intros [q ->]. by exists [], q. Qed.

Lemma occurs_in_elem (s t : str) (c : ascii) : occurs_in s t → c ∈ s → c ∈ t.
Proof. intros (p & q & ->) Hc. rewrite !elem_of_app. auto. Qed.

(** [lstrip] and [strip] cut white space off the ends and nothing else. *)
Lemma lstrip_suffix (s : str) : lstrip s `suffix_of` s.
Proof.
  induction s as [|c s IH]; simpl; [done|].
  destruct (is_space c); [by apply suffix_cons_r|done].
Qed.

Lemma lstrip_head (s : str) (c : ascii) :
  head (lstrip s) = Some c → is_space c = false.
Proof.
  induction s as [|d s IH]; simpl; [done|].
  destruct (is_space d) eqn:E; [done|]. simpl. by intros [= <-].
Qed.

Lemma strip_prefix_of_lstrip (s : str) : strip s `prefix_of` lstrip s.
Proof.
  unfold strip. destruct (lstrip_suffix (rev (lstrip s))) as [p Hp].
  exists (rev p). rewrite <- rev_app_distr, <- Hp. by rewrite rev_involutive.
Qed.

Lemma strip_occurs_in (s : str) : occurs_in (strip s) s.
Proof.
  eapply occurs_in_trans;
    [apply occurs_in_prefix, strip_prefix_of_lstrip
    |apply occurs_in_suffix, lstrip_suffix].
Qed.

Lemma strip_ends (s : str) (c : ascii) :
  head (strip s) = Some c ∨ last (strip s) = Some c → is_space c = false.
Proof.
  intros [Hc|Hc].
  - destruct (strip_prefix_of_lstrip s) as [q Hq].
    apply (lstrip_head s). rewrite Hq. by destruct (strip s).
  - unfold strip in Hc. rewrite <- reverse_rev, last_reverse in Hc.
    by apply lstrip_head in Hc.
Qed.

(** The pieces [re.split] gives are parts of the text, without any of the
    characters it splits on. *)
Lemma re_split_pieces (text piece : str) (in_run : bool) (p : str) :
  p ∈ re_split piece in_run text →
  Forall (λ c, is_sentence_end c = false) piece →
  occurs_in p (rev piece ++ text) ∧ Forall (λ c, is_sentence_end c = false) p.
Proof.
  revert piece in_run. induction text as [|c text IH]; intros piece in_run; simpl.
  - intros ->%list_elem_of_singleton Hpiece. split.
    + rewrite app_nil_r. apply occurs_in_refl.
    + rewrite <- reverse_rev. by apply Forall_reverse.
  - assert (∀ q, occurs_in q text → occurs_in q (rev piece ++ c :: text)) as Hlater.
    { intros q (pre & post & ->). exists (rev piece ++ c :: pre), post.
      by rewrite <- !app_assoc. }
    destruct (is_sentence_end c) eqn:Hc.
    + destruct in_run.
      * intros Hp Hpiece. destruct (IH [] true Hp) as [Hocc Hno]; [done|].
        split; [by apply Hlater|done].
      * intros [->|Hp]%elem_of_cons Hpiece.
        -- split; [|rewrite <- reverse_rev; by apply Forall_reverse].
           by exists [], (c :: text).
        -- destruct (IH [] true Hp) as [Hocc Hno]; [done|].
           split; [by apply Hlater|done].
    + intros Hp Hpiece. destruct (IH (c :: piece) false Hp) as [Hocc Hno].
      { by constructor. }
      split; [|done]. simpl in Hocc. by rewrite <- app_assoc in Hocc.
Qed.

(** Every sentence [split_into_sentences] returns stands in the text as
    it is, has between 21 and 299 characters, has none of the characters
    that end a sentence, and neither starts nor ends with white space. *)
Theorem split_into_sentences_verbatim (text : str) :
  Forall (λ sentence,
            occurs_in sentence text ∧
            20 < len sentence < 300 ∧
            Forall (λ c, is_sentence_end c = false) sentence ∧
            (∀ c, head sentence = Some c ∨ last sentence = Some c →
                  is_space c = false))
         (split_into_sentences text).
Proof.
  apply Forall_forall. intros sentence Hs. unfold split_into_sentences in Hs.
  apply list_elem_of_filter in Hs as [Hlen Hs].
  apply list_elem_of_fmap in Hs as (piece & -> & Hpiece).
  apply re_split_pieces in Hpiece as [Hocc Hno]; [|constructor].
  split_and!; [|lia|lia| |].
  - eapply occurs_in_trans; [apply strip_occurs_in|done].
  - apply Forall_forall. intros c Hc. rewrite Forall_forall in Hno.
    apply Hno. eapply occurs_in_elem; [apply strip_occurs_in|done].
  - apply strip_ends.
Qed.





End SentencesAndWords.

(** ** summarization.py: the choice of the sentences *)

Section SentenceChoice.
Import Summarization Spec.

Lemma score_sentence_fst (word_freq : gmap str Z) (title_words : list str)
    (i : nat) (sentence : str) :
  fst <$> score_sentence word_freq title_words i sentence
  = if decide (tokenize sentence ≠ []) then Some sentence else None.
Proof.
  unfold score_sentence.
  destruct (tokenize sentence) as [|w ws] eqn:E.
  - by rewrite decide_False by (by intros H).
  - rewrite decide_True by done.
    assert ((len (w :: ws) =? 0) = false) as -> by (by apply Z.eqb_neq).
    reflexivity.
Qed.

Lemma omap_imap_fst (g : nat → str → option (str * float)) (l : list str) :
  (∀ i s, fst <$> g i s = if decide (tokenize s ≠ []) then Some s else None) →
  fst <$> omap id (imap g l) = filter (λ s, tokenize s ≠ []) l.
Proof.
  revert g. induction l as [|s l IH]; intros g Hg; [done|].
  cbn [imap omap list_omap]. specialize (Hg 0%nat s) as Hs. unfold id at 1.
  destruct (g 0%nat s) as [x|].
  - cbn [fmap option_fmap option_map] in Hs.
    destruct (decide (tokenize s ≠ [])); [|done].
    rewrite filter_cons_True by done. rewrite fmap_cons.
    injection Hs as ->. f_equal. apply IH. intros i. apply Hg.
  - cbn [fmap option_fmap option_map] in Hs.
    destruct (decide (tokenize s ≠ [])); [done|].
    rewrite filter_cons_False by done. apply IH. intros i. apply Hg.
Qed.

Lemma scored_sentences_fst (sentences : list str) (title : str) :
  fst <$> score_sentences_advanced sentences title
  = filter (λ s, tokenize s ≠ []) sentences.
Proof.
  unfold score_sentences_advanced. apply omap_imap_fst.
  intros i s. apply score_sentence_fst.
Qed.

(** [score_sentences_advanced] gives a score to each sentence that has a
    word, in the order of the sentences, and leaves out the sentences
    without a word: such a sentence is never chosen for a summary. *)
Theorem scored_sentences_in_order (sentences : list str) (title : str) :
  fst <$> score_sentences_advanced sentences title
    = filter (λ s, tokenize s ≠ []) sentences ∧
  fst <$> score_sentences_advanced sentences title `sublist_of` sentences ∧
  (∀ s score, tokenize s = [] →
     (s, score) ∉ score_sentences_advanced sentences title).
Proof.
  pose proof (scored_sentences_fst sentences title) as Hfst.
  split_and!; [done| |].
  - rewrite Hfst. apply sublist_filter.
  - intros s score Hs Hin. apply (list_elem_of_fmap_2 fst) in Hin.
    rewrite Hfst in Hin. by apply list_elem_of_filter in Hin as [? _].
Qed.

Lemma index_cons {A} `{EqDecision A} (a x : A) (l : list A) :
  index (a :: l) x
  = if decide (a = x) then 0%nat
    else if decide (x ∈ l) then S (index l x) else 0%nat.
Proof.
  unfold index. cbn [list_find]. destruct (decide (a = x)); [done|].
  destruct (decide (x ∈ l)) as [Hx|Hx].
  - destruct (list_find_elem_of (λ y, y = x) l x Hx eq_refl) as [[i y] ->].
    done.
  - destruct (list_find (λ y, y = x) l) as [[i y]|] eqn:E; [|done].
    apply list_find_Some in E as (Hi & -> & _).
    by apply list_elem_of_lookup_2 in Hi.
Qed.

(** Elements of a list, all different and in the order of their first
    places in it, are a sublist of it. *)
Lemma sorted_by_index_sublist {A} `{EqDecision A} (l k : list A) :
  NoDup k → (∀ x, x ∈ k → x ∈ l) →
  StronglySorted (λ x y, index l x ≤ index l y)%nat k →
  k `sublist_of` l.
Proof.
  revert k. induction l as [|a l IH]; intros k Hnd Hin Hsorted.
  { destruct k as [|x k]; [done|]. exfalso. apply (not_elem_of_nil x), Hin. left. }
  assert (∀ k', NoDup k' → (∀ x, x ∈ k' → x ∈ a :: l) → (∀ x, x ∈ k' → x ≠ a) →
            StronglySorted (λ x y, index (a :: l) x ≤ index (a :: l) y)%nat k' →
            k' `sublist_of` l) as Hrest.
  { intros k' Hnd' Hin' Hne Hs.
    assert (∀ x, x ∈ k' → x ∈ l) as Hl.
    { intros x Hx. pose proof (Hin' x Hx) as Hx'.
      apply elem_of_cons in Hx' as [->|Hx']; [by destruct (Hne a Hx)|done]. }
    apply IH; [done|done|].
    clear Hnd' Hin'. induction Hs as [|x k'' Hs IHs Hx]; [constructor|].
    constructor.
    - apply IHs; intros y Hy; [apply Hne|apply Hl]; by right.
    - rewrite Forall_forall in Hx |- *. intros y Hy. specialize (Hx y Hy).
      rewrite !index_cons in Hx.
      assert (x ≠ a) as Hxa by (apply Hne; left).
      assert (y ≠ a) as Hya by (apply Hne; by right).
      rewrite (decide_False (P := a = x)) in Hx by done.
      rewrite (decide_False (P := a = y)) in Hx by done.
      rewrite (decide_True (P := x ∈ l)) in Hx by (apply Hl; left).
      rewrite (decide_True (P := y ∈ l)) in Hx by (apply Hl; by right).
      lia. }
  destruct k as [|x k]; [apply sublist_nil_l|].
  apply NoDup_cons in Hnd as [Hx Hnd].
  apply StronglySorted_inv in Hsorted as [Hsorted Hfirst].
  destruct (decide (x = a)) as [->|Hxa].
  - apply sublist_skip, Hrest; [done| | |done].
    + intros y Hy. apply Hin. by right.
    + intros y Hy ->. done.
  - apply sublist_cons, Hrest; [by constructor|done| |by constructor].
    intros y Hy ->. apply elem_of_cons in Hy as [->|Hy]; [done|].
    rewrite Forall_forall in Hfirst. specialize (Hfirst a Hy).
    rewrite !index_cons in Hfirst.
    rewrite (decide_True (P := a = a)) in Hfirst by done.
    rewrite (decide_False (P := a = x)) in Hfirst by done.
    assert (x ∈ l) as Hxl.
    { pose proof (Hin x ltac:(left)) as Hx'.
      apply elem_of_cons in Hx' as [->|Hx']; done. }
    rewrite (decide_True (P := x ∈ l)) in Hfirst by done. lia.
Qed.

Lemma nat_ltb_asym (x y : nat) : Nat.ltb x y = true → Nat.ltb y x = false.
Proof. rewrite Nat.ltb_lt, Nat.ltb_ge. lia. Qed.

Lemma nat_ltb_trans_neg (x y z : nat) :
  Nat.ltb y x = false → Nat.ltb z y = false → Nat.ltb z x = false.
Proof. rewrite !Nat.ltb_ge. lia. Qed.

Lemma ascending_by_index_fst {A B} `{EqDecision A} (l : list A) (k : list (A * B)) :
  StronglySorted (ascending Nat.ltb (λ x, index l x.1)) k →
  StronglySorted (λ x y, index l x ≤ index l y)%nat (fst <$> k).
Proof.
  induction 1 as [|x k' Hk IHk Hx]; [constructor|].
  rewrite fmap_cons. constructor; [done|].
  rewrite Forall_fmap. eapply Forall_impl; [exact Hx|].
  intros y Hxy. unfold ascending in Hxy. simpl. by apply Nat.ltb_ge in Hxy.
Qed.

(** The sentences chosen on the scoring path: at most [max_sentences] of
    them, and, when no sentence stands twice in the text, in the order
    they have in the text. *)
Lemma chosen_sentences (sentences : list str) (title : str) (max_sentences : Z) :
  0 ≤ max_sentences → NoDup sentences →
  let top :=
    slice_to (sorted PrimFloat.ltb snd true
                (score_sentences_advanced sentences title)) max_sentences in
  let chosen := fst <$> sorted Nat.ltb (λ x, index sentences x.1) false top in
  chosen `sublist_of` sentences ∧ len chosen ≤ max_sentences.
Proof.
  intros Hmax Hnd top chosen.
  set (scored := score_sentences_advanced sentences title) in *.
  set (ranked := sorted PrimFloat.ltb snd true scored) in *.
  assert (NoDup (fst <$> scored)) as Hscored.
  { unfold scored. rewrite scored_sentences_fst.
    eapply sublist_NoDup; [exact Hnd|apply sublist_filter]. }
  assert (top `sublist_of` ranked) as Htop
    by apply prefix_sublist_of, slice_to_prefix.
  assert (ranked ≡ₚ scored) as Hranked by apply sorted_Permutation.
  assert (NoDup (fst <$> top)) as Hnd_top.
  { eapply sublist_NoDup; [|apply fmap_sublist, Htop]. by rewrite Hranked. }
  set (ordered := sorted Nat.ltb (λ x, index sentences x.1) false top) in *.
  assert (ordered ≡ₚ top) as Hordered by apply sorted_Permutation.
  split.
  - apply sorted_by_index_sublist.
    + unfold chosen. by rewrite Hordered.
    + intros s (x & -> & Hx)%list_elem_of_fmap.
      apply (scored_sentences_elem sentences title). fold scored.
      rewrite <- Hranked. eapply elem_of_sublist; [|exact Htop].
      by rewrite <- Hordered.
    + unfold chosen.
      apply ascending_by_index_fst.
      apply (sort_ascending_ascending Nat.ltb (λ x, index sentences x.1)
               nat_ltb_asym nat_ltb_trans_neg top).
  - unfold chosen, len. rewrite length_fmap, Hordered.
    pose proof (len_slice_to ranked max_sentences Hmax). by unfold len in *.
Qed.

(** summarization.py, [summarize], the scoring path: when the text has
    100 characters or more and more sentences than [max_sentences], none
    of them twice, the summary is made of at most [max_sentences] of the
    text's sentences, in the order they have in the text, joined by
    spaces and cut at a space when longer than [max_length]. *)
Theorem summarize_keeps_text_order (a : article) (max_sentences max_length : Z) :
  100 ≤ len (blob a) →
  NoDup (split_into_sentences (blob a)) →
  0 ≤ max_sentences < len (split_into_sentences (blob a)) →
  ∃ chosen,
    chosen `sublist_of` split_into_sentences (blob a) ∧
    len chosen ≤ max_sentences ∧
    summarize a max_sentences max_length
    = truncated_at_space (join " " chosen) max_length.
Proof.
  intros Hlong Hnd [Hmax Hmore].
  pose proof (chosen_sentences (split_into_sentences (blob a))
                (get (title a) []) max_sentences Hmax Hnd) as [Hsub Hlen].
  eexists. split; [exact Hsub|]. split; [exact Hlen|].
  rewrite summarize_paths.
  destruct (Z.ltb_spec (len (blob a)) 100); [lia|].
  cbv zeta.
  destruct (Z.eqb_spec (len (split_into_sentences (blob a))) 0); [lia|].
  destruct (Z.leb_spec (len (split_into_sentences (blob a))) max_sentences); [lia|].
  reflexivity.
Qed.

Lemma summarize_keeps_text_order_witness :
  ∃ chosen,
    chosen `sublist_of` split_into_sentences (blob Examples.medicine) ∧
    len chosen ≤ 2 ∧
    summarize Examples.medicine 2 180 = truncated_at_space (join " " chosen) 180.
Proof.
  apply (summarize_keeps_text_order Examples.medicine 2 180).
  - by vm_compute.
  - apply (bool_decide_unpack _). by vm_compute.
  - split; by vm_compute.
Defined.

End SentenceChoice.

(** ** summarization.py: the key phrases *)

Section KeyPhrases.
Import Summarization Spec.

Lemma count_of_count_one (x item : str) (counts : list (str * Z)) :
  count_of x (count_one counts item)
  = count_of x counts + (if decide (item = x) then 1 else 0).
Proof.
  induction counts as [|[y n] counts IH]; simpl.
  - destruct (decide (item = x)); lia.
  - destruct (bool_decide_reflect (y = item)) as [->|Hy]; simpl.
    + destruct (decide (item = x)); lia.
    + destruct (decide (y = x)) as [->|]; [|done].
      rewrite decide_False by done. lia.
Qed.

Lemma keys_count_one (item : str) (counts : list (str * Z)) :
  fst <$> count_one counts item
  = if decide (item ∈ fst <$> counts) then fst <$> counts
    else (fst <$> counts) ++ [item].
Proof.
  induction counts as [|[y n] counts IH]; [done|].
  cbn [count_one]. rewrite fmap_cons. cbn [fst].
  destruct (bool_decide_reflect (y = item)) as [->|Hy].
  - rewrite fmap_cons. cbn [fst]. rewrite decide_True; [done|left].
  - rewrite fmap_cons, IH. cbn [fst].
    destruct (decide (item ∈ counts.*1)) as [Hin|Hout].
    + rewrite decide_True; [done|by right].
    + rewrite decide_False; [done|].
      intros [->|?]%elem_of_cons; done.
Qed.

Lemma count_of_elem (x : str) (c : Z) (counts : list (str * Z)) :
  NoDup (fst <$> counts) → (x, c) ∈ counts → count_of x counts = c.
Proof.
  induction counts as [|[y n] counts IH]; simpl; intros Hnd Hin.
  - by apply elem_of_nil in Hin.
  - apply NoDup_cons in Hnd as [Hy Hnd].
    apply elem_of_cons in Hin as [[= -> ->]|Hin].
    + by rewrite decide_True.
    + rewrite decide_False; [by apply IH|].
      intros ->. apply Hy. by apply (list_elem_of_fmap_2 fst) in Hin.
Qed.

Lemma counted_from (acc : list (str * Z)) (items : list str) :
  NoDup (fst <$> acc) →
  NoDup (fst <$> foldl count_one acc items)
  ∧ (∀ x, x ∈ fst <$> foldl count_one acc items ↔ x ∈ fst <$> acc ∨ x ∈ items)
  ∧ (∀ x, count_of x (foldl count_one acc items)
          = count_of x acc + occurrences x items).
Proof.
  revert acc. induction items as [|item items IH]; intros acc Hnd; simpl.
  { split; [done|]. split.
    - intros x. rewrite elem_of_nil. tauto.
    - intros x. unfold occurrences, len. simpl. lia. }
  assert (NoDup (fst <$> count_one acc item)) as Hnd'.
  { rewrite keys_count_one. destruct (decide (item ∈ acc.*1)); [done|].
    apply NoDup_app. split; [done|]. split; [|apply NoDup_singleton].
    by intros x Hx ->%list_elem_of_singleton. }
  destruct (IH _ Hnd') as (Hkeys & Hin & Hcount).
  split; [done|]. split.
  - intros x. rewrite Hin, keys_count_one, elem_of_cons.
    destruct (decide (item ∈ acc.*1)) as [Hitem|Hitem].
    + split; [tauto|]. intros [?|[->|?]]; tauto.
    + rewrite elem_of_app, list_elem_of_singleton. tauto.
  - intros x. rewrite Hcount, count_of_count_one.
    unfold occurrences, len. rewrite filter_cons.
    destruct (decide (item = x)); simpl; lia.
Qed.

(** The counter holds each item of the list once, with the number of times
    it stands in the list. *)
Lemma counted_spec (items : list str) :
  NoDup (fst <$> counted items)
  ∧ ∀ x c, (x, c) ∈ counted items → x ∈ items ∧ c = occurrences x items.
Proof.
  destruct (counted_from [] items (NoDup_nil_2)) as (Hnd & Hin & Hcount).
  split; [done|]. intros x c Hx. split.
  - apply (list_elem_of_fmap_2 fst) in Hx. apply Hin in Hx as [Hx|Hx]; [|done].
    by apply elem_of_nil in Hx.
  - rewrite <- (count_of_elem x c (counted items) Hnd Hx).
    unfold counted. rewrite Hcount. simpl. lia.
Qed.


Lemma most_common_split (n : Z) (counts : list (str * Z)) :
  ∃ rest, most_common n counts ++ rest = sorted Z.ltb snd true counts
          ∧ len (most_common n counts) ≤ Z.max 0 n.
Proof.
  unfold most_common. destruct (Z.leb_spec n 0).
  - eexists. split; [reflexivity|]. unfold len. simpl. lia.
  - exists (drop (Z.to_nat n) (sorted Z.ltb snd true counts)).
    split; [apply take_drop|]. unfold len. rewrite length_take. lia.
Qed.

Lemma bigrams_adjacent (words : list str) (p : str) :
  p ∈ bigrams words →
  ∃ w w', adjacent w w' words ∧ (w ∉ stop_words) ∧ p = (w ++ " " ++ w').
Proof.
  induction words as [|w [|w' words] IH]; simpl; intros Hp;
    try by apply elem_of_nil in Hp.
  apply elem_of_app in Hp as [Hp|Hp].
  - destruct (bool_decide_reflect (w ∈ stop_words)) as [|Hw];
      [by apply elem_of_nil in Hp|].
    apply list_elem_of_singleton in Hp as ->.
    exists w, w'. split; [by exists [], words|done].
  - destruct (IH Hp) as (v & v' & (before & after & Heq) & Hv & ->).
    exists v, v'. split; [|done].
    exists (w :: before), after. by rewrite Heq.
Qed.



(** summarization.py, [get_key_phrases]: the phrases returned are distinct,
    at most [num_phrases] of them (none for a number below one), and each
    is made of two words that stand next to each other in the tokenized
    text, the first of them no stop word, with one space between. *)
Theorem get_key_phrases_are_neighbours (a : article) (num_phrases : Z) :
  NoDup (get_key_phrases a num_phrases)
  ∧ len (get_key_phrases a num_phrases) ≤ Z.max 0 num_phrases
  ∧ ∀ p, p ∈ get_key_phrases a num_phrases →
      ∃ w w', adjacent w w' (tokenize (phrase_text a))
              ∧ (w ∉ stop_words) ∧ p = (w ++ " " ++ w').
Proof.
  unfold get_key_phrases. fold (phrase_text a).
  set (phrases := bigrams (tokenize (phrase_text a))).
  destruct (most_common_split num_phrases (counted phrases)) as (rest & Hsplit & Hlen).
  destruct (counted_spec phrases) as [Hnd Hcounted].
  assert (most_common num_phrases (counted phrases) `sublist_of`
            sorted Z.ltb snd true (counted phrases)) as Hsub.
  { rewrite <- Hsplit. by apply sublist_inserts_r. }
  split; [|split].
  - eapply sublist_NoDup; [|apply fmap_sublist, Hsub].
    by rewrite sorted_Permutation.
  - unfold len in *. by rewrite length_fmap.
  - intros p ([q c] & -> & Hq)%list_elem_of_fmap. simpl.
    apply bigrams_adjacent. fold phrases.
    eapply (Hcounted q c).
    rewrite <- (sorted_Permutation Z.ltb snd true).
    eapply elem_of_sublist; [exact Hq|exact Hsub].
Qed.


End KeyPhrases.

(** ** news_fetcher.py: the readers of an article *)

Section Readers.
Import NewsFetcher Spec.

Lemma get_article_preview_paths (a : article) (max_length : Z) :
  get_article_preview a max_length
  = truncated (if (get_full_text a).1 then (get_full_text a).2
               else get (description a) []) max_length.
Proof.
  unfold get_article_preview, get_full_text, truncated.
  by destruct (get (has_full_content a) false && truthy (get (content a) [])).
Qed.

(** news_fetcher.py, [get_article_preview]: for a limit that is not
    negative the preview is no longer than the limit and the three dots,
    whichever of the two texts it is taken from. *)
Theorem get_article_preview_length (a : article) (max_length : Z) :
  0 ≤ max_length →
  len (get_article_preview a max_length) ≤ max_length + 3.
Proof.
  intros Hmax. rewrite get_article_preview_paths.
  set (text := if (get_full_text a).1 then _ else _).
  unfold truncated. destruct (Z.gtb_spec (len text) max_length) as [Hlong|Hshort].
  - rewrite len_app. pose proof (len_slice_to text max_length Hmax).
    change (len ellipsis) with 3. lia.
  - lia.
Qed.

Lemma get_article_preview_length_witness :
  len (get_article_preview (guardian_article (Examples.guardian_item "Budget"
         (Some (lit "The chancellor set out the budget in full today."))))
         10) ≤ 10 + 3.
Proof. apply get_article_preview_length. lia. Defined.

(** news_fetcher.py, [_fetch_from_newsapi] with [get_article_preview],
    [has_full_article] and [get_full_text]: of an article from NewsAPI
    the content is never shown: the preview is cut from the description
    (or its default), and the reader has no full text for it. *)
Theorem newsapi_article_shows_description (item : NewsApi.item) (max_length : Z) :
  get_article_preview (newsapi_article item) max_length
  = truncated (get (NewsApi.description item) (lit "No description available"))
      max_length
  ∧ has_full_article (newsapi_article item) = false
  ∧ (get_full_text (newsapi_article item)).1 = false.
Proof.
  split; [|done]. rewrite get_article_preview_paths.
  unfold get_full_text. cbn [newsapi_article has_full_content get].
  rewrite andb_false_l. cbn [fst description]. reflexivity.
Qed.

(** news_fetcher.py, [_fetch_from_guardian] with [get_article_preview],
    [has_full_article] and [get_full_text]: [has_full_article] holds of
    every article from the Guardian, but the reader has a full text, and
    the preview is cut from it, only when the body text is there and not
    empty; otherwise the preview is cut from the trail text (or its
    default). *)
Theorem guardian_article_shows_body (item : Guardian.item) (max_length : Z) :
  let fields := get (Guardian.fields item) (Guardian.Fields None None None None) in
  let body := get (Guardian.bodyText fields) [] in
  has_full_article (guardian_article item) = true
  ∧ get_full_text (guardian_article item)
    = (if truthy body then (true, body)
       else (false, lit "Full article not available. Click 'Open in Browser' to read more."))
  ∧ get_article_preview (guardian_article item) max_length
    = truncated (if truthy body then body
                 else get (Guardian.trailText fields) (lit "No description available"))
        max_length.
Proof.
  intros fields body. split; [done|].
  assert (get_full_text (guardian_article item)
          = if truthy body then (true, body)
            else (false, lit "Full article not available. Click 'Open in Browser' to read more."))
    as Hfull by done.
  split; [done|].
  rewrite get_article_preview_paths, Hfull.
  by destruct (truthy body).
Qed.

End Readers.

(** ** tutorial_links.py: the links *)

Section TutorialSearch.
Import TutorialLinks Spec.

(** The words [re.findall] gives are runs of word characters of the text. *)
Lemma findall_go_words (s word w : str) :
  w ∈ findall_go word s →
  Forall (λ c, is_word_char c = true) word →
  Forall (λ c, is_word_char c = true) w ∧ occurs_in w (rev word ++ s).
Proof.
  revert word. induction s as [|c s IH]; intros word; simpl.
  - destruct word as [|d word]; [by intros ?%elem_of_nil|].
    intros ->%list_elem_of_singleton Hword. split.
    + rewrite <- reverse_rev. by apply Forall_reverse.
    + rewrite app_nil_r. apply occurs_in_refl.
  - assert (∀ q, occurs_in q (rev [] ++ s) → occurs_in q (rev word ++ c :: s))
      as Hlater.
    { intros q (pre & post & Hq). simpl in Hq. rewrite Hq.
      exists (rev word ++ c :: pre), post. by rewrite <- !app_assoc. }
    destruct (is_word_char c) eqn:Hc.
    + intros Hw Hword. destruct (IH (c :: word) Hw) as [Hall Hocc].
      { by constructor. }
      split; [done|]. simpl in Hocc. by rewrite <- app_assoc in Hocc.
    + destruct word as [|d word].
      * intros Hw _. destruct (IH [] Hw) as [? ?]; [done|]. auto.
      * intros [->|Hw]%elem_of_cons Hword.
        -- split; [rewrite <- reverse_rev; by apply Forall_reverse|].
           by exists [], (c :: s).
        -- destruct (IH [] Hw) as [? ?]; [done|]. auto.
Qed.

Lemma lower_char_idemp (c : ascii) : lower_char (lower_char c) = lower_char c.
Proof. by destruct c as [[] [] [] [] [] [] [] []]; vm_compute. Qed.

Lemma quote_char_word (c : ascii) : is_word_char c = true → quote_char c = [c].
Proof. intros Hc. unfold quote_char, is_unreserved. by rewrite Hc. Qed.

Lemma quote_plus_app (s t : str) :
  quote_plus (s ++ t) = quote_plus s ++ quote_plus t.
Proof. unfold quote_plus. by rewrite fmap_app, concat_app. Qed.

Lemma quote_plus_word (w : str) :
  Forall (λ c, is_word_char c = true) w → quote_plus w = w.
Proof.
  induction 1 as [|c w Hc Hw IH]; [done|].
  change (quote_plus (c :: w)) with (quote_char c ++ quote_plus w).
  by rewrite quote_char_word, IH.
Qed.

Lemma quote_plus_join (words : list str) :
  Forall (Forall (λ c, is_word_char c = true)) words →
  quote_plus (join " " words) = join "+" words.
Proof.
  induction 1 as [|w words Hw Hwords IH]; [done|].
  destruct words as [|w' words]; [by apply quote_plus_word|].
  change (join " " (w :: w' :: words)) with (w ++ " " ++ join " " (w' :: words)).
  change (join "+" (w :: w' :: words)) with (w ++ "+" ++ join "+" (w' :: words)).
  by rewrite !quote_plus_app, quote_plus_word, IH.
Qed.

(** tutorial_links.py, [get_tutorial_link] with [extract_key_terms]: for
    an article whose title has ASCII characters only, the link is the
    YouTube search address followed by the first three key words of the
    title, joined by [+], and by [+tutorial], with no character escaped.
    Each key word is a run of lowercase letters, digits and underscores
    of the lowercased title, of more than three characters, and not one
    of the eleven stop words.  The description and the detected topic
    have no part in the link.  (A title with a letter beyond ASCII is
    another matter: the letter is a word character for Python, and
    [quote_plus] escapes it.) *)
Theorem get_tutorial_link_terms (a : article) :
  isascii (get (title a) []) = true →
  let terms := slice_to (key_words (get (title a) [])) 3 in
  get_tutorial_link a
  = "https://www.youtube.com/results?search_query=" ++ join "+" terms ++ "+tutorial"
  ∧ len terms ≤ 3
  ∧ Forall (λ w,
              3 < len w ∧ (w ∉ TutorialLinks.stop_words) ∧
              occurs_in w (lower (get (title a) [])) ∧
              Forall (λ c, is_word_char c = true ∧ lower_char c = c) w)
           terms.
Proof.
  intros Hascii terms.
  assert (Forall (λ w,
              3 < len w ∧ (w ∉ TutorialLinks.stop_words) ∧
              occurs_in w (lower (get (title a) [])) ∧
              Forall (λ c, is_word_char c = true ∧ lower_char c = c) w)
           terms) as Hterms.
  { apply Forall_forall. intros w Hw.
    assert (w ∈ key_words (get (title a) [])) as Hkey.
    { eapply elem_of_prefix; [exact Hw|apply slice_to_prefix]. }
    apply list_elem_of_filter in Hkey as [[Hstop Hlen] Hword].
    apply findall_go_words in Hword as [Hchars Hocc]; [|done].
    split_and!; [lia|done|done|].
    apply Forall_forall. intros c Hc. split.
    - rewrite Forall_forall in Hchars. by apply Hchars.
    - pose proof (occurs_in_elem _ _ c Hocc Hc) as Hin. simpl in Hin.
      apply list_elem_of_In, in_map_iff in Hin as (d & <- & _).
      apply lower_char_idemp. }
  split_and!; [|apply len_slice_to; lia|done].
  unfold get_tutorial_link, extract_key_terms. fold terms.
  rewrite quote_plus_app, quote_plus_join; [done|].
  eapply Forall_impl; [exact Hterms|]. intros w (_ & _ & _ & Hw).
  eapply Forall_impl; [exact Hw|]. by intros c [? _].
Qed.

Lemma get_tutorial_link_terms_witness :
  isascii (get (title Examples.python_tutorial) []) = true ∧
  get_tutorial_link Examples.python_tutorial
  = lit "https://www.youtube.com/results?search_query=python+tutorial+beginners+tutorial" ∧
  get_tutorial_link Examples.python_tutorial
  = "https://www.youtube.com/results?search_query="
    ++ join "+" (slice_to (key_words (get (title Examples.python_tutorial) [])) 3)
    ++ "+tutorial".
Proof.
  assert (isascii (get (title Examples.python_tutorial) []) = true) as Hascii
    by reflexivity.
  split_and!; [done|reflexivity|].
  by destruct (get_tutorial_link_terms Examples.python_tutorial Hascii) as [-> _].
Defined.

(** [quote_plus] writes one character of its input after the other, and
    what it writes for a character tells which character it was. *)
Lemma hex_digit_inj (n m : nat) :
  (n < 16)%nat → (m < 16)%nat → hex_digit n = hex_digit m → n = m.
Proof.
  intros Hn Hm.
  do 16 (destruct n as [|n]; [do 16 (destruct m as [|m]; [done|]); lia|]); lia.
Qed.

Lemma hex_digit_safe (n : nat) :
  (n < 16)%nat → is_unreserved (hex_digit n) = true.
Proof. intros Hn. do 16 (destruct n as [|n]; [done|]). lia. Qed.

Lemma ord_lt_256 (c : ascii) : (ord c < 256)%nat.
Proof. apply nat_ascii_bounded. Qed.

Lemma quote_char_inj (c d : ascii) (s t : str) :
  quote_char c ++ s = quote_char d ++ t → c = d ∧ s = t.
Proof.
  unfold quote_char.
  destruct (is_unreserved c) eqn:Hc, (is_unreserved d) eqn:Hd;
    repeat case_bool_decide; subst; simpl; intros [=]; subst; try done.
  pose proof (ord_lt_256 c). pose proof (ord_lt_256 d).
  assert (ord c / 16 = ord d / 16)%nat as Hhi.
  { apply hex_digit_inj; [apply Nat.Div0.div_lt_upper_bound; lia..|done]. }
  assert (ord c mod 16 = ord d mod 16)%nat as Hlo.
  { apply hex_digit_inj; [apply Nat.mod_upper_bound; lia..|done]. }
  split; [|done]. apply ord_inj.
  rewrite (Nat.div_mod_eq (ord c) 16), (Nat.div_mod_eq (ord d) 16). lia.
Qed.

Lemma quote_plus_inj (s t : str) : quote_plus s = quote_plus t → s = t.
Proof.
  revert t. induction s as [|c s IH]; intros [|d t].
  - done.
  - unfold quote_plus, quote_char. simpl.
    destruct (is_unreserved d); repeat case_bool_decide; done.
  - unfold quote_plus, quote_char. simpl.
    destruct (is_unreserved c); repeat case_bool_decide; done.
  - change (quote_char c ++ quote_plus s = quote_char d ++ quote_plus t → c :: s = d :: t).
    intros [-> Hst]%quote_char_inj. f_equal. by apply IH.
Qed.

Lemma quote_plus_chars (s : str) :
  Forall (λ c, is_unreserved c = true ∨ c = "+"%char ∨ c = "%"%char)
         (quote_plus s).
Proof.
  induction s as [|c s IH]; [constructor|].
  change (quote_plus (c :: s)) with (quote_char c ++ quote_plus s).
  apply Forall_app. split; [|done].
  unfold quote_char. destruct (is_unreserved c) eqn:Hc.
  - apply Forall_singleton. by left.
  - pose proof (ord_lt_256 c). case_bool_decide.
    + apply Forall_singleton. right. by left.
    + repeat apply Forall_cons_2; [| | |apply Forall_nil_2].
      * right. by right.
      * left. apply hex_digit_safe, Nat.Div0.div_lt_upper_bound. lia.
      * left. apply hex_digit_safe, Nat.mod_upper_bound. lia.
Qed.

(** tutorial_links.py, [get_coursera_link], [get_khan_academy_link] and
    [get_youtube_playlist]: after the fixed address the link has letters,
    digits, [_.-~], [+] and [%] only, whatever the topic, and two topics
    that differ get links that differ. *)
Theorem topic_links_safe_and_distinct (topic topic' : str) :
  (∃ query, get_coursera_link topic = "https://www.coursera.org/search?query=" ++ query
            ∧ Forall (λ c, is_unreserved c = true ∨ c = "+"%char ∨ c = "%"%char) query)
  ∧ (∃ query, get_khan_academy_link topic
              = "https://www.khanacademy.org/search?page_search_query=" ++ query
            ∧ Forall (λ c, is_unreserved c = true ∨ c = "+"%char ∨ c = "%"%char) query)
  ∧ (get_coursera_link topic = get_coursera_link topic' → topic = topic')
  ∧ (get_khan_academy_link topic = get_khan_academy_link topic' → topic = topic')
  ∧ (get_youtube_playlist topic = get_youtube_playlist topic' → topic = topic').
Proof.
  split_and!.
  - exists (quote_plus topic). split; [done|apply quote_plus_chars].
  - exists (quote_plus topic). split; [done|apply quote_plus_chars].
  - unfold get_coursera_link. intros H%app_inv_head. by apply quote_plus_inj.
  - unfold get_khan_academy_link. intros H%app_inv_head. by apply quote_plus_inj.
  - unfold get_youtube_playlist. intros H%app_inv_head%app_inv_tail.
    apply quote_plus_inj in H. by apply app_inv_tail in H.
Qed.

End TutorialSearch.

(** ** tutorial_links.py: when the button is shown *)

Section LearnButton.
Import TutorialLinks Spec.

(** tutorial_links.py, [should_show_learn_button]: one educational keyword
    in the lowercased title is enough for the button, since it counts 2;
    this holds for a keyword that stands inside a longer word as well. *)
Theorem learn_button_for_title_keyword (a : article) (keyword : str) :
  keyword ∈ educational_keywords →
  occurs_in keyword (lowered_title a) →
  should_show_learn_button a = true.
Proof.
  intros Hk Htitle. unfold should_show_learn_button.
  assert (2 ≤ educational_score_of a) as Hn.
  { apply (points_sum_elem _ _ _ _ keyword (educational_score_of_spec a) Hk);
      [|done].
    by apply occurs_in_app_l. }
  by destruct (Z.geb_spec (educational_score_of a) 2); [|lia].
Qed.

Lemma learn_button_for_title_keyword_witness :
  should_show_learn_button
    {| title := Some (lit "Unskilled workers hit hardest");
       description := None; content := None; url := None; urlToImage := None;
       publishedAt := None; published_date := None; source := None;
       has_full_content := None; author := None; saved_at := None |} = true.
Proof.
  apply (learn_button_for_title_keyword _ (lit "skill")).
  - apply (bool_decide_unpack _). by vm_compute.
  - by exists (lit "un"), (lit "ed workers hit hardest").
Defined.

(** tutorial_links.py, [should_show_learn_button]: the button is shown
    only when an educational keyword stands in the lowercased text, and
    when none stands in the title, only when two different keywords do. *)
Theorem learn_button_needs_keywords (a : article) :
  should_show_learn_button a = true →
  (∃ k, k ∈ educational_keywords ∧ occurs_in k (lowered_title a))
  ∨ (∃ k k', k ∈ educational_keywords ∧ k' ∈ educational_keywords ∧ k ≠ k'
             ∧ occurs_in k (lowered_text a) ∧ occurs_in k' (lowered_text a)).
Proof.
  unfold should_show_learn_button.
  destruct (Z.geb_spec (educational_score_of a) 2) as [Hscore|]; [intros _|done].
  pose proof (educational_score_of_spec a) as Hsum. unfold educational_score in Hsum.
  assert (NoDup educational_keywords) as Hnd.
  { apply (bool_decide_unpack _). by vm_compute. }
  revert Hsum Hscore Hnd. generalize (educational_score_of a).
  generalize educational_keywords.
  intros ks n Hsum. induction Hsum as [|k ks p n Hp Hsum IH]; [lia|].
  intros Hscore [Hk Hnd]%NoDup_cons.
  destruct Hp as [Hfull Htitle|Hfull Htitle|Hfull].
  - left. exists k. split; [left|done].
  - destruct (decide (1 ≤ n)) as [Hn|Hn].
    + assert (∃ k', k' ∈ ks ∧ occurs_in k' (lowered_text a)) as (k' & Hk' & Hin).
      { clear IH Hscore Hk Hnd. induction Hsum as [|k' ks p n Hp Hsum IH]; [lia|].
        destruct Hp as [Hfull' _|Hfull' _|_].
        - exists k'. split; [left|done].
        - exists k'. split; [left|done].
        - destruct IH as (k'' & ? & ?); [lia|]. exists k''. split; [by right|done]. }
      right. exists k, k'. split_and!; [left|by right| |done|done].
      intros ->. done.
    + apply points_sum_nonneg in Hsum. lia.
  - destruct (IH ltac:(lia) Hnd) as [(k' & Hk' & Hin)|(k1 & k2 & H1 & H2 & Hne & Ho1 & Ho2)].
    + left. exists k'. split; [by right|done].
    + right. exists k1, k2. split_and!; [by right|by right|done..].
Qed.

Lemma learn_button_needs_keywords_witness :
  (∃ k, k ∈ educational_keywords ∧ occurs_in k (lowered_title Examples.python_tutorial))
  ∨ (∃ k k', k ∈ educational_keywords ∧ k' ∈ educational_keywords ∧ k ≠ k'
             ∧ occurs_in k (lowered_text Examples.python_tutorial)
             ∧ occurs_in k' (lowered_text Examples.python_tutorial)).
Proof. apply learn_button_needs_keywords. by vm_compute. Defined.

End LearnButton.

(** ** rss_fetcher.py: the entries of a feed *)

Section RssEntries.
Import Spec.
Context (parse : str → outcome (list Feed.entry)) (get_text : str → str)
  (parsed_isoformat : str → outcome (option str)).

Abbreviation query_matches := RssSource.query_matches.
Abbreviation entry_matches := RssSource.entry_matches.
Abbreviation clean_html := (RssSource.clean_html get_text).
Abbreviation extract_content := (RssSource.extract_content get_text).
Abbreviation parse_entry := (RssSource.parse_entry get_text parsed_isoformat).
Abbreviation feed_articles := (RssSource.feed_articles get_text parsed_isoformat).
Abbreviation fetch_feeds := (RssSource.fetch_feeds parse get_text parsed_isoformat).
Abbreviation fetch_from_source :=
  (RssSource.fetch_from_source parse get_text parsed_isoformat).

Lemma occurs_in_app_r (sub s t : str) : occurs_in sub t → occurs_in sub (s ++ t).
Proof.
  intros (pre & post & ->). exists (s ++ pre), post. by rewrite <- !app_assoc.
Qed.

Lemma split_go_occurs (s word w : str) :
  w ∈ split_go word s → occurs_in w (rev word ++ s).
Proof.
  revert word. induction s as [|c s IH]; intros word; simpl.
  - destruct word as [|d word]; [by intros ?%elem_of_nil|].
    intros ->%list_elem_of_singleton. rewrite app_nil_r. apply occurs_in_refl.
  - assert (∀ q, occurs_in q (rev [] ++ s) → occurs_in q (rev word ++ c :: s))
      as Hlater.
    { intros q Hq. apply occurs_in_app_r. simpl in Hq.
      destruct Hq as (pre & post & ->). by exists (c :: pre), post. }
    destruct (is_space c).
    + destruct word as [|d word]; [by intros Hw%IH%Hlater|].
      intros [->|Hw%IH%Hlater]%elem_of_cons; [|done].
      by exists [], (c :: s).
    + intros Hw%IH. simpl in Hw. by rewrite <- app_assoc in Hw.
Qed.

Lemma filter_all {A} (P : A → Prop) `{∀ x, Decision (P x)} (l : list A) :
  Forall P l → filter P l = l.
Proof.
  induction 1 as [|x l Hx Hl IH]; [done|].
  by rewrite filter_cons_True, IH.
Qed.

Lemma length_omap_le {A B} (f : A → option B) (l : list A) :
  (length (omap f l) ≤ length l)%nat.
Proof.
  induction l as [|x l IH]; [done|].
  change (omap f (x :: l))
    with (match f x with Some y => y :: omap f l | None => omap f l end).
  destruct (f x); cbn [length]; lia.
Qed.

Lemma query_matches_all (query text : str) :
  (∀ w, w ∈ split query → occurs_in w text) → query_matches query text = true.
Proof.
  intros Hall. unfold query_matches.
  rewrite filter_all.
  2:{ apply Forall_forall. intros w Hw. by apply contains_spec, Hall. }
  apply Z.geb_le. unfold len. lia.
Qed.

(** rss_fetcher.py, [fetch_from_source] with [query_matches]: the test an
    entry passes is [query_matches] alone, at least half of the words of
    the lowercased query standing in the lowercased title and summary: a
    query that stands as a whole in the title or in the summary has all
    of its words there.  A query without a word passes with every entry. *)
Theorem rss_entry_test_is_query_matches (query_lower : str) (entry : Feed.entry) :
  entry_matches query_lower entry
  = query_matches query_lower
      (lower (get (Feed.title entry) []) ++ " "
       ++ lower (get (Feed.summary entry) []))
  ∧ (split query_lower = [] → entry_matches query_lower entry = true).
Proof.
  unfold entry_matches.
  set (title := lower (get (Feed.title entry) [])).
  set (summary := lower (get (Feed.summary entry) [])).
  assert (∀ text, occurs_in query_lower text →
            (∀ w, w ∈ split query_lower → occurs_in w text)) as Hwords.
  { intros text Hq w Hw. eapply occurs_in_trans; [|exact Hq].
    apply split_go_occurs in Hw. by simpl in Hw. }
  split.
  - destruct (contains title query_lower) eqn:Ht.
    { symmetry. apply query_matches_all. intros w Hw.
      apply occurs_in_app_l. apply contains_spec in Ht. by apply (Hwords title). }
    destruct (contains summary query_lower) eqn:Hs; [|done].
    symmetry. apply query_matches_all. intros w Hw.
    apply occurs_in_app_r, occurs_in_app_r.
    apply contains_spec in Hs. by apply (Hwords summary).
  - intros Hnone. rewrite (query_matches_all query_lower); [|].
    + by rewrite !orb_true_r.
    + rewrite Hnone. by intros w ?%elem_of_nil.
Qed.

Lemma sub_spaces_spec (in_run : bool) (s : str) :
  Forall (λ c, is_space c = true → c = " "%char) (sub_spaces in_run s)
  ∧ ¬ occurs_in "  " (sub_spaces in_run s)
  ∧ (in_run = true → head (sub_spaces in_run s) ≠ Some " "%char).
Proof.
  revert in_run. induction s as [|c s IH]; intros in_run; simpl.
  { split_and!; [constructor| |done].
    intros ([|??] & ? & ?); done. }
  destruct (is_space c) eqn:Hc.
  - destruct in_run.
    + apply IH.
    + destruct (IH true) as (Hall & Hpair & Hhead). split_and!; [|  |done].
      * by constructor.
      * intros ([|d pre] & post & Heq); simpl in Heq.
        -- injection Heq as Heq. apply Hhead; [done|]. by rewrite Heq.
        -- injection Heq as <- Heq. apply Hpair. by exists pre, post.
  - destruct (IH false) as (Hall & Hpair & _). split_and!.
    + constructor; [|done]. intros Hc'. congruence.
    + intros ([|d pre] & post & Heq); simpl in Heq.
      * injection Heq as -> _. by vm_compute in Hc.
      * injection Heq as _ Heq. apply Hpair. by exists pre, post.
    + intros _ [= ->]. by vm_compute in Hc.
Qed.

(** rss_fetcher.py, [clean_html]: whatever text is taken out of the
    markup, the result has no white space but single spaces between other
    characters: no tab or line end, no two spaces in a row, and none at
    either end. *)
Theorem clean_html_single_spaced (html_text : str) :
  single_spaced (clean_html html_text).
Proof.
  unfold RssSource.clean_html. destruct (truthy html_text); simpl.
  - destruct (sub_spaces_spec false (get_text html_text)) as (Hall & Hpair & _).
    pose proof (strip_occurs_in (sub_spaces false (get_text html_text))) as Hocc.
    split_and!.
    + apply Forall_forall. intros c Hc. rewrite Forall_forall in Hall.
      apply Hall. by eapply occurs_in_elem.
    + intros Hin. apply Hpair. by eapply occurs_in_trans.
    + apply strip_ends.
  - split_and!; [constructor| |by intros c [?|?]].
    intros ([|??] & ? & ?); done.
Qed.


Lemma parse_entry_source (entry : Feed.entry) (source_name : str) (a : article) :
  parse_entry entry source_name = Some a →
  source a = Some (Source (Some (upper source_name))).
Proof.
  unfold RssSource.parse_entry.
  destruct (RssSource.extract_content _ _); [|done].
  destruct (RssSource.extract_image _); [|done]. by intros [= <-].
Qed.

Lemma feed_articles_source (source_name query_lower : str)
    (entries : list Feed.entry) :
  Forall (λ a, source a = Some (Source (Some (upper source_name))))
         (feed_articles source_name query_lower entries).
Proof.
  apply Forall_forall. intros a Ha. unfold RssSource.feed_articles in Ha.
  apply list_elem_of_omap in Ha as (entry & _ & Ha).
  destruct (RssSource.entry_matches _ _); [|done].
  by eapply parse_entry_source.
Qed.

Lemma len_feed_articles (source_name query_lower : str)
    (entries : list Feed.entry) :
  len (feed_articles source_name query_lower entries) ≤ len entries.
Proof.
  unfold RssSource.feed_articles, len. apply inj_le, length_omap_le.
Qed.

Lemma fetch_feeds_spec (source_name query_lower : str) (max_results : Z)
    (feeds : list str) (articles : list article) :
  fetch_feeds source_name feeds query_lower max_results articles
  = fetch_feeds source_name
      (filter (λ feed_url, returned (parse feed_url) = true) feeds)
      query_lower max_results articles
  ∧ (Forall (λ a, source a = Some (Source (Some (upper source_name)))) articles →
     Forall (λ a, source a = Some (Source (Some (upper source_name))))
       (fetch_feeds source_name feeds query_lower max_results articles))
  ∧ (0 < max_results → len articles < max_results →
     len (fetch_feeds source_name feeds query_lower max_results articles)
     < 2 * max_results).
Proof.
  revert articles. induction feeds as [|feed_url feeds IH]; intros articles.
  { simpl. split_and!; [done|done|lia]. }
  destruct (IH articles) as (Hskip & Hsource & Hlen).
  rewrite filter_cons. cbn [RssSource.fetch_feeds].
  destruct (parse feed_url) as [entries|] eqn:Hparse.
  - rewrite decide_True by done.
    cbn [RssSource.fetch_feeds]. rewrite Hparse.
    set (articles' := articles ++ _).
    destruct (IH articles') as (Hskip' & Hsource' & Hlen').
    destruct (Z.geb_spec (len articles') max_results) as [Hfull|Hmore].
    + split_and!; [done| |].
      * intros Hall. apply Forall_app. split; [done|apply feed_articles_source].
      * intros Hmax Hfew. unfold articles'. rewrite len_app.
        pose proof (len_feed_articles source_name query_lower
                      (slice_to entries max_results)).
        pose proof (len_slice_to entries max_results). lia.
    + split_and!; [done| |by auto].
      intros Hall. apply Hsource', Forall_app.
      split; [done|apply feed_articles_source].
  - rewrite decide_False by done. done.
Qed.

Lemma contains_refl (t : str) : contains t t = true.
Proof. apply contains_spec, occurs_in_refl. Qed.

Lemma entry_titled_matches (query : str) :
  entry_matches (lower query) (Examples.entry_titled query) = true.
Proof.
  unfold RssSource.entry_matches. cbn [Examples.entry_titled Feed.title get default].
  by rewrite contains_refl.
Qed.

Lemma feed_articles_replicate (source_name query : str) (n : nat) :
  ∃ a, feed_articles source_name (lower query)
         (replicate n (Examples.entry_titled query)) = replicate n a.
Proof.
  eexists. induction n as [|n IH]; [done|].
  cbn [replicate]. unfold RssSource.feed_articles in *.
  cbn [omap list_omap]. rewrite entry_titled_matches.
  unfold RssSource.parse_entry at 1. cbn. f_equal. exact IH.
Qed.

Lemma fetch_from_source_two_feeds (source_name query : str) (max_results : Z) :
  0 < max_results →
  len (RssSource.fetch_from_source
         (Examples.short_then_full (Z.to_nat max_results)
            (Examples.entry_titled query))
         get_text parsed_isoformat source_name [lit "short"; lit "full"]
         query max_results)
  = 2 * max_results - 1.
Proof.
  intros Hmax. unfold RssSource.fetch_from_source.
  cbn [RssSource.fetch_feeds Examples.short_then_full].
  rewrite bool_decide_eq_true_2 by done.
  rewrite bool_decide_eq_false_2 by done.
  rewrite !slice_to_all by (unfold len; rewrite length_replicate; lia).
  destruct (feed_articles_replicate source_name query (Z.to_nat max_results - 1))
    as [a ->].
  destruct (feed_articles_replicate source_name query (Z.to_nat max_results))
    as [a' ->].
  cbn [app].
  destruct (Z.geb_spec (len (replicate (Z.to_nat max_results - 1) a)) max_results)
    as [Hge|_].
  { unfold len in Hge. rewrite length_replicate in Hge. lia. }
  destruct (Z.geb_spec
              (len (replicate (Z.to_nat max_results - 1) a
                    ++ replicate (Z.to_nat max_results) a')) max_results)
    as [_|Hlt].
  - unfold len. rewrite length_app, !length_replicate. lia.
  - unfold len in Hlt. rewrite length_app, !length_replicate in Hlt. lia.
Qed.

(** rss_fetcher.py, [fetch_from_source]: a feed that cannot be parsed
    changes nothing, the result is what the other feeds of the source
    give; every article has the source name in upper case; for a
    positive [max_results] the list has fewer than twice [max_results]
    articles; and it can be longer than [max_results]: a feed with
    [max_results - 1] entries that match, followed by a feed with
    [max_results] of them, gives [2 * max_results - 1] articles, which is
    more than [max_results] as soon as [max_results] is more than 1. *)
Theorem fetch_from_source_passes_failed_feeds (source_name : str)
    (feeds : list str) (query : str) (max_results : Z) :
  0 < max_results →
  fetch_from_source source_name feeds query max_results
  = fetch_from_source source_name
      (filter (λ feed_url, returned (parse feed_url) = true) feeds) query max_results
  ∧ Forall (λ a, source a = Some (Source (Some (upper source_name))))
      (fetch_from_source source_name feeds query max_results)
  ∧ len (fetch_from_source source_name feeds query max_results)
    < 2 * max_results
  ∧ len (RssSource.fetch_from_source
           (Examples.short_then_full (Z.to_nat max_results)
              (Examples.entry_titled query))
           get_text parsed_isoformat source_name [lit "short"; lit "full"]
           query max_results)
    = 2 * max_results - 1.
Proof.
  intros Hmax. unfold RssSource.fetch_from_source at 1 2 3 4.
  destruct (fetch_feeds_spec source_name (lower query) max_results feeds [])
    as (Hskip & Hsource & Hlen).
  split_and!; [done|by apply Hsource| |by apply fetch_from_source_two_feeds].
  apply Hlen; [done|]. unfold len. simpl. lia.
Qed.

End RssEntries.

Section RssSources.
Import Spec.
Context (parse : str → outcome (list Feed.entry)) (get_text : str → str)
  (parsed_isoformat : str → outcome (option str)).

Abbreviation from_source :=
  (λ source_name feeds query max_results,
     Returned (RssSource.fetch_from_source parse get_text parsed_isoformat
                 source_name feeds query max_results)).

Lemma gather_Forall (P : article → Prop) (sources : list (str * list str))
    (query : str) (max_results : Z) (all_articles : list article) :
  Forall P all_articles →
  (∀ source_name feeds, (source_name, feeds) ∈ sources →
     Forall P (RssSource.fetch_from_source parse get_text parsed_isoformat
                 source_name feeds query max_results)) →
  Forall P (RssFetcher.gather from_source sources query max_results all_articles).
Proof.
  revert all_articles.
  induction sources as [|[source_name feeds] sources IH];
    intros all_articles Hall Hsources; [done|].
  cbn [RssFetcher.gather].
  assert (Forall P (all_articles
                    ++ RssSource.fetch_from_source parse get_text
                         parsed_isoformat source_name feeds query max_results))
    as Hboth.
  { apply Forall_app. split; [done|]. apply Hsources. left. }
  destruct (len _ >=? max_results); [done|].
  apply IH; [done|]. intros name feeds' Hin. apply Hsources. by right.
Qed.

Lemma fetch_feeds_down (source_name query_lower : str) (max_results : Z)
    (feeds : list str) (articles : list article) :
  (∀ feed_url, parse feed_url = Raised) →
  RssSource.fetch_feeds parse get_text parsed_isoformat source_name feeds
    query_lower max_results articles = articles.
Proof.
  intros Hdown. induction feeds as [|feed_url feeds IH]; [done|].
  cbn [RssSource.fetch_feeds]. by rewrite Hdown.
Qed.

Lemma gather_down (sources : list (str * list str)) (query : str)
    (max_results : Z) :
  (∀ feed_url, parse feed_url = Raised) → 0 < max_results →
  RssFetcher.gather from_source sources query max_results [] = [].
Proof.
  intros Hdown Hmax.
  induction sources as [|[source_name feeds] sources IH]; [done|].
  cbn [RssFetcher.gather]. unfold RssSource.fetch_from_source.
  rewrite fetch_feeds_down by done. cbn [app].
  by destruct (Z.geb_spec (len (@nil article)) max_results) as [Hge|_];
    [unfold len in Hge; simpl in Hge; lia|].
Qed.

Lemma rss_fetch_news_of_feeds_empty (query : str) (max_results : Z) :
  (∀ feed_url, parse feed_url = Raised) → 0 < max_results →
  RssSource.fetch_news parse get_text parsed_isoformat query max_results = [].
Proof.
  intros Hdown Hmax. unfold RssSource.fetch_news, RssFetcher.fetch_news.
  rewrite gather_down by done.
  unfold slice_to. destruct (0 <=? max_results); apply take_nil.
Qed.

(** rss_fetcher.py, [fetch_news] with [fetch_from_source]: for a positive
    [max_results] the list has at most [max_results] articles, each
    carrying the name of one of the six feed sources in upper case; and
    when no feed can be read, the list is empty and nothing is raised. *)
Theorem rss_fetch_news_of_feeds (query : str) (max_results : Z) :
  0 < max_results →
  let articles :=
    RssSource.fetch_news parse get_text parsed_isoformat query max_results in
  len articles ≤ max_results
  ∧ Forall (λ a, ∃ source_name,
                   source_name ∈ RssFetcher.rss_feeds.*1
                   ∧ source a = Some (Source (Some (upper source_name))))
      articles
  ∧ ((∀ feed_url, parse feed_url = Raised) → articles = []).
Proof.
  intros Hmax articles. unfold articles, RssSource.fetch_news, RssFetcher.fetch_news.
  split_and!.
  - apply len_slice_to. lia.
  - apply Forall_forall. intros a Ha.
    assert (a ∈ sorted str_ltb RssFetcher.date_key true
                  (RssFetcher.gather from_source RssFetcher.rss_feeds query
                     max_results [])) as Hin.
    { eapply elem_of_prefix; [exact Ha|apply slice_to_prefix]. }
    rewrite sorted_Permutation in Hin. clear Ha. revert a Hin.
    apply Forall_forall.
    apply gather_Forall; [done|].
    intros source_name feeds Hin.
    destruct (fetch_feeds_spec parse get_text parsed_isoformat source_name
                (lower query) max_results feeds []) as (_ & Hsource & _).
    specialize (Hsource (Forall_nil_2 _)).
    eapply Forall_impl; [exact Hsource|].
    intros a Ha. exists source_name. split; [|exact Ha].
    by apply (list_elem_of_fmap_2 fst) in Hin.
  - intros Hdown. rewrite gather_down by done.
    unfold slice_to. destruct (0 <=? max_results); apply take_nil.
Qed.

End RssSources.

Lemma fetch_from_source_passes_failed_feeds_witness :
  let fetch :=
    RssSource.fetch_from_source Examples.first_feed_down Examples.no_markup
      Examples.no_date in
  let bbc := default [] (snd <$> head RssFetcher.rss_feeds) in
  (* the first feed is down; each of the others has two entries, which
     the empty query keeps: four articles for a limit of three *)
  len (fetch "bbc" bbc [] 3) = 4
  ∧ fetch "bbc" bbc [] 3
    = fetch "bbc"
        (filter (λ feed_url, returned (Examples.first_feed_down feed_url) = true) bbc)
        [] 3
  ∧ Forall (λ a, source a = Some (Source (Some (upper "bbc"))))
      (fetch "bbc" bbc [] 3)
  ∧ len (fetch "bbc" bbc [] 3) < 2 * 3
  ∧ len (RssSource.fetch_from_source
           (Examples.short_then_full (Z.to_nat 3) (Examples.entry_titled []))
           Examples.no_markup Examples.no_date "bbc" [lit "short"; lit "full"]
           [] 3)
    = 2 * 3 - 1.
Proof.
  split; [reflexivity|].
  apply (fetch_from_source_passes_failed_feeds Examples.first_feed_down
           Examples.no_markup Examples.no_date "bbc"
           (default [] (snd <$> head RssFetcher.rss_feeds)) [] 3).
  lia.
Defined.

Lemma rss_fetch_news_of_feeds_witness :
  let articles :=
    RssSource.fetch_news Examples.first_feed_down Examples.no_markup
      Examples.no_date "robots" 2 in
  len articles ≤ 2
  ∧ Forall (λ a, ∃ source_name,
                   source_name ∈ RssFetcher.rss_feeds.*1
                   ∧ source a = Some (Source (Some (upper source_name))))
      articles
  ∧ ((∀ feed_url, Examples.first_feed_down feed_url = Raised) → articles = []).
Proof.
  apply (rss_fetch_news_of_feeds Examples.first_feed_down Examples.no_markup
           Examples.no_date "robots" 2).
  lia.
Defined.

(** ** cache_manager.py *)

Section CacheFacts.
Import CacheManager.

(** cache_manager.py, [is_cache_valid] and [load_cache]: the two agree,
    the cache is valid exactly when [load_cache] returns a list, and the
    list is the one under the key [articles], or the empty list when the
    key is missing.  A cache of exactly the duration is still valid. *)
Theorem is_cache_valid_iff_load_cache (self : manager) (now : Z)
    (file : cache_file) :
  (is_cache_valid self now file = true
   ↔ ∃ cached, load_cache self now file = Some cached)
  ∧ (∀ cached, load_cache self now file = Some cached →
       ∃ cache_data cache_time,
         file = Some (Returned cache_data)
         ∧ timestamp cache_data = Some cache_time
         ∧ now - cache_time ≤ cache_duration self
         ∧ cached = get (articles cache_data) []).
Proof.
  unfold is_cache_valid, load_cache.
  destruct file as [[cache_data|]|]; [|split; [split; [done|by intros [??]]|done]..].
  destruct (timestamp cache_data) as [cache_time|] eqn:Htime;
    [|split; [split; [done|by intros [??]]|done]].
  cbv zeta.
  destruct (Z.gtb_spec (now - cache_time) (cache_duration self)) as [Hold|Hnew].
  - split; [|done]. split; [|by intros [??]].
    intros Hvalid%Z.leb_le. lia.
  - split.
    + split; [by eexists|]. intros _. by apply Z.leb_le.
    + intros cached [= <-]. by exists cache_data, cache_time.
Qed.

(** cache_manager.py, [save_cache] then [load_cache]: what was saved at
    one time is loaded at another exactly when no more than the duration
    has passed, also when the clock was set back in between; a save that
    cannot write returns [False] and leaves the file as it is. *)
Theorem save_cache_then_load_cache (self : manager) (now now' : Z)
    (saved : list article) (meta : option (list (str * str)))
    (file : cache_file) :
  (save_cache self now true saved meta file).1 = true
  ∧ load_cache self now' (save_cache self now true saved meta file).2
    = (if now' - now >? cache_duration self then None else Some saved)
  ∧ is_cache_valid self now' (save_cache self now true saved meta file).2
    = (now' - now <=? cache_duration self)
  ∧ save_cache self now false saved meta file = (false, file).
Proof. done. Qed.

(** cache_manager.py, [clear_cache]: the result is [True] when the file
    was there and is removed, [False] when it was there and stays, and
    [None], not [False], when there was no file; after a result that is
    not [False] nothing is loaded and the cache is not valid. *)
Theorem clear_cache_result (self : manager) (removable : bool)
    (file : cache_file) (now : Z) :
  let result := (clear_cache self removable file).1 in
  let file' := (clear_cache self removable file).2 in
  (result = Some true ↔ is_Some file ∧ removable = true)
  ∧ (result = Some false ↔ is_Some file ∧ removable = false)
  ∧ (result = None ↔ file = None)
  ∧ (result = Some false → file' = file)
  ∧ (result ≠ Some false →
       file' = None ∧ load_cache self now file' = None
       ∧ is_cache_valid self now file' = false).
Proof.
  unfold clear_cache. destruct file as [data|]; [destruct removable|]; simpl.
  - split_and!; try done; try (split; [done|by intros [_ ?]]).
  - split_and!; try done; try (split; [done|by intros [_ ?]]).
  - split_and!; try done; split; try done; by intros [[? ?] _].
Qed.

End CacheFacts.

(** ** main.py: loading the news *)

Section LoadNewsFacts.
Import Main.




(** main.py, [load_news] with the RSS fetcher: when no feed can be read,
    a load that does not show the cache shows "No articles found", not
    the message about the internet connection, and leaves the cache file
    as it is; the message about the connection is shown in no case, since
    the fetcher raises nothing. *)
Theorem load_news_with_feeds_down (parse : str → outcome (list Feed.entry))
    (get_text : str → str) (parsed_isoformat : str → outcome (option str))
    (self : CacheManager.manager) (force_refresh : bool)
    (preferences : option (outcome (option str))) (now : Z) (writable : bool)
    (file : CacheManager.cache_file) :
  (∀ feed_url, parse feed_url = Raised) →
  let fetch_news := λ query max_results,
    Returned (RssSource.fetch_news parse get_text parsed_isoformat
                query max_results) in
  let loaded :=
    load_news fetch_news self force_refresh preferences now writable file in
  loaded.2 = file
  ∧ loaded.1 ≠ Message "Failed to load news. Check your internet connection."
  ∧ (loaded.1 = Message "No articles found. Try selecting a different field."
     ∨ ∃ cached, force_refresh = false
                 ∧ CacheManager.load_cache self now file = Some cached
                 ∧ cached ≠ [] ∧ loaded.1 = Cards cached).
Proof.
  intros Hdown fetch_news loaded.
  assert (fetch_news (get_search_query (get_user_field preferences)) 20
          = Returned []) as Hfetch.
  { unfold fetch_news. f_equal.
    by apply (rss_fetch_news_of_feeds_empty parse get_text parsed_isoformat). }
  unfold loaded, load_news. rewrite Hfetch.
  destruct force_refresh; cbn [negb].
  { split_and!; [done|done|by left]. }
  destruct (CacheManager.load_cache self now file) as [[|c cached]|] eqn:Hload.
  - split_and!; [done|done|by left].
  - split_and!; [done|done|].
    right. by exists (c :: cached).
  - split_and!; [done|done|by left].
Qed.

Lemma load_news_with_feeds_down_witness :
  let fetch_news := λ query max_results,
    Returned (RssSource.fetch_news Examples.all_feeds_down Examples.no_markup
                Examples.no_date query max_results) in
  let loaded :=
    load_news fetch_news (CacheManager.init 6) true None 0 true None in
  loaded.2 = None
  ∧ loaded.1 ≠ Message "Failed to load news. Check your internet connection."
  ∧ (loaded.1 = Message "No articles found. Try selecting a different field."
     ∨ ∃ cached, true = false
                 ∧ CacheManager.load_cache (CacheManager.init 6) 0 None
                   = Some cached
                 ∧ cached ≠ [] ∧ loaded.1 = Cards cached).
Proof.
  apply (load_news_with_feeds_down Examples.all_feeds_down Examples.no_markup
           Examples.no_date (CacheManager.init 6) true None 0 true None).
  reflexivity.
Defined.

End LoadNewsFacts.

(** ** notifications.py *)

Section NotificationFacts.
Import Notifications Spec.

(** What a turn sends was not sent before, and is marked as sent unless
    the clock reads midnight. *)
Lemma scheduler_turn_spec (f : flags) (now : clock) :
  NoDup (scheduler_turn f now).1
  ∧ (morning ∈ (scheduler_turn f now).1 → morning_sent_today f = false)
  ∧ (evening ∈ (scheduler_turn f now).1 → evening_sent_today f = false)
  ∧ (strftime now ≠ lit "00:00" →
     morning_sent_today (scheduler_turn f now).2
     = morning_sent_today f || bool_decide (morning ∈ (scheduler_turn f now).1)
     ∧ evening_sent_today (scheduler_turn f now).2
       = evening_sent_today f || bool_decide (evening ∈ (scheduler_turn f now).1)).
Proof.
  unfold scheduler_turn.
  destruct (bool_decide_reflect (strftime now = lit "00:00")) as [Hzero|Hzero];
    destruct (str_geb (strftime now) morning_time),
             (str_geb (strftime now) evening_time), f as [[] []];
    cbn [morning_sent_today evening_sent_today negb andb app fst snd].
  all: split_and!; [by apply (bool_decide_unpack _)..|].
  all: intros Hnot; try done.
  all: by vm_compute.
Qed.

Lemma scheduler_turns_spec (readings : list clock) (f : flags) :
  Forall (λ now, strftime now ≠ lit "00:00") readings →
  NoDup (scheduler_turns f readings).1
  ∧ (morning ∈ (scheduler_turns f readings).1 → morning_sent_today f = false)
  ∧ (evening ∈ (scheduler_turns f readings).1 → evening_sent_today f = false).
Proof.
  intros Hreadings. revert f.
  induction Hreadings as [|now readings Hnow _ IH]; intros f.
  { simpl. split_and!; [constructor|by intros ?%elem_of_nil..]. }
  cbn [scheduler_turns].
  destruct (scheduler_turn_spec f now) as (Hnd & Hm & He & Hflags).
  destruct (Hflags Hnow) as [Hm' He'].
  destruct (scheduler_turn f now) as [sent f'].
  destruct (IH f') as (Hnd' & Hm'' & He'').
  destruct (scheduler_turns f' readings) as [sent' f''].
  cbn [fst snd] in *.
  assert (∀ r, r ∈ sent → r ∈ sent' → False) as Hapart.
  { intros [] Hr Hr'.
    - specialize (Hm'' Hr'). rewrite Hm', bool_decide_eq_true_2 in Hm'' by done.
      by destruct (morning_sent_today f).
    - specialize (He'' Hr'). rewrite He', bool_decide_eq_true_2 in He'' by done.
      by destruct (evening_sent_today f). }
  split_and!.
  - apply NoDup_app. split_and!; [done| |done]. intros r Hr Hr'. by eapply Hapart.
  - intros [Hin|Hin]%elem_of_app; [by apply Hm|].
    specialize (Hm'' Hin). rewrite Hm' in Hm''.
    by destruct (morning_sent_today f).
  - intros [Hin|Hin]%elem_of_app; [by apply He|].
    specialize (He'' Hin). rewrite He' in He''.
    by destruct (evening_sent_today f).
Qed.

(** notifications.py, [_notification_scheduler]: as long as no turn of the
    loop reads the clock at 00:00, each of the two reminders is sent at
    most once, however many days the readings span: the flags are reset
    only by a turn that reads exactly 00:00. *)
Theorem reminders_once_without_midnight_reading (readings : list clock) :
  Forall (λ now, strftime now ≠ lit "00:00") readings →
  NoDup (_notification_scheduler readings).
Proof.
  intros Hreadings. unfold _notification_scheduler.
  by destruct (scheduler_turns_spec readings
                 {| morning_sent_today := false; evening_sent_today := false |}
                 Hreadings) as [Hnd _].
Qed.

Lemma reminders_once_without_midnight_reading_witness :
  NoDup (_notification_scheduler
           [Clock 23 59; Clock 0 1; Clock 7 0; Clock 21 0; Clock 23 59;
            Clock 0 1; Clock 7 0]).
Proof.
  apply reminders_once_without_midnight_reading.
  repeat (apply Forall_cons_2; [by vm_compute|]). apply Forall_nil_2.
Defined.

(** notifications.py, [_notification_scheduler]: the comparison of the
    strings of [strftime] is the comparison of the hours.  The first turn
    of the loop sends nothing before 07:00, the morning reminder from
    07:00 on, and from 21:00 on the morning reminder and then the evening
    reminder; flags that are set are reset by a turn at 00:00 and by no
    other. *)
Theorem first_turn_by_the_clock (h m : nat) :
  (h < 24)%nat → (m < 60)%nat →
  (scheduler_turn {| morning_sent_today := false; evening_sent_today := false |}
     (Clock h m)).1
  = (if (h <? 7)%nat then []
     else if (h <? 21)%nat then [morning] else [morning; evening])
  ∧ (scheduler_turn {| morning_sent_today := true; evening_sent_today := true |}
       (Clock h m)).2
    = (if ((h =? 0) && (m =? 0))%nat
       then {| morning_sent_today := false; evening_sent_today := false |}
       else {| morning_sent_today := true; evening_sent_today := true |}).
Proof.
  intros Hh Hm.
  assert (forallb (λ h, forallb (turn_by_the_clock h) (seq 0 60)) (seq 0 24)
          = true) as Hall by (by vm_compute).
  rewrite forallb_forall in Hall.
  specialize (Hall h ltac:(apply in_seq; lia)).
  rewrite forallb_forall in Hall.
  specialize (Hall m ltac:(apply in_seq; lia)).
  unfold turn_by_the_clock in Hall.
  apply andb_true_iff in Hall as [H1 H2].
  apply bool_decide_eq_true in H1, H2. by split.
Qed.

Lemma first_turn_by_the_clock_witness :
  (scheduler_turn {| morning_sent_today := false; evening_sent_today := false |}
     (Clock 22 30)).1
  = (if (22 <? 7)%nat then []
     else if (22 <? 21)%nat then [morning] else [morning; evening])
  ∧ (scheduler_turn {| morning_sent_today := true; evening_sent_today := true |}
       (Clock 22 30)).2
    = (if ((22 =? 0) && (30 =? 0))%nat
       then {| morning_sent_today := false; evening_sent_today := false |}
       else {| morning_sent_today := true; evening_sent_today := true |}).
Proof. apply first_turn_by_the_clock; lia. Defined.

End NotificationFacts.
